(** * version-bumper: the option utilities of [src/utils/options.ts]

    A shallow embedding of the functions of [options.ts] and the properties
    of its behaviour.  The program is TypeScript that runs as JavaScript on
    loosely typed data (the option object is [any] while it is assembled), so
    the embedding works on JavaScript values and writes out the language
    rules the code relies on: truthiness, property assignment on a plain
    object, the order of [Object.keys], [String.prototype.trim], string
    conversion, and the [TypeError]s of a method call on a value that has no
    such method. *)

From Stdlib Require Import List String Ascii ZArith NArith Bool Lia Permutation.
From Stdlib Require Import Sorted.
From Stdlib Require Import DecimalString.
Import ListNotations.
Local Open Scope string_scope.
Local Open Scope list_scope.

Set Implicit Arguments.
Set Warnings "-register-all".

(** ** Outcomes: a returned value or a thrown exception *)

(** The exceptions of the program.  [Error] is what the code throws itself
    with [new Error(message)]; [TypeError] is raised by the language (the
    text is the engine's, one wording is fixed here); [SyntaxError] is the
    failure of [JSON.parse]. *)
Inductive exn : Type :=
| Error (message : string)
| TypeError (message : string)
| SyntaxError (message : string).

Inductive result (A : Type) : Type :=
| Ok (a : A)
| Throw (e : exn).
Arguments Ok {A} a.
Arguments Throw {A} e.

Definition bind {A B : Type} (m : result A) (k : A -> result B) : result B :=
  match m with
  | Ok a => k a
  | Throw e => Throw e
  end.

Notation "x <- m ;; k" := (bind m (fun x => k))
  (at level 61, m at next level, right associativity).

(** [String(e)] for an exception object, as string concatenation gives it. *)
Definition exn_toString (e : exn) : string :=
  match e with
  | Error m => "Error: " ++ m
  | TypeError m => "TypeError: " ++ m
  | SyntaxError m => "SyntaxError: " ++ m
  end.

(** ** JavaScript values *)

(** The values that reach the program: what [JSON.parse] produces, the
    strings of the workflow inputs, and [undefined].  A character of a
    [string] stands for one code unit below 256; [VNum n] stands for the
    number [n], an integer that a double holds exactly and writes in
    full, which is every integer up to [2^53] in magnitude (the numbers
    of the program are line numbers); fractions, larger numbers, [NaN]
    and the infinities have no value here.  An object is its own
    enumerable properties in creation order, with [Object.prototype]
    above it. *)
Inductive value : Type :=
| VUndefined
| VNull
| VBool (b : bool)
| VNum (n : Z)
| VStr (s : string)
| VArr (elems : list value)
| VObj (props : list (string * value)).

Definition obj : Type := list (string * value).

Module JS.

(** [ToBoolean]. *)
Definition truthy (v : value) : bool :=
  match v with
  | VUndefined | VNull => false
  | VBool b => b
  | VNum n => negb (n =? 0)%Z
  | VStr s => negb (s =? "")
  | VArr _ | VObj _ => true
  end.

(** White space and line terminators among the code units below 256:
    TAB, LF, VT, FF, CR, SP and NBSP. *)
Definition is_white_space (c : ascii) : bool :=
  let n := nat_of_ascii c in
  ((9 <=? n) && (n <=? 13) || (n =? 32) || (n =? 160))%nat.

Fixpoint trimStart (s : string) : string :=
  match s with
  | EmptyString => EmptyString
  | String c r => if is_white_space c then trimStart r else s
  end.

Definition reverse (s : string) : string :=
  string_of_list_ascii (rev (list_ascii_of_string s)).

Definition trimEnd (s : string) : string := reverse (trimStart (reverse s)).

(** [String.prototype.trim]. *)
Definition trim (s : string) : string := trimEnd (trimStart s).

(** [s.substring(n)]: the string without its first [n] code units. *)
Fixpoint substring (n : nat) (s : string) : string :=
  match n, s with
  | O, _ => s
  | S _, EmptyString => EmptyString
  | S n', String _ r => substring n' r
  end.

(** *** Plain objects *)

(** The own property [k] of an object. *)
Fixpoint own (o : obj) (k : string) : option value :=
  match o with
  | [] => None
  | (k', v) :: r => if k' =? k then Some v else own r k
  end.

Definition has_own (o : obj) (k : string) : bool :=
  match own o k with Some _ => true | None => false end.

Fixpoint update (o : obj) (k : string) (v : value) : obj :=
  match o with
  | [] => []
  | (k', v') :: r =>
      if k' =? k then (k', v) :: r else (k', v') :: update r k v
  end.

(** [typeof v === 'object']. *)
Definition typeof_object (v : value) : bool :=
  match v with VNull | VArr _ | VObj _ => true | _ => false end.

(** [o[k] = v] on an object whose prototype is [Object.prototype], as
    the option object is from its creation to the end of the run: the
    own properties afterwards.  An own property is overwritten in place;
    a new one is created last, except for the key [__proto__], which
    reaches the accessor inherited from [Object.prototype] and creates
    no property.  That accessor changes the prototype when [v] is an
    object or [null]; the prototype is not kept here, the option object
    being assigned to under the fixed names of its members only.  The
    map of [normalizeFiles], whose keys are data, is a [map_object]
    below. *)
Definition assign (o : obj) (k : string) (v : value) : obj :=
  if has_own o k then update o k v
  else if k =? "__proto__" then o
  else o ++ [(k, v)].

(** *** A plain object used as a map *)

(** What stands above the object in its prototype chain:
    [Object.prototype], as for every object literal, or the value that
    an assignment to [__proto__] has put in its place, an object or
    [null]. *)
Inductive prototype : Type :=
| Object_prototype
| Prototype (v : value).

(** Whether an assignment to the key [__proto__], when the object has
    no such property of its own, finds the accessor of
    [Object.prototype] up the chain.  Above [null] there is nothing; an
    object with a data property [__proto__] of its own (as [JSON.parse]
    creates it) hides the accessor behind a writable data property; an
    array and every other object inherit the accessor. *)
Definition reaches_accessor (p : prototype) : bool :=
  match p with
  | Object_prototype => true
  | Prototype (VObj props) => negb (has_own props "__proto__")
  | Prototype (VArr _) => true
  | Prototype _ => false
  end.

Record map_object : Type := { chain : prototype; owned : obj }.

(** The object literal [{}]. *)
Definition empty_object : map_object :=
  {| chain := Object_prototype; owned := [] |}.

(** [m[k] = v] for any key.  An own property is overwritten in place.
    The key [__proto__] that is not own and reaches the accessor calls
    it: the prototype becomes [v] when [v] is an object or [null], it
    stays for another value, and no property is created either way.
    Every other assignment creates a data property, last in creation
    order: the properties of the values above (data made by
    [JSON.parse], and the methods of the built-in prototypes) are all
    writable data properties. *)
Definition put (m : map_object) (k : string) (v : value) : map_object :=
  if has_own (owned m) k then
    {| chain := chain m; owned := update (owned m) k v |}
  else if (k =? "__proto__") && reaches_accessor (chain m) then
    {| chain := if typeof_object v then Prototype v else chain m;
       owned := owned m |}
  else {| chain := chain m; owned := owned m ++ [(k, v)] |}.

(** [o[k]] for a key that is an own property, or that is not a property
    of [Object.prototype] (every property the program reads). *)
Definition get (o : obj) (k : string) : value :=
  match own o k with Some v => v | None => VUndefined end.

(** An array index is the canonical decimal form of an integer below
    [2^32 - 1]. *)
Definition array_index (k : string) : option N :=
  match NilZero.uint_of_string k with
  | Some u =>
      let n := N.of_uint u in
      if (NilZero.string_of_uint (N.to_uint n) =? k) && (n <? 4294967295)%N
      then Some n else None
  | None => None
  end.

Fixpoint insert_index (x : N * string) (l : list (N * string))
  : list (N * string) :=
  match l with
  | [] => [x]
  | y :: r => if (fst x <=? fst y)%N then x :: l else y :: insert_index x r
  end.

Definition sort_indices (l : list (N * string)) : list (N * string) :=
  fold_right insert_index [] l.

Fixpoint index_keys (ks : list string) : list (N * string) :=
  match ks with
  | [] => []
  | k :: r =>
      match array_index k with
      | Some n => (n, k) :: index_keys r
      | None => index_keys r
      end
  end.

Definition is_name (k : string) : bool :=
  match array_index k with Some _ => false | None => true end.

(** [Object.keys(o)]: the array indices in ascending order, then the
    other keys in creation order. *)
Definition keys (o : obj) : list string :=
  map snd (sort_indices (index_keys (map fst o)))
    ++ filter is_name (map fst o).

(** *** Conversion to string *)

Definition string_of_Z (n : Z) : string :=
  NilZero.string_of_int (Z.to_int n).

(** [ToString] (and so [ToPropertyKey]) on the values above.  A number
    is written in decimal with all its digits, as the language writes
    the integers of the model (up to [2^53] in magnitude; above that a
    double is written with its shortest digits, from [10^21] on with an
    exponent).  An array joins its elements with commas, [null] and
    [undefined] elements being empty.  An object whose own [toString] is
    data has no callable conversion ([Object.prototype.valueOf] returns
    the object itself), so the conversion throws; another object is
    ["[object Object]"]. *)
Fixpoint toString (v : value) : result string :=
  match v with
  | VUndefined => Ok "undefined"
  | VNull => Ok "null"
  | VBool true => Ok "true"
  | VBool false => Ok "false"
  | VNum n => Ok (string_of_Z n)
  | VStr s => Ok s
  | VArr elems =>
      (fix join (l : list value) : result string :=
         match l with
         | [] => Ok ""
         | x :: r =>
             sx <- match x with
                   | VUndefined | VNull => Ok ""
                   | _ => toString x
                   end ;;
             match r with
             | [] => Ok sx
             | _ :: _ => sr <- join r ;; Ok (sx ++ "," ++ sr)%string
             end
         end) elems
  | VObj props =>
      if has_own props "toString"
      then Throw (TypeError "Cannot convert object to primitive value")
      else Ok "[object Object]"
  end.

(** [Array.isArray]. *)
Definition isArray (v : value) : bool :=
  match v with VArr _ => true | _ => false end.

End JS.

(** ** [normalizeFiles] *)

(** [VersionFile]: [{ path, line? }].  [line = None] is an object without
    the field. *)
Record VersionFile : Type := { path : string; line : option value }.

(** The two shapes of the declared input type [(VersionFile | string)]. *)
Definition file_string (p : string) : value := VStr p.
Definition file_object (p : string) (l : option Z) : value :=
  VObj (("path", VStr p)
          :: match l with Some n => [("line", VNum n)] | None => [] end).

(** [v.k] for the property names the program reads ([path], [line],
    [scheme], [schemeDefinition], [versionFile], [files], [rules], [skip]):
    none of them is a property of an array, of a string or of a prototype,
    so only an object has one; reading a property of [null] or of
    [undefined] throws. *)
Definition member (v : value) (k : string) : result value :=
  match v with
  | VObj props => Ok (JS.get props k)
  | VNull =>
      Throw (TypeError ("Cannot read properties of null (reading '"
                          ++ k ++ "')"))
  | VUndefined =>
      Throw (TypeError ("Cannot read properties of undefined (reading '"
                          ++ k ++ "')"))
  | _ => Ok VUndefined
  end.

(** One turn of the loop of [normalizeFiles]: the key and the value of the
    assignment to [filez]. *)
Definition file_assignment (file : value) : result (string * value) :=
  if JS.typeof_object file then
    p <- member file "path" ;;
    l <- member file "line" ;;
    k <- JS.toString p ;;
    Ok (k, l)
  else
    k <- JS.toString file ;;
    Ok (k, VUndefined).

(** The loop of lines 214-219 on the map [filez]. *)
Fixpoint assign_files (filez : JS.map_object) (files : list value)
  : result JS.map_object :=
  match files with
  | [] => Ok filez
  | file :: rest =>
      a <- file_assignment file ;;
      assign_files (JS.put filez (fst a) (snd a)) rest
  end.

Definition entry (filez : obj) (cur : string) : VersionFile :=
  if JS.truthy (JS.get filez cur)
  then {| path := cur; line := Some (JS.get filez cur) |}
  else {| path := cur; line := None |}.

Definition normalizeFiles (files : list value) : result (list VersionFile) :=
  filez <- assign_files JS.empty_object files ;;
  Ok (fold_left (fun pre cur => pre ++ [entry (JS.owned filez) cur])
                (JS.keys (JS.owned filez)) []).

(** ** Effects: console output and calls of the scheme resolver *)

(** What a run leaves behind besides its result: the lines written to the
    console and to the action log, and one [Resolve] for every call of
    [getSchemeDefinition] made by a function of this file. *)
Inductive event : Type :=
| ConsoleError (message : string)
| ConsoleWarn (message : string)
| ConsoleInfo (message : string)
| ConsoleLogJSON (v : value)
| CoreInfo (message : string)
| CoreInfoState
| Resolve (options : value).

Definition M (A : Type) : Type := (list event * result A)%type.

Definition ret {A : Type} (a : A) : M A := ([], Ok a).
Definition throw {A : Type} (e : exn) : M A := ([], Throw e).
Definition lift {A : Type} (r : result A) : M A := ([], r).
Definition tell (e : event) : M unit := ([e], Ok tt).

Definition mbind {A B : Type} (m : M A) (k : A -> M B) : M B :=
  match m with
  | (l, Ok a) => let (l', r) := k a in (l ++ l', r)
  | (l, Throw e) => (l, Throw e)
  end.

(** [try { m } catch (e) { h e }]. *)
Definition try_catch {A : Type} (m : M A) (h : exn -> M A) : M A :=
  match m with
  | (l, Ok a) => (l, Ok a)
  | (l, Throw e) => let (l', r) := h e in (l ++ l', r)
  end.

Notation "x <~ m ;; k" := (mbind m (fun x => k))
  (at level 61, m at next level, right associativity).

Definition output {A : Type} (m : M A) : list event := fst m.
Definition outcome {A : Type} (m : M A) : result A := snd m.

Definition is_Resolve (e : event) : bool :=
  match e with Resolve _ => true | _ => false end.

(** The number of calls of the resolver in a piece of output. *)
Definition resolver_calls (l : list event) : nat :=
  List.length (filter is_Resolve l).

(** [e.message]. *)
Definition exn_message (e : exn) : string :=
  match e with Error m | TypeError m | SyntaxError m => m end.

(** ** The surroundings of a run *)

(** The action inputs, the file system, the process environment and the
    event context of GitHub, as the program reads them. *)
Record Env : Type := {
  getInput : string -> string;           (* [core.getInput], empty when unset *)
  existsSync : string -> bool;
  readFileSync : string -> result string;
  process_env : string -> option string;
  eventName : string;                    (* [github.context.eventName] *)
  payload_action : option string         (* [github.context.payload.action] *)
}.

Inductive RuleTrigger : Type :=
| commit
| pull_request
| pull_request_sync
| pull_request_other
| manual.

Definition trigger_name (t : RuleTrigger) : string :=
  match t with
  | commit => "commit"
  | pull_request => "pull-request"
  | pull_request_sync => "pull-request-sync"
  | pull_request_other => "pull-request-other"
  | manual => "manual"
  end.

(** [x || ''] for an environment variable or an optional string. *)
Definition or_empty (x : option string) : string :=
  match x with Some s => s | None => "" end.

(** [v.trim()]: only a string has the method. *)
Definition call_trim (v : value) : result string :=
  match v with
  | VStr s => Ok (JS.trim s)
  | VUndefined =>
      Throw (TypeError "Cannot read properties of undefined (reading 'trim')")
  | VNull =>
      Throw (TypeError "Cannot read properties of null (reading 'trim')")
  | _ => Throw (TypeError "trim is not a function")
  end.

(** [!v || v.trim() === ""]. *)
Definition missing_or_blank (v : value) : result bool :=
  if negb (JS.truthy v) then Ok true
  else t <- call_trim v ;; Ok (t =? "").

Definition is_custom (v : value) : bool :=
  match v with VStr s => s =? "custom" | _ => false end.

Fixpoint lookup {A : Type} (k : string) (l : list (string * A)) : option A :=
  match l with
  | [] => None
  | (k', a) :: r => if k' =? k then Some a else lookup k r
  end.

(** The index properties of an array, as an object has them. *)
Fixpoint indexed (i : N) (l : list value) : obj :=
  match l with
  | [] => []
  | x :: r => (NilZero.string_of_uint (N.to_uint i), x) :: indexed (N.succ i) r
  end.

(** [o.k = v] in strict mode (a module is strict code).  A primitive
    takes no property.  An array takes a named property like any object;
    it is kept from then on as the object of its index properties followed
    by the named ones, which is all the program looks at in an option
    object. *)
Definition set_member (o : value) (k : string) (v : value) : result value :=
  match o with
  | VObj props => Ok (VObj (JS.assign props k v))
  | VArr elems => Ok (VObj (JS.assign (indexed 0 elems) k v))
  | VUndefined =>
      Throw (TypeError ("Cannot set properties of undefined (setting '"
                          ++ k ++ "')"))
  | VNull =>
      Throw (TypeError ("Cannot set properties of null (setting '"
                          ++ k ++ "')"))
  | _ => Throw (TypeError ("Cannot create property '" ++ k ++ "'"))
  end.

(** [o.hasOwnProperty(k)] for a property name [k] that is not an array
    index or [length].  The method is inherited; an object that has a data
    property of that name has nothing to call. *)
Definition hasOwnProperty (o : value) (k : string) : result bool :=
  match o with
  | VObj props =>
      if JS.has_own props "hasOwnProperty"
      then Throw (TypeError "hasOwnProperty is not a function")
      else Ok (JS.has_own props k)
  | VUndefined =>
      Throw (TypeError
               "Cannot read properties of undefined (reading 'hasOwnProperty')")
  | VNull =>
      Throw (TypeError
               "Cannot read properties of null (reading 'hasOwnProperty')")
  | _ => Ok false
  end.

(** The values a [for ... of] loop or a spread in an array takes from
    [v]. *)
Definition iterate (v : value) : result (list value) :=
  match v with
  | VArr elems => Ok elems
  | VStr s => Ok (map (fun c => VStr (String c EmptyString))
                      (list_ascii_of_string s))
  | _ => Throw (TypeError "value is not iterable")
  end.

(** [{...v}]: the own enumerable properties, copied in key order. *)
Definition spread (v : value) : obj :=
  match v with
  | VObj props => map (fun k => (k, JS.get props k)) (JS.keys props)
  | VArr elems => indexed 0 elems
  | VStr s => indexed 0 (map (fun c => VStr (String c EmptyString))
                             (list_ascii_of_string s))
  | _ => []
  end.

Definition value_of_VersionFile (f : VersionFile) : value :=
  match line f with
  | Some l => VObj [("path", VStr (path f)); ("line", l)]
  | None => VObj [("path", VStr (path f))]
  end.

Definition nl : string := String (ascii_of_nat 10) EmptyString.

(** Truthiness of a string, and [s && s.trim() !== ""]. *)
Definition nonempty (s : string) : bool := negb (s =? "").
Definition nonblank (s : string) : bool :=
  nonempty s && negb (JS.trim s =? "").

(** ** The functions of [options.ts] *)

Section Options.

(** [schemes.json] is not among the sources: the table of the preset
    schemes, each name with its definition, is a parameter. *)
Variable definedSchemes : list (string * string).

(** [JSON.parse]. *)
Variable JSON_parse : string -> result value.

(** [definedSchemesNames.indexOf(v) !== -1]: the search is by strict
    equality, so only a string is found. *)
Definition indexOf_found (names : list string) (v : value) : bool :=
  match v with
  | VStr s => existsb (String.eqb s) names
  | _ => false
  end.

(** [definedSchemes[v]] for a string key. *)
Definition definedSchemes_get (v : value) : value :=
  match v with
  | VStr s =>
      match lookup s definedSchemes with
      | Some d => VStr d
      | None => VUndefined
      end
  | _ => VUndefined
  end.

Definition no_custom_definition : string :=
  "Custom scheme has no definition. Scheme Definition must be specified in options".

Definition getSchemeDefinition (options : value) : result value :=
  let definedSchemesNames := map fst definedSchemes in
  scheme <- member options "scheme" ;;
  if negb (is_custom scheme) && indexOf_found definedSchemesNames scheme
  then Ok (definedSchemes_get scheme)
  else if negb (is_custom scheme)
          && negb (indexOf_found definedSchemesNames scheme)
  then
    s <- JS.toString scheme ;;
    Throw (Error ("Scheme " ++ s ++ " is not defined."))
  else
    schemeDefinition <- member options "schemeDefinition" ;;
    third <- (if is_custom scheme then missing_or_blank schemeDefinition
              else Ok false) ;;
    if third then Throw (Error no_custom_definition)
    else
      fourth <- missing_or_blank schemeDefinition ;;
      if fourth then Throw (Error no_custom_definition)
      else Ok schemeDefinition.

(** A call of [getSchemeDefinition] from this file, with its trace. *)
Definition resolve (options : value) : M value :=
  _ <~ tell (Resolve options) ;;
  lift (getSchemeDefinition options).

(** The option object is changed in place; the changed object is the
    result here. *)
Definition normalizeOptions (options : value) : M value :=
  try_catch
    (d <~ resolve options ;;
     lift (set_member options "schemeDefinition" d))
    (fun e => _ <~ tell (ConsoleError (exn_message e)) ;; throw e).

Definition getBranchFromTrigger (env : Env) (trigger : RuleTrigger)
  : M string :=
  let branch :=
    match trigger with
    | pull_request => or_empty (process_env env "GITHUB_HEAD_REF")
    | _ =>
        or_empty (option_map (JS.substring (String.length "refs/heads/"))
                             (process_env env "GITHUB_REF"))
    end in
  _ <~ tell (CoreInfo ("Current Branch identified: " ++ branch)) ;;
  ret branch.

Definition getDestBranchFromTrigger (env : Env) (trigger : RuleTrigger)
  : M string :=
  let branch :=
    match trigger with
    | pull_request => or_empty (process_env env "GITHUB_BASE_REF")
    | _ =>
        or_empty (option_map (JS.substring (String.length "refs/heads/"))
                             (process_env env "GITHUB_REF"))
    end in
  _ <~ tell (CoreInfo ("Current Dest Branch identified: " ++ branch)) ;;
  ret branch.

(** *** [getBumperOptions] *)

(** The two locals the function updates as it goes. *)
Record locals : Type := { bumperOptions : value; error : string }.

Definition err (message : string) (s : locals) : M locals :=
  _ <~ tell (ConsoleError message) ;;
  ret {| bumperOptions := bumperOptions s;
         error := error s ++ message ++ nl |}.

(** [bumperOptions.k = v]. *)
Definition store (k : string) (v : value) (s : locals) : M locals :=
  o <~ lift (set_member (bumperOptions s) k v) ;;
  ret {| bumperOptions := o; error := error s |}.

(** [!o.hasOwnProperty(k) || !o.k || o.k.trim() === ""]. *)
Definition undefined_or_blank (o : value) (k : string) : result bool :=
  h <- hasOwnProperty o k ;;
  if negb h then Ok true
  else v <- member o k ;; missing_or_blank v.

(** [!o.hasOwnProperty(k) || !o.k || !Array.isArray(o.k)]. *)
Definition undefined_or_no_array (o : value) (k : string) : result bool :=
  h <- hasOwnProperty o k ;;
  if negb h then Ok true
  else v <- member o k ;; Ok (negb (JS.truthy v) || negb (JS.isArray v)).

(** Lines 108-117: the options file. *)
Definition read_options_file (env : Env) : M value :=
  let optionsFile := getInput env "options-file" in
  if nonempty optionsFile && negb (existsSync env optionsFile) then
    _ <~ tell (ConsoleWarn ("Options file with path " ++ optionsFile
                              ++ " does not exist")) ;;
    ret (VObj [])
  else if nonempty optionsFile && existsSync env optionsFile then
    try_catch
      (text <~ lift (readFileSync env optionsFile) ;;
       lift (JSON_parse text))
      (fun e =>
         _ <~ tell (ConsoleWarn
                      ("Error reading or parsing bumper options file with path "
                         ++ optionsFile ++ nl ++ exn_toString e)) ;;
         ret (VObj []))
  else ret (VObj []).

(** Lines 119-124. *)
Definition check_scheme (env : Env) (s : locals) : M locals :=
  let scheme := getInput env "scheme" in
  if nonempty scheme then store "scheme" (VStr scheme) s
  else
    b <~ lift (undefined_or_blank (bumperOptions s) "scheme") ;;
    if b
    then err "Scheme is not defined in option file or workflow input." s
    else ret s.

(** Lines 126-129. *)
Definition check_customScheme (env : Env) (s : locals) : M locals :=
  let customScheme := getInput env "custom-scheme" in
  if nonblank customScheme then
    s1 <~ store "scheme" (VStr "custom") s ;;
    store "schemeDefinition" (VStr customScheme) s1
  else ret s.

(** Lines 130-134. *)
Definition resolve_scheme (s : locals) : M locals :=
  try_catch
    (d <~ resolve (bumperOptions s) ;; store "schemeDefinition" d s)
    (fun e => err (exn_toString e) s).

Definition first_file (fs : list VersionFile) : value :=
  match fs with
  | f :: _ => value_of_VersionFile f
  | [] => VUndefined
  end.

(** Lines 136-149. *)
Definition check_versionFile (env : Env) (s : locals) : M locals :=
  let versionFile := getInput env "version-file" in
  if nonblank versionFile then
    try_catch
      (v <~ lift (JSON_parse versionFile) ;; store "versionFile" v s)
      (fun _ => store "versionFile" (VObj [("path", VStr versionFile)]) s)
  else
    b <~ lift (undefined_or_blank (bumperOptions s) "versionFile") ;;
    if b
    then err "Version file is not defined in option file or workflow input." s
    else
      v <~ lift (member (bumperOptions s) "versionFile") ;;
      fs <~ lift (normalizeFiles [v]) ;;
      store "versionFile" (first_file fs) s.

(** [bumperOptions.files =
       normalizeFiles([bumperOptions.versionFile, ...array])]. *)
Definition store_files (array : result value) (s : locals) : M locals :=
  v <~ lift (member (bumperOptions s) "versionFile") ;;
  a <~ lift array ;;
  elems <~ lift (iterate a) ;;
  fs <~ lift (normalizeFiles (v :: elems)) ;;
  store "files" (VArr (map value_of_VersionFile fs)) s.

(** Lines 151-164. *)
Definition check_files (env : Env) (s : locals) : M locals :=
  let files := getInput env "files" in
  if nonblank files then
    try_catch
      (filesArray <~ lift (JSON_parse files) ;;
       if negb (JS.isArray filesArray)
       then err "Files should be in array stringified JSON format" s
       else store_files (Ok filesArray) s)
      (fun _ => err "Files not in JSON format" s)
  else
    b <~ lift (undefined_or_no_array (bumperOptions s) "files") ;;
    if b
    then err "Files are not defined in option file or workflow input." s
    else store_files (member (bumperOptions s) "files") s.

(** Lines 166-179. *)
Definition check_rules (env : Env) (s : locals) : M locals :=
  let rules := getInput env "rules" in
  if nonblank rules then
    try_catch
      (rulesArray <~ lift (JSON_parse rules) ;;
       if negb (JS.isArray rulesArray)
       then err "Rules should be in array stringified JSON format" s
       else store "rules" rulesArray s)
      (fun _ => err "Rules not in JSON format" s)
  else
    b <~ lift (undefined_or_no_array (bumperOptions s) "rules") ;;
    if b
    then err "Rules are not defined in option file or workflow input." s
    else ret s.

(** Lines 181-183: [if (x) bumperOptions.k = x]. *)
Definition store_input (env : Env) (k : string) (s : locals) : M locals :=
  let x := getInput env k in
  if nonempty x then store k (VStr x) s else ret s.

Definition getBumperOptions (env : Env) : M value :=
  o <~ read_options_file env ;;
  s <~ check_scheme env {| bumperOptions := o; error := "" |} ;;
  s <~ check_customScheme env s ;;
  s <~ resolve_scheme s ;;
  s <~ check_versionFile env s ;;
  s <~ check_files env s ;;
  s <~ check_rules env s ;;
  s <~ store_input env "skip" s ;;
  s <~ store_input env "username" s ;;
  s <~ store_input env "email" s ;;
  if negb (error s =? "") then throw (Error (error s))
  else
    _ <~ tell (ConsoleLogJSON (bumperOptions s)) ;;
    ret (bumperOptions s).

(** *** The small accessors *)

Definition getFiles (options : value) : result (list VersionFile) :=
  files <- member options "files" ;;
  l <- iterate files ;;
  normalizeFiles l.

(** [options.skip || false]. *)
Definition getSkipOption (options : value) : result value :=
  skip <- member options "skip" ;;
  Ok (if JS.truthy skip then skip else VBool false).

Definition opt_eqb (x : option string) (s : string) : bool :=
  match x with Some a => a =? s | None => false end.

Definition getTrigger (env : Env) : M RuleTrigger :=
  let payload_action := payload_action env in
  _ <~ tell (ConsoleInfo
               ("Trigger -> " ++ eventName env ++ " - "
                  ++ match payload_action with
                     | Some a => a
                     | None => "undefined"
                     end)) ;;
  if eventName env =? "push" then ret commit
  else if eventName env =? "pull_request" then
    if opt_eqb payload_action "opened" then ret pull_request
    else if opt_eqb payload_action "synchronize" then ret pull_request_sync
    else ret pull_request_other
  else if eventName env =? "workflow_dispatch" then ret manual
  else
    _ <~ tell (ConsoleWarn
                 "Event trigger not of type: commit, pull request or manual.") ;;
    throw (Error "Invalid trigger event").

(** *** [getBumperState] *)

(** The functions of [./utils] are not among the sources: they are
    parameters, each a function of its arguments that returns or throws.
    Their own output and calls are not part of the trace. *)
Variable RegExp : Type.
Variable getSchemeRegex : value -> result RegExp.
Variable getCurVersion : value -> result string.
Variable getTag : value -> RuleTrigger -> string -> string -> result bool.
Variable bumpVersion :
  value -> RuleTrigger -> string -> string -> result string.

Record BumperState : Type := {
  curVersion : string;
  newVersion : string;
  skip : value;
  schemeRegExp : RegExp;
  schemeDefinition : value;
  tag : bool;
  trigger : RuleTrigger;
  branch : string;
  destBranch : string;
  files : list VersionFile;
  curAppVersion : string
}.

(** [{...options, versionFile: {path: options.versionFile.path}}]. *)
Definition path_only (options : value) : result value :=
  let copy := spread options in
  versionFile <- member options "versionFile" ;;
  p <- member versionFile "path" ;;
  Ok (VObj (JS.assign copy "versionFile" (VObj [("path", p)]))).

Definition getBumperState (env : Env) (options : value) : M BumperState :=
  trigger <~ getTrigger env ;;
  branch <~ getBranchFromTrigger env trigger ;;
  destBranch <~ getDestBranchFromTrigger env trigger ;;
  skip <~ lift (getSkipOption options) ;;
  schemeRegExp <~ lift (getSchemeRegex options) ;;
  schemeDefinition <~ resolve options ;;
  curVersion <~ lift (getCurVersion options) ;;
  unpinned <~ lift (path_only options) ;;
  curAppVersion <~ lift (getCurVersion unpinned) ;;
  tag <~ lift (getTag options trigger branch destBranch) ;;
  newVersion <~ lift (bumpVersion options trigger branch destBranch) ;;
  files <~ lift (getFiles options) ;;
  _ <~ tell CoreInfoState ;;
  ret {| curVersion := curVersion;
         newVersion := newVersion;
         skip := skip;
         schemeRegExp := schemeRegExp;
         schemeDefinition := schemeDefinition;
         tag := tag;
         trigger := trigger;
         branch := branch;
         destBranch := destBranch;
         files := files;
         curAppVersion := curAppVersion |}.

End Options.

(** ** Sample surroundings, for the examples *)

Definition sample_process_env (name : string) : option string :=
  if name =? "GITHUB_REF" then Some "refs/heads/release/1.x"
  else if name =? "GITHUB_HEAD_REF" then Some "feature/login"
  else if name =? "GITHUB_BASE_REF" then Some "main"
  else None.

Definition sample_env (event : string) (action : option string)
           (input : string -> string) (file : string -> option string) : Env :=
  {| getInput := input;
     existsSync := fun p => match file p with Some _ => true | None => false end;
     readFileSync := fun p =>
       match file p with
       | Some text => Ok text
       | None => Throw (Error ("ENOENT: no such file or directory, open '"
                                 ++ p ++ "'"))
       end;
     process_env := sample_process_env;
     eventName := event;
     payload_action := action |}.

Definition no_input (name : string) : string := "".
Definition no_file (p : string) : option string := None.

(** A table of preset schemes. *)
Definition sample_schemes : list (string * string) :=
  [("semantic", "major.minor[.build]"); ("org_semantic", "major.minor.build")].

Definition dq : string := String (ascii_of_nat 34) EmptyString.
Definition quoted (s : string) : string := (dq ++ s ++ dq)%string.

(** The text [{"scheme":"semantic","versionFile":"VERSION",
    "files":["README.md"],"rules":[]}]. *)
Definition options_text : string :=
  ("{" ++ quoted "scheme" ++ ":" ++ quoted "semantic" ++ ","
       ++ quoted "versionFile" ++ ":" ++ quoted "VERSION" ++ ","
       ++ quoted "files" ++ ":[" ++ quoted "README.md" ++ "],"
       ++ quoted "rules" ++ ":[]}")%string.

(** The text [{"versionFile":{"path":"VERSION"}}]. *)
Definition versionFile_object_text : string :=
  ("{" ++ quoted "versionFile" ++ ":{" ++ quoted "path" ++ ":"
       ++ quoted "VERSION" ++ "}}")%string.

(** [JSON.parse] on the texts of the examples, which hand it the content
    of the options file and nothing else. *)
Definition sample_parse (text : string) : result value :=
  if text =? options_text then
    Ok (VObj [("scheme", VStr "semantic");
              ("versionFile", VStr "VERSION");
              ("files", VArr [VStr "README.md"]);
              ("rules", VArr [])])
  else if text =? versionFile_object_text then
    Ok (VObj [("versionFile", VObj [("path", VStr "VERSION")])])
  else if text =? "{}" then Ok (VObj [])
  else Throw (SyntaxError "Unexpected token in JSON").

(** Stand-ins for the functions of [./utils] in the examples: the pattern
    is the definition itself, no rule matches, so the version is not
    bumped and no tag is asked for. *)
Definition sample_getSchemeRegex (options : value) : result string :=
  d <- member options "schemeDefinition" ;; JS.toString d.

(** Modelled from the spec: [getCurVersion] of [./utils] is not among the
    sources.  The reader "if [file.line] is set, extract only that line's
    text, otherwise use the full content", on a version file whose second
    line holds [1.0.0] and whose first match in the full content is
    [2.3.9]. *)
Definition sample_getCurVersion (options : value) : result string :=
  versionFile <- member options "versionFile" ;;
  l <- member versionFile "line" ;;
  match l with
  | VNum 2 => Ok "1.0.0"
  | _ => Ok "2.3.9"
  end.

Definition sample_getTag (options : value) (trigger : RuleTrigger)
           (branch destBranch : string) : result bool :=
  Ok false.

Definition sample_bumpVersion (options : value) (trigger : RuleTrigger)
           (branch destBranch : string) : result string :=
  sample_getCurVersion options.

(** Option objects as [getBumperOptions] leaves them. *)
Definition sample_options (versionFile : value) (more : obj) : value :=
  VObj ([("scheme", VStr "semantic");
         ("versionFile", versionFile);
         ("files", VArr [versionFile; VObj [("path", VStr "README.md")]]);
         ("rules", VArr []);
         ("schemeDefinition", VStr "major.minor[.build]")] ++ more).

Definition options_file (content : string) (p : string) : option string :=
  if p =? "bumper.json" then Some content else None.

Definition inputs (skip : string) (name : string) : string :=
  if name =? "options-file" then "bumper.json"
  else if name =? "skip" then skip
  else "".

(** ** Gathering of the error messages *)

(** A computation that returns, or throws a [TypeError]. *)
Definition TypeError_only {A : Type} (r : result A) : Prop :=
  match r with
  | Ok _ => True
  | Throw (TypeError _) => True
  | Throw _ => False
  end.

(** The text that [err] adds to [error] for the console errors of a piece
    of output. *)
Definition error_line (e : event) : string :=
  match e with
  | ConsoleError message => (message ++ nl)%string
  | _ => ""
  end.

Fixpoint errors_of (l : list event) : string :=
  match l with
  | [] => ""
  | e :: r => (error_line e ++ errors_of r)%string
  end.

(** A step of [getBumperOptions] from the locals [s]: it returns with
    [error] longer by the messages it has written, or it throws a
    [TypeError]. *)
Definition gathers (s : locals) (m : M locals) : Prop :=
  match m with
  | (l, Ok s') => error s' = (error s ++ errors_of l)%string
  | (_, Throw (TypeError _)) => True
  | (_, Throw _) => False
  end.

(** What a body under [try] may do: gather messages, or throw anything
    with no message written. *)
Definition tries (s : locals) (m : M locals) : Prop :=
  match m with
  | (l, Ok s') => error s' = (error s ++ errors_of l)%string
  | (l, Throw _) => errors_of l = ""
  end.

(** The end of [getBumperOptions] from the locals [s]: the options are
    returned, or one [Error] is thrown whose message is [error] with the
    messages written since, or a [TypeError] cuts the run short. *)
Definition reports (s : locals) (m : M value) : Prop :=
  match m with
  | (_, Ok _) => True
  | (l, Throw (Error message)) =>
      message = (error s ++ errors_of l)%string /\ message <> ""
  | (_, Throw (TypeError _)) => True
  | (_, Throw (SyntaxError _)) => False
  end.

(** ** Shapes of input, for the properties *)

(** An element of the declared input type of [normalizeFiles]: a string,
    or a [VersionFile] with an integer line or none. *)
Definition typed_file (v : value) : Prop :=
  (exists p, v = file_string p) \/ (exists p l, v = file_object p l).

(** The surroundings [env] without the [options-file] input. *)
Definition without_options_file (env : Env) : Env :=
  {| getInput := fun name =>
       if name =? "options-file" then "" else getInput env name;
     existsSync := existsSync env;
     readFileSync := readFileSync env;
     process_env := process_env env;
     eventName := eventName env;
     payload_action := payload_action env |}.

(** Workflow inputs that name no options file and hold a custom scheme
    only. *)
Definition custom_scheme_input (name : string) : string :=
  if name =? "custom-scheme" then "major.minor" else "".

(** The order of the array indices among the keys, and what ties an
    index to its key. *)
Definition index_le (x y : N * string) : Prop := (fst x <= fst y)%N.

Definition index_ok (p : N * string) : Prop :=
  JS.array_index (snd p) = Some (fst p).

(** The array that lines 151-164 take the given files from: the files
    input when it is not blank, the files of the options file (of [{}]
    when there is none) otherwise. *)
Definition given_files (JSON_parse : string -> result value) (env : Env)
  : result value :=
  if nonblank (getInput env "files") then JSON_parse (getInput env "files")
  else
    file_options <- outcome (read_options_file JSON_parse env) ;;
    member file_options "files".

(** The keys and the entries other than those of [__proto__]. *)
Definition other_key (k : string) : bool := negb (k =? "__proto__").

Definition other_path (e : VersionFile) : bool := other_key (path e).

(** The line that an entry of the output of [normalizeFiles] carries for
    the key [k] of the map, as a value. *)
Definition kept_line (filez : obj) (k : string) : value :=
  if JS.truthy (JS.get filez k) then JS.get filez k else VUndefined.

(** The surroundings [env] with [GITHUB_REF] set to [ref]. *)
Definition with_ref (ref : string) (env : Env) : Env :=
  {| getInput := getInput env;
     existsSync := existsSync env;
     readFileSync := readFileSync env;
     process_env := fun name =>
       if name =? "GITHUB_REF" then Some ref else process_env env name;
     eventName := eventName env;
     payload_action := payload_action env |}.

(** The value that a run has returned, [undefined] when it has thrown. *)
Definition outcome_value (m : M value) : value :=
  match outcome m with Ok v => v | Throw _ => VUndefined end.

(** The text [{"scheme":"semantic","versionFile":"VERSION",
    "files":["README.md"],"rules":[],"username":"bot"}], and [JSON.parse]
    on it. *)
Definition named_options_text : string :=
  ("{" ++ quoted "scheme" ++ ":" ++ quoted "semantic" ++ ","
       ++ quoted "versionFile" ++ ":" ++ quoted "VERSION" ++ ","
       ++ quoted "files" ++ ":[" ++ quoted "README.md" ++ "],"
       ++ quoted "rules" ++ ":[],"
       ++ quoted "username" ++ ":" ++ quoted "bot" ++ "}")%string.

Definition named_parse (text : string) : result value :=
  if text =? named_options_text then
    Ok (VObj [("scheme", VStr "semantic");
              ("versionFile", VStr "VERSION");
              ("files", VArr [VStr "README.md"]);
              ("rules", VArr []);
              ("username", VStr "bot")])
  else Throw (SyntaxError "Unexpected token in JSON").

(** Workflow inputs that name the options file and hold a custom scheme
    besides. *)
Definition custom_over_file (name : string) : string :=
  if name =? "options-file" then "bumper.json"
  else if name =? "custom-scheme" then "major.minor" else "".

(** The state that the sample surroundings assemble on a push from the
    sample options with the version file [VERSION]. *)
Definition sample_state : BumperState string :=
  {| curVersion := "2.3.9"; newVersion := "2.3.9";
     skip := VBool false;
     schemeRegExp := "major.minor[.build]";
     schemeDefinition := VStr "major.minor[.build]";
     tag := false; trigger := commit;
     branch := "release/1.x"; destBranch := "release/1.x";
     files := [{| path := "VERSION"; line := None |};
               {| path := "README.md"; line := None |}];
     curAppVersion := "2.3.9" |}.

(** What a step of [getBumperOptions] leaves of the property [k] of an
    option object: the object stays an object and [k] reads as before. *)
Definition same_member (k : string) (s s' : locals) : Prop :=
  forall p, bumperOptions s = VObj p ->
            exists p', bumperOptions s' = VObj p' /\ JS.own p' k = JS.own p k.

Definition keeps (k : string) (s : locals) (m : M locals) : Prop :=
  match m with
  | (_, Ok s') => same_member k s s'
  | (_, Throw _) => True
  end.

(** A run of [getBumperOptions] that returns [o] with the output [log],
    step by step: every step has returned, none has written a message
    with [err], and [error] has stayed empty. *)
Inductive returning_run (definedSchemes : list (string * string))
          (JSON_parse : string -> result value) (env : Env)
          (log : list event) (o : value) : Prop :=
| Returning_run
    (file_options : value)
    (s1 s2 s3 s4 s5 s6 s7 s8 s9 : locals)
    (l0 l1 l2 l3 l4 l5 l6 l7 l8 l9 : list event)
    (run_file : read_options_file JSON_parse env = (l0, Ok file_options))
    (run_scheme :
       check_scheme env {| bumperOptions := file_options; error := "" |}
       = (l1, Ok s1))
    (run_custom : check_customScheme env s1 = (l2, Ok s2))
    (run_resolve : resolve_scheme definedSchemes s2 = (l3, Ok s3))
    (run_versionFile : check_versionFile JSON_parse env s3 = (l4, Ok s4))
    (run_files : check_files JSON_parse env s4 = (l5, Ok s5))
    (run_rules : check_rules JSON_parse env s5 = (l6, Ok s6))
    (run_skip : store_input env "skip" s6 = (l7, Ok s7))
    (run_username : store_input env "username" s7 = (l8, Ok s8))
    (run_email : store_input env "email" s8 = (l9, Ok s9))
    (run_result : o = bumperOptions s9)
    (quiet : errors_of l0 = "" /\ errors_of l1 = "" /\ errors_of l2 = ""
             /\ errors_of l3 = "" /\ errors_of l4 = "" /\ errors_of l5 = ""
             /\ errors_of l6 = "" /\ errors_of l7 = "" /\ errors_of l8 = ""
             /\ errors_of l9 = "")
    (clean : error s1 = "" /\ error s2 = "" /\ error s3 = ""
             /\ error s4 = "" /\ error s5 = "" /\ error s6 = "")
    (run_log : log = l0 ++ l1 ++ l2 ++ l3 ++ l4 ++ l5 ++ l6 ++ l7 ++ l8
                        ++ l9 ++ [ConsoleLogJSON o]).

(** * Properties *)

(** ** The result monad *)

Lemma bind_Ok_inv {A B : Type} (m : result A) (k : A -> result B) (b : B) :
  bind m k = Ok b -> exists a, m = Ok a /\ k a = Ok b.
Proof.
  destruct m as [a | e]; simpl; intros H.
  - exists a; split; [reflexivity | exact H].
  - discriminate H.
Qed.

Ltac bind_inv H :=
  let a := fresh "a" in
  let Ha := fresh "Ha" in
  apply bind_Ok_inv in H; destruct H as [a [Ha H]].

(** ** Plain objects *)

Module ObjFacts.
Import JS.

Lemma own_In (o : obj) (k : string) :
  has_own o k = true <-> In k (map fst o).
Proof.
  unfold has_own. induction o as [| [k' v] r IH]; simpl.
  - split; [discriminate | tauto].
  - destruct (String.eqb_spec k' k) as [-> | Hne].
    + split; auto.
    + rewrite IH. split; [auto | intros [H | H]; [contradiction | exact H]].
Qed.

Lemma update_keys (o : obj) (k : string) (v : value) :
  map fst (update o k v) = map fst o.
Proof.
  induction o as [| [k' v'] r IH]; simpl; [reflexivity |].
  destruct (k' =? k); simpl; [reflexivity | now rewrite IH].
Qed.

Lemma own_update_same (o : obj) (k : string) (v : value) :
  has_own o k = true -> own (update o k v) k = Some v.
Proof.
  unfold has_own. induction o as [| [k' v'] r IH]; simpl; [discriminate |].
  destruct (String.eqb_spec k' k) as [-> | Hne]; simpl.
  - now rewrite String.eqb_refl.
  - intros H. destruct (String.eqb_spec k' k); [contradiction | auto].
Qed.

Lemma own_update_other (o : obj) (k k' : string) (v : value) :
  k' <> k -> own (update o k v) k' = own o k'.
Proof.
  intros Hne. induction o as [| [k0 v0] r IH]; simpl; [reflexivity |].
  destruct (String.eqb_spec k0 k) as [-> | H0]; simpl.
  - destruct (String.eqb_spec k k'); [congruence | reflexivity].
  - now rewrite IH.
Qed.

Lemma own_app (o1 o2 : obj) (k : string) :
  own (o1 ++ o2) k =
  match own o1 k with Some v => Some v | None => own o2 k end.
Proof.
  induction o1 as [| [k' v'] r IH]; simpl; [reflexivity |].
  destruct (k' =? k); [reflexivity | exact IH].
Qed.

(** An assignment is read back, unless it was the one to [__proto__] that
    creates nothing. *)
Lemma own_assign_same (o : obj) (k : string) (v : value) :
  own (assign o k v) k =
  if has_own o k || negb (k =? "__proto__") then Some v else None.
Proof.
  unfold assign. destruct (has_own o k) eqn:Hk; simpl.
  - now apply own_update_same.
  - unfold has_own in Hk. destruct (k =? "__proto__"); simpl.
    + destruct (own o k); [discriminate | reflexivity].
    + rewrite own_app. destruct (own o k); [discriminate |].
      simpl. now rewrite String.eqb_refl.
Qed.

Lemma own_assign_other (o : obj) (k k' : string) (v : value) :
  k' <> k -> own (assign o k v) k' = own o k'.
Proof.
  intros Hne. unfold assign. destruct (has_own o k).
  - now apply own_update_other.
  - destruct (k =? "__proto__"); [reflexivity |].
    rewrite own_app. destruct (own o k'); [reflexivity |].
    simpl. destruct (String.eqb_spec k k'); [congruence | reflexivity].
Qed.

Lemma has_own_assign_mono (o : obj) (k k' : string) (v : value) :
  has_own o k' = true -> has_own (assign o k v) k' = true.
Proof.
  intros H. destruct (String.eqb_spec k' k) as [-> | Hne].
  - unfold has_own at 1. rewrite own_assign_same, H. reflexivity.
  - unfold has_own. rewrite own_assign_other by exact Hne. exact H.
Qed.

Lemma assign_NoDup (o : obj) (k : string) (v : value) :
  NoDup (map fst o) -> NoDup (map fst (assign o k v)).
Proof.
  intros Hnd. unfold assign. destruct (has_own o k) eqn:Hk.
  - now rewrite update_keys.
  - destruct (k =? "__proto__"); [exact Hnd |].
    rewrite map_app. simpl.
    apply NoDup_app; [exact Hnd | repeat constructor; simpl; tauto |].
    intros x Hx [<- | []].
    apply own_In in Hx. congruence.
Qed.

(** *** Assignments to a map *)

(** On an object below [Object.prototype] the two assignments leave the
    same own properties. *)
Lemma put_assign (o : obj) (k : string) (v : value) :
  owned (put {| chain := Object_prototype; owned := o |} k v) = assign o k v.
Proof.
  unfold put, assign. simpl. destruct (has_own o k); [reflexivity |].
  rewrite andb_true_r. destruct (k =? "__proto__"); reflexivity.
Qed.

(** An assignment is read back, unless it was the one to [__proto__]
    that went to the accessor. *)
Lemma own_put_same (m : map_object) (k : string) (v : value) :
  own (owned (put m k v)) k =
  if has_own (owned m) k
     || negb ((k =? "__proto__") && reaches_accessor (chain m))
  then Some v else None.
Proof.
  unfold put. destruct (has_own (owned m) k) eqn:Hk; simpl.
  - now apply own_update_same.
  - unfold has_own in Hk.
    destruct ((k =? "__proto__") && reaches_accessor (chain m)); simpl.
    + destruct (own (owned m) k); [discriminate | reflexivity].
    + rewrite own_app. destruct (own (owned m) k); [discriminate |].
      simpl. now rewrite String.eqb_refl.
Qed.

Lemma own_put_other (m : map_object) (k k' : string) (v : value) :
  k' <> k -> own (owned (put m k v)) k' = own (owned m) k'.
Proof.
  intros Hne. unfold put. destruct (has_own (owned m) k); simpl.
  - now apply own_update_other.
  - destruct ((k =? "__proto__") && reaches_accessor (chain m)); simpl;
      [reflexivity |].
    rewrite own_app. destruct (own (owned m) k'); [reflexivity |].
    simpl. destruct (String.eqb_spec k k'); [congruence | reflexivity].
Qed.

Lemma has_own_put_mono (m : map_object) (k k' : string) (v : value) :
  has_own (owned m) k' = true -> has_own (owned (put m k v)) k' = true.
Proof.
  intros H. destruct (String.eqb_spec k' k) as [-> | Hne].
  - unfold has_own at 1. rewrite own_put_same, H. reflexivity.
  - unfold has_own. rewrite own_put_other by exact Hne. exact H.
Qed.

Lemma put_NoDup (m : map_object) (k : string) (v : value) :
  NoDup (map fst (owned m)) -> NoDup (map fst (owned (put m k v))).
Proof.
  intros Hnd. unfold put. destruct (has_own (owned m) k) eqn:Hk; simpl.
  - now rewrite update_keys.
  - destruct ((k =? "__proto__") && reaches_accessor (chain m)); simpl;
      [exact Hnd |].
    rewrite map_app. simpl.
    apply NoDup_app; [exact Hnd | repeat constructor; simpl; tauto |].
    intros x Hx [<- | []].
    apply own_In in Hx. congruence.
Qed.

(** Only an assignment to [__proto__] changes the prototype. *)
Lemma chain_put_other (m : map_object) (k : string) (v : value) :
  k <> "__proto__" -> chain (put m k v) = chain m.
Proof.
  intros Hne. apply String.eqb_neq in Hne. unfold put.
  destruct (has_own (owned m) k); [reflexivity |].
  rewrite Hne. reflexivity.
Qed.

(** *** The order of [Object.keys] rearranges the keys and no more *)

Lemma insert_index_perm (x : N * string) (l : list (N * string)) :
  Permutation (insert_index x l) (x :: l).
Proof.
  induction l as [| y r IH]; simpl; [reflexivity |].
  destruct (fst x <=? fst y)%N; [reflexivity |].
  rewrite IH. apply perm_swap.
Qed.

Lemma sort_indices_perm (l : list (N * string)) :
  Permutation (sort_indices l) l.
Proof.
  induction l as [| x r IH]; simpl; [reflexivity |].
  rewrite insert_index_perm. now constructor.
Qed.

Lemma keys_perm_aux (ks : list string) :
  Permutation (map snd (index_keys ks) ++ filter is_name ks) ks.
Proof.
  induction ks as [| k r IH]; simpl; [reflexivity |].
  unfold is_name at 1. destruct (array_index k); simpl.
  - now constructor.
  - symmetry. apply Permutation_cons_app. now symmetry.
Qed.

Lemma keys_perm (o : obj) : Permutation (keys o) (map fst o).
Proof.
  unfold keys. rewrite <- (keys_perm_aux (map fst o)) at 3.
  apply Permutation_app_tail, Permutation_map, sort_indices_perm.
Qed.

Lemma keys_In (o : obj) (k : string) :
  In k (keys o) <-> has_own o k = true.
Proof.
  rewrite own_In. split; apply Permutation_in;
    [apply keys_perm | symmetry; apply keys_perm].
Qed.

Lemma keys_NoDup (o : obj) : NoDup (map fst o) -> NoDup (keys o).
Proof.
  apply Permutation_NoDup. symmetry. apply keys_perm.
Qed.

End ObjFacts.

(** ** [normalizeFiles] *)

Section NormalizeFiles.
Import JS ObjFacts.

Lemma reduce_entries (filez : obj) (ks : list string) (pre : list VersionFile) :
  fold_left (fun pre cur => pre ++ [entry filez cur]) ks pre
  = pre ++ map (entry filez) ks.
Proof.
  revert pre. induction ks as [| k r IH]; intros pre; simpl.
  - now rewrite app_nil_r.
  - rewrite IH, <- app_assoc. reflexivity.
Qed.

Lemma path_entry (filez : obj) (k : string) : path (entry filez k) = k.
Proof. unfold entry. destruct (truthy (get filez k)); reflexivity. Qed.

(** The result is one entry per key of the map the loop has built. *)
Lemma normalizeFiles_Ok (files : list value) (out : list VersionFile) :
  normalizeFiles files = Ok out ->
  exists filez,
    assign_files empty_object files = Ok filez
    /\ NoDup (map fst (owned filez))
    /\ out = map (entry (owned filez)) (keys (owned filez)).
Proof.
  unfold normalizeFiles. intros H. bind_inv H.
  exists a. split; [exact Ha | split].
  - clear H. assert (Hnd : NoDup (map fst (owned empty_object)))
      by constructor.
    revert Ha Hnd. generalize empty_object as o.
    induction files as [| f r IH]; simpl; intros o Ha Hnd.
    + now inversion Ha; subst.
    + bind_inv Ha. eapply IH; [exact Ha |]. now apply put_NoDup.
  - rewrite reduce_entries in H. simpl in H. now inversion H.
Qed.

Lemma assign_files_app (o : map_object) (l1 l2 : list value) :
  assign_files o (l1 ++ l2)
  = (o1 <- assign_files o l1 ;; assign_files o1 l2).
Proof.
  revert o. induction l1 as [| f r IH]; intros o; simpl; [reflexivity |].
  destruct (file_assignment f) as [a | e]; simpl; [apply IH | reflexivity].
Qed.

(** A key that no later turn assigns keeps its value. *)
Lemma assign_files_keep (o o' : map_object) (l : list value) (k : string) :
  assign_files o l = Ok o' ->
  (forall f a, In f l -> file_assignment f = Ok a -> fst a <> k) ->
  own (owned o') k = own (owned o) k.
Proof.
  revert o. induction l as [| f r IH]; simpl; intros o H Hk.
  - now inversion H.
  - bind_inv H. rewrite (IH _ H) by (intros; eapply Hk; eauto).
    apply own_put_other. intros ->. eapply Hk; eauto.
Qed.

(** A key that was assigned stays. *)
Lemma assign_files_has (o o' : map_object) (l : list value) (k : string) :
  assign_files o l = Ok o' ->
  has_own (owned o) k = true \/
  (k <> "__proto__" /\
   exists f a, In f l /\ file_assignment f = Ok a /\ fst a = k) ->
  has_own (owned o') k = true.
Proof.
  revert o. induction l as [| f r IH]; simpl; intros o H Hk.
  - inversion H; subst. destruct Hk as [Hk | [_ [f [a [[] _]]]]]. exact Hk.
  - bind_inv H. apply (IH _ H).
    destruct Hk as [Hk | [Hp [f' [a' [[<- | Hin] [Hf <-]]]]]].
    + left. now apply has_own_put_mono.
    + left. rewrite Ha in Hf. inversion Hf; subst a'.
      unfold has_own. rewrite own_put_same.
      apply String.eqb_neq in Hp. rewrite Hp, orb_true_r. reflexivity.
    + right. split; [exact Hp |]. exists f', a'. auto.
Qed.

Lemma file_assignment_string (p : string) :
  file_assignment (file_string p) = Ok (p, VUndefined).
Proof. reflexivity. Qed.

Lemma file_assignment_object (p : string) (l : option Z) :
  file_assignment (file_object p l)
  = Ok (p, match l with Some n => VNum n | None => VUndefined end).
Proof.
  unfold file_assignment, file_object, member, get. simpl.
  destruct l; reflexivity.
Qed.

(** X1: the output of normalizeFiles has no path twice, whatever the
    input. *)
Lemma normalizeFiles_NoDup (files : list value) (out : list VersionFile) :
  normalizeFiles files = Ok out -> NoDup (map path out).
Proof.
  intros H. apply normalizeFiles_Ok in H.
  destruct H as [filez [_ [Hnd ->]]].
  rewrite map_map.
  rewrite (map_ext _ (fun k => k) (path_entry (owned filez))).
  rewrite map_id. now apply keys_NoDup.
Qed.

(** X2: every path of the input other than [__proto__] has its entry in
    the output of normalizeFiles. *)
Lemma normalizeFiles_complete (files : list value) (out : list VersionFile)
      (f : value) (k : string) (v : value) :
  normalizeFiles files = Ok out ->
  In f files -> file_assignment f = Ok (k, v) -> k <> "__proto__" ->
  In k (map path out).
Proof.
  intros H Hin Hf Hk. apply normalizeFiles_Ok in H.
  destruct H as [filez [Hfz [_ ->]]].
  rewrite map_map.
  rewrite (map_ext _ (fun k => k) (path_entry (owned filez))).
  rewrite map_id. apply keys_In.
  apply (assign_files_has _ _ Hfz). right. split; [exact Hk |].
  exists f, (k, v). auto.
Qed.

Example normalizeFiles_spec_example :
  normalizeFiles [file_object "a" (Some 5%Z); file_string "a";
                  file_object "a" (Some 10%Z)]
  = Ok [{| path := "a"; line := Some (VNum 10) |}].
Proof. reflexivity. Qed.

Example normalizeFiles_index_keys_first :
  normalizeFiles [file_string "b"; file_object "10" (Some 3%Z);
                  file_string "2"; file_string "01"]
  = Ok [{| path := "2"; line := None |};
        {| path := "10"; line := Some (VNum 3) |};
        {| path := "b"; line := None |};
        {| path := "01"; line := None |}].
Proof. vm_compute. reflexivity. Qed.

(** Where the path [__proto__] does get an entry: after a line [null]
    has taken the prototype away, or a line that is an object with a
    [__proto__] of its own has hidden the accessor, the next assignment
    to [__proto__] creates the property.  A line that is another object
    changes the prototype and leaves the accessor in reach. *)
Example normalizeFiles_proto_after_null :
  normalizeFiles [VObj [("path", VStr "__proto__"); ("line", VNull)];
                  file_string "__proto__"]
  = Ok [{| path := "__proto__"; line := None |}].
Proof. reflexivity. Qed.

Example normalizeFiles_proto_after_object :
  normalizeFiles [VObj [("path", VStr "__proto__");
                        ("line", VObj [("__proto__", VNum 1)])];
                  file_object "__proto__" (Some 7%Z)]
  = Ok [{| path := "__proto__"; line := Some (VNum 7) |}]
  /\ normalizeFiles [VObj [("path", VStr "__proto__");
                           ("line", VObj [("a", VNum 1)])];
                     file_object "__proto__" (Some 7%Z); file_string "a"]
     = Ok [{| path := "a"; line := None |}].
Proof. split; reflexivity. Qed.

(** C9: every entry of the output of normalizeFiles has no line or a
    truthy one; a falsy line is dropped, and so [{path:"a", line:0}]
    becomes [{path:"a"}]. *)
Theorem normalizeFiles_line_truthy_or_absent :
  (forall files out e,
      normalizeFiles files = Ok out -> In e out ->
      line e = None \/ exists v, line e = Some v /\ truthy v = true)
  /\ normalizeFiles [file_object "a" (Some 0%Z)]
     = Ok [{| path := "a"; line := None |}].
Proof.
  split; [| reflexivity].
  intros files out e H He. apply normalizeFiles_Ok in H.
  destruct H as [filez [_ [_ ->]]].
  apply in_map_iff in He. destruct He as [k [<- _]].
  unfold entry. destruct (truthy (get (owned filez) k)) eqn:Ht; simpl.
  - right. eauto.
  - now left.
Qed.

(** C1, as the code has it: the last occurrence of a path decides, with
    the line it carries or with none.  When the last element that names a
    path carries no line (a plain string, or an object without a truthy
    line), the entry of that path in the output has no line, whatever line
    an earlier element gave it. *)
Theorem normalizeFiles_last_occurrence_wins
        (before after : list value) (f : value) (p : string) (v : value)
        (out : list VersionFile) (e : VersionFile) :
  normalizeFiles (before ++ f :: after) = Ok out ->
  file_assignment f = Ok (p, v) ->
  (forall f' a, In f' after -> file_assignment f' = Ok a -> fst a <> p) ->
  In e out -> path e = p ->
  line e = if truthy v then Some v else None.
Proof.
  intros H Hf Hafter He Hp. apply normalizeFiles_Ok in H.
  destruct H as [filez [Hfz [_ ->]]].
  apply in_map_iff in He. destruct He as [k [<- Hk]].
  rewrite path_entry in Hp. subst k.
  rewrite assign_files_app in Hfz. bind_inv Hfz.
  simpl in Hfz. rewrite Hf in Hfz. simpl in Hfz.
  pose proof (@assign_files_keep _ _ _ p Hfz Hafter) as Hown.
  rewrite own_put_same in Hown.
  apply keys_In in Hk. unfold has_own in Hk. rewrite Hown in Hk.
  destruct (has_own (owned a) p
            || negb ((p =? "__proto__") && reaches_accessor (chain a)));
    [| discriminate Hk].
  unfold entry, get. rewrite Hown.
  destruct (truthy v); reflexivity.
Qed.

End NormalizeFiles.

(** C1, the claim as written fails: a path that comes first with line 5
    and then as a plain string ends without a line. *)
Lemma normalizeFiles_explicit_line_overwritten :
  normalizeFiles [file_object "a" (Some 5%Z); file_string "a"]
  = Ok [{| path := "a"; line := None |}]
  /\ ~ (exists out e,
          normalizeFiles [file_object "a" (Some 5%Z); file_string "a"] = Ok out
          /\ In e out /\ path e = "a" /\ line e = Some (VNum 5)).
Proof.
  split; [reflexivity |].
  intros [out [e [H [He [_ Hl]]]]].
  vm_compute in H. inversion H; subst out.
  destruct He as [<- | []]. discriminate Hl.
Qed.

Lemma normalizeFiles_last_occurrence_wins_witness :
  normalizeFiles ([file_object "a" (Some 5%Z)]
                    ++ file_string "a" :: [file_object "b" (Some 7%Z)])
  = Ok [{| path := "a"; line := None |};
        {| path := "b"; line := Some (VNum 7) |}]
  /\ forall e,
      In e [{| path := "a"; line := None |};
            {| path := "b"; line := Some (VNum 7) |}] ->
      path e = "a" -> line e = None.
Proof.
  split; [reflexivity |]. intros e.
  apply (@normalizeFiles_last_occurrence_wins
           [file_object "a" (Some 5%Z)] [file_object "b" (Some 7%Z)]
           (file_string "a") "a" VUndefined).
  - reflexivity.
  - reflexivity.
  - intros f a [<- | []] Hf. vm_compute in Hf.
    inversion Hf; subst a. simpl. discriminate.
Defined.

Lemma normalizeFiles_line_truthy_or_absent_witness :
  In {| path := "a"; line := Some (VNum 5) |}
     [{| path := "a"; line := Some (VNum 5) |}]
  /\ (line {| path := "a"; line := Some (VNum 5) |} = None
      \/ exists v, line {| path := "a"; line := Some (VNum 5) |} = Some v
                   /\ JS.truthy v = true).
Proof.
  split; [now left |].
  apply (proj1 normalizeFiles_line_truthy_or_absent
               [file_string "a"; file_object "a" (Some 5%Z)]
               [{| path := "a"; line := Some (VNum 5) |}]).
  - reflexivity.
  - now left.
Defined.

(** C8, at the path [__proto__]: the assignment to that key of the map
    creates no property, so the path is missing from the output, alone or
    among others, with a line or without. *)
Theorem normalizeFiles_proto_path_dropped :
  normalizeFiles [file_string "__proto__"] = Ok []
  /\ normalizeFiles [file_object "__proto__" (Some 3%Z)] = Ok []
  /\ normalizeFiles [file_string "package.json"; file_string "__proto__"]
     = Ok [{| path := "package.json"; line := None |}]
  /\ ~ (exists out,
          normalizeFiles [file_string "__proto__"] = Ok out
          /\ count_occ string_dec (map path out) "__proto__" = 1%nat).
Proof.
  repeat split; try reflexivity.
  intros [out [H Hc]]. vm_compute in H. inversion H; subst out.
  discriminate Hc.
Qed.

(** ** [getSchemeDefinition] *)

Section SchemeDefinition.
Variable definedSchemes : list (string * string).

Lemma missing_or_blank_blank (d : value) :
  d = VUndefined \/ (exists s, d = VStr s /\ JS.trim s = "") ->
  missing_or_blank d = Ok true.
Proof.
  intros [-> | [s [-> Hs]]]; [reflexivity |].
  unfold missing_or_blank. simpl.
  destruct (s =? ""); simpl; [reflexivity |].
  rewrite Hs. reflexivity.
Qed.

(** C3: with scheme "custom", a definition that is missing or blank after
    trimming makes getSchemeDefinition throw, and the error is the same
    in both cases, the empty string and the missing definition
    included. *)
Theorem getSchemeDefinition_custom_without_definition :
  (forall options d,
      member options "scheme" = Ok (VStr "custom") ->
      member options "schemeDefinition" = Ok d ->
      d = VUndefined \/ (exists s, d = VStr s /\ JS.trim s = "") ->
      getSchemeDefinition definedSchemes options
      = Throw (Error no_custom_definition))
  /\ getSchemeDefinition definedSchemes
       (VObj [("scheme", VStr "custom"); ("schemeDefinition", VStr "")])
     = getSchemeDefinition definedSchemes (VObj [("scheme", VStr "custom")]).
Proof.
  assert (Hgen : forall options d,
             member options "scheme" = Ok (VStr "custom") ->
             member options "schemeDefinition" = Ok d ->
             d = VUndefined \/ (exists s, d = VStr s /\ JS.trim s = "") ->
             getSchemeDefinition definedSchemes options
             = Throw (Error no_custom_definition)).
  { intros options d Hs Hd Hblank. unfold getSchemeDefinition.
    rewrite Hs. simpl. rewrite Hd. simpl.
    rewrite (missing_or_blank_blank Hblank). reflexivity. }
  split; [exact Hgen |].
  rewrite (Hgen _ (VStr "")), (Hgen _ VUndefined); try reflexivity.
  - now left.
  - right. exists "". split; reflexivity.
Qed.

End SchemeDefinition.

Lemma getSchemeDefinition_custom_without_definition_witness :
  getSchemeDefinition [("semantic", "major.minor.build")]
    (VObj [("scheme", VStr "custom"); ("schemeDefinition", VStr "  ")])
  = Throw (Error no_custom_definition).
Proof.
  apply (proj1 (getSchemeDefinition_custom_without_definition
                  [("semantic", "major.minor.build")])
               _ (VStr "  ")).
  - reflexivity.
  - reflexivity.
  - right. exists "  ". split; reflexivity.
Defined.

(** ** Trigger and branches *)

Lemma outcome_tell_bind {A : Type} (e : event) (m : M A) :
  outcome (_ <~ tell e ;; m) = outcome m.
Proof. unfold mbind, tell, outcome. destruct m as [l r]. reflexivity. Qed.

(** C5: getTrigger maps "push" to commit; "pull_request" to pull-request
    for the action "opened", to pull-request-sync for "synchronize" and to
    pull-request-other for any other action; "workflow_dispatch" to manual;
    for every other event name it throws the invalid-trigger error. *)
Theorem getTrigger_classification (env : Env) :
  (eventName env = "push" -> outcome (getTrigger env) = Ok commit)
  /\ (eventName env = "pull_request" ->
      outcome (getTrigger env)
      = Ok (match payload_action env with
            | Some a => if a =? "opened" then pull_request
                        else if a =? "synchronize" then pull_request_sync
                        else pull_request_other
            | None => pull_request_other
            end))
  /\ (eventName env = "workflow_dispatch" ->
      outcome (getTrigger env) = Ok manual)
  /\ (eventName env <> "push" -> eventName env <> "pull_request" ->
      eventName env <> "workflow_dispatch" ->
      outcome (getTrigger env) = Throw (Error "Invalid trigger event")).
Proof.
  unfold getTrigger. rewrite outcome_tell_bind.
  repeat split.
  - intros ->. reflexivity.
  - intros ->. simpl. unfold opt_eqb. destruct (payload_action env) as [a |].
    + destruct (a =? "opened"); [reflexivity |].
      destruct (a =? "synchronize"); reflexivity.
    + reflexivity.
  - intros ->. reflexivity.
  - intros H1 H2 H3.
    apply String.eqb_neq in H1, H2, H3. rewrite H1, H2, H3. reflexivity.
Qed.

Lemma getTrigger_classification_witness :
  outcome (getTrigger (sample_env "pull_request" (Some "synchronize")
                                  no_input no_file))
  = Ok pull_request_sync
  /\ outcome (getTrigger (sample_env "release" (Some "published")
                                     no_input no_file))
     = Throw (Error "Invalid trigger event").
Proof.
  split.
  - apply (proj1 (proj2 (getTrigger_classification
                           (sample_env "pull_request" (Some "synchronize")
                                       no_input no_file)))).
    reflexivity.
  - apply (proj2 (proj2 (proj2 (getTrigger_classification
                           (sample_env "release" (Some "published")
                                       no_input no_file)))));
      simpl; discriminate.
Defined.

Lemma substring_prefix (p b : string) :
  JS.substring (String.length p) (p ++ b) = b.
Proof. induction p as [| c p IH]; simpl; [reflexivity | exact IH]. Qed.

(** C7: for the pull-request trigger the branch is the head ref and the
    destination branch is the base ref; for every other trigger both are
    the same string, taken from the one ref, and are that ref without its
    refs/heads/ prefix. *)
Theorem branches_from_trigger (env : Env) (trigger : RuleTrigger) :
  (trigger = pull_request ->
   outcome (getBranchFromTrigger env trigger)
   = Ok (or_empty (process_env env "GITHUB_HEAD_REF"))
   /\ outcome (getDestBranchFromTrigger env trigger)
      = Ok (or_empty (process_env env "GITHUB_BASE_REF")))
  /\ (trigger <> pull_request ->
      outcome (getBranchFromTrigger env trigger)
      = outcome (getDestBranchFromTrigger env trigger)
      /\ (forall b,
             process_env env "GITHUB_REF" = Some ("refs/heads/" ++ b)%string ->
             outcome (getBranchFromTrigger env trigger) = Ok b
             /\ outcome (getDestBranchFromTrigger env trigger) = Ok b)
      /\ (process_env env "GITHUB_REF" = None ->
          outcome (getBranchFromTrigger env trigger) = Ok "")).
Proof.
  unfold getBranchFromTrigger, getDestBranchFromTrigger.
  rewrite !outcome_tell_bind. split.
  - intros ->. split; reflexivity.
  - intros Hne. destruct trigger; try congruence;
      (split; [reflexivity | split; [intros b Hb | intros Hb]];
       rewrite Hb; cbv [option_map or_empty];
       [rewrite (substring_prefix "refs/heads/" b); split; reflexivity
       | reflexivity]).
Qed.

Lemma branches_from_trigger_witness :
  outcome (getBranchFromTrigger (sample_env "push" None no_input no_file)
                                commit)
  = Ok "release/1.x"
  /\ outcome (getDestBranchFromTrigger (sample_env "push" None no_input no_file)
                                       commit)
     = Ok "release/1.x"
  /\ outcome (getBranchFromTrigger
                (sample_env "pull_request" (Some "opened") no_input no_file)
                pull_request)
     = Ok "feature/login"
  /\ outcome (getDestBranchFromTrigger
                (sample_env "pull_request" (Some "opened") no_input no_file)
                pull_request)
     = Ok "main".
Proof.
  split; [| split].
  - apply (proj1 (proj2 (proj2 (branches_from_trigger
             (sample_env "push" None no_input no_file) commit)
             ltac:(discriminate))) "release/1.x").
    reflexivity.
  - apply (proj1 (proj2 (proj2 (branches_from_trigger
             (sample_env "push" None no_input no_file) commit)
             ltac:(discriminate))) "release/1.x").
    reflexivity.
  - apply (proj1 (branches_from_trigger
             (sample_env "pull_request" (Some "opened") no_input no_file)
             pull_request)).
    reflexivity.
Defined.

(** ** The trace monad *)

Lemma mbind_Ok_inv {A B : Type} (m : M A) (k : A -> M B)
      (l : list event) (b : B) :
  mbind m k = (l, Ok b) ->
  exists l1 a l2, m = (l1, Ok a) /\ k a = (l2, Ok b) /\ l = l1 ++ l2.
Proof.
  destruct m as [l1 [a | e]]; simpl; [| discriminate].
  destruct (k a) as [l2 r] eqn:Hk. intros H. inversion H; subst.
  exists l1, a, l2. auto.
Qed.

Lemma lift_Ok_inv {A : Type} (r : result A) (l : list event) (a : A) :
  lift r = (l, Ok a) -> r = Ok a /\ l = [].
Proof. unfold lift. intros H. inversion H. auto. Qed.

Lemma resolver_calls_app (l1 l2 : list event) :
  resolver_calls (l1 ++ l2) = (resolver_calls l1 + resolver_calls l2)%nat.
Proof. unfold resolver_calls. now rewrite filter_app, length_app. Qed.

(** Takes a chain of binds that returned apart, one step per hypothesis. *)
Ltac m_inv H :=
  repeat
    (match type of H with
     | mbind _ _ = (_, Ok _) =>
         let l1 := fresh "l" in
         let a := fresh "a" in
         let l2 := fresh "l" in
         let Hs := fresh "Hstep" in
         let Hl := fresh "Hlog" in
         apply mbind_Ok_inv in H;
         destruct H as [l1 [a [l2 [Hs [H Hl]]]]];
         try (apply lift_Ok_inv in Hs; destruct Hs as [Hs ?])
     end).

Lemma getTrigger_silent (env : Env) :
  resolver_calls (output (getTrigger env)) = 0%nat.
Proof.
  unfold getTrigger.
  destruct (eventName env =? "push"); [reflexivity |].
  destruct (eventName env =? "pull_request").
  - destruct (opt_eqb (payload_action env) "opened"); [reflexivity |].
    destruct (opt_eqb (payload_action env) "synchronize"); reflexivity.
  - destruct (eventName env =? "workflow_dispatch"); reflexivity.
Qed.

(** ** [getBumperState], step by step *)

Section StateAssembly.
Variable definedSchemes : list (string * string).
Variable RegExp : Type.
Variable getSchemeRegex : value -> result RegExp.
Variable getCurVersion : value -> result string.
Variable getTag : value -> RuleTrigger -> string -> string -> result bool.
Variable bumpVersion :
  value -> RuleTrigger -> string -> string -> result string.

Let assemble :=
  getBumperState definedSchemes getSchemeRegex getCurVersion getTag bumpVersion.

(** What a state that was returned tells about the steps that built it. *)
Lemma getBumperState_Ok (env : Env) (options : value)
      (log : list event) (s : BumperState RegExp) :
  assemble env options = (log, Ok s) ->
  exists lt unpinned,
    getTrigger env = (lt, Ok (trigger s))
    /\ getSkipOption options = Ok (skip s)
    /\ getSchemeRegex options = Ok (schemeRegExp s)
    /\ getSchemeDefinition definedSchemes options = Ok (schemeDefinition s)
    /\ getCurVersion options = Ok (curVersion s)
    /\ path_only options = Ok unpinned
    /\ getCurVersion unpinned = Ok (curAppVersion s)
    /\ getTag options (trigger s) (branch s) (destBranch s) = Ok (tag s)
    /\ bumpVersion options (trigger s) (branch s) (destBranch s)
       = Ok (newVersion s)
    /\ getFiles options = Ok (files s)
    /\ log = lt ++ [CoreInfo ("Current Branch identified: " ++ branch s);
                    CoreInfo ("Current Dest Branch identified: "
                                ++ destBranch s);
                    Resolve options; CoreInfoState].
Proof.
  unfold assemble, getBumperState. intros H. m_inv H.
  unfold getBranchFromTrigger in Hstep0.
  unfold getDestBranchFromTrigger in Hstep1.
  unfold resolve in Hstep4.
  cbn [mbind tell ret lift app] in Hstep0, Hstep1, Hstep4, Hstep11, H.
  inversion Hstep0; inversion Hstep1; inversion Hstep4; inversion Hstep11;
    inversion H.
  subst. simpl.
  exists l, a6. repeat split; assumption.
Qed.

End StateAssembly.

(** ** The scheme is resolved again by [getBumperState] *)

Section Resolution.
Variable definedSchemes : list (string * string).

Lemma normalizeOptions_Ok (options o1 : value) (log : list event) :
  normalizeOptions definedSchemes options = (log, Ok o1) ->
  log = [Resolve options]
  /\ exists d, getSchemeDefinition definedSchemes options = Ok d
               /\ set_member options "schemeDefinition" d = Ok o1.
Proof.
  unfold normalizeOptions, resolve, try_catch, mbind, tell, lift, throw.
  destruct (getSchemeDefinition definedSchemes options) as [d | e];
    [| discriminate].
  destruct (set_member options "schemeDefinition" d) as [o' | e] eqn:Hset;
    [| discriminate].
  intros H. inversion H; subst. split; [reflexivity |].
  exists d. auto.
Qed.

(** A definition that was resolved and stored is what resolving the
    stored options gives again. *)
Lemma getSchemeDefinition_stored (options o1 d : value) :
  getSchemeDefinition definedSchemes options = Ok d ->
  set_member options "schemeDefinition" d = Ok o1 ->
  getSchemeDefinition definedSchemes o1 = Ok d
  /\ member o1 "schemeDefinition" = Ok d.
Proof.
  intros Hd Hset.
  destruct options as [| | b | n | s | elems | props];
    try (unfold getSchemeDefinition in Hd; simpl in Hd; discriminate Hd).
  simpl in Hset. inversion Hset; subst o1. clear Hset.
    assert (Hsd : JS.get (JS.assign props "schemeDefinition" d)
                         "schemeDefinition" = d).
    { unfold JS.get. rewrite ObjFacts.own_assign_same.
      simpl. now rewrite orb_true_r. }
    assert (Hs : JS.get (JS.assign props "schemeDefinition" d) "scheme"
                 = JS.get props "scheme").
    { unfold JS.get. rewrite ObjFacts.own_assign_other by discriminate.
      reflexivity. }
  split; [| simpl; now rewrite Hsd].
  revert Hd. unfold getSchemeDefinition. simpl member. simpl bind.
    rewrite Hs, Hsd.
    destruct (negb (is_custom (JS.get props "scheme"))
              && indexOf_found (map fst definedSchemes) (JS.get props "scheme"));
      [auto |].
    destruct (negb (is_custom (JS.get props "scheme"))
              && negb (indexOf_found (map fst definedSchemes)
                                     (JS.get props "scheme"))).
    + destruct (JS.toString (JS.get props "scheme")); discriminate.
    + destruct (is_custom (JS.get props "scheme")).
      * destruct (missing_or_blank (JS.get props "schemeDefinition"))
          as [[|] | e] eqn:Hm; simpl; try discriminate.
        intros H. injection H as Heq. rewrite <- Heq.
        rewrite Hm. reflexivity.
      * simpl.
        destruct (missing_or_blank (JS.get props "schemeDefinition"))
          as [[|] | e] eqn:Hm; simpl; try discriminate.
        intros H. injection H as Heq. rewrite <- Heq.
        rewrite Hm. reflexivity.
Qed.

End Resolution.

(** C2, as the code has it: normalizeOptions calls the resolver once and
    stores the definition in the options; getBumperState does not read the
    stored definition but calls the resolver once more, on those options,
    and the call returns the stored definition, which becomes the
    schemeDefinition of the state. *)
Theorem getBumperState_resolves_stored_scheme
        (definedSchemes : list (string * string)) (RegExp : Type)
        (getSchemeRegex : value -> result RegExp)
        (getCurVersion : value -> result string)
        (getTag : value -> RuleTrigger -> string -> string -> result bool)
        (bumpVersion : value -> RuleTrigger -> string -> string -> result string)
        (env : Env) (options o1 : value) (log1 log2 : list event)
        (s : BumperState RegExp) :
  normalizeOptions definedSchemes options = (log1, Ok o1) ->
  getBumperState definedSchemes getSchemeRegex getCurVersion getTag
                 bumpVersion env o1 = (log2, Ok s) ->
  resolver_calls log1 = 1%nat
  /\ resolver_calls log2 = 1%nat
  /\ In (Resolve o1) log2
  /\ member o1 "schemeDefinition" = Ok (schemeDefinition s).
Proof.
  intros Hn Hs.
  apply normalizeOptions_Ok in Hn. destruct Hn as [-> [d [Hd Hset]]].
  destruct (@getSchemeDefinition_stored _ _ _ _ Hd Hset) as [Hagain Hstored].
  apply getBumperState_Ok in Hs.
  destruct Hs as [lt [u [Ht [_ [_ [Hdef [_ [_ [_ [_ [_ [_ ->]]]]]]]]]]]].
  rewrite Hagain in Hdef. inversion Hdef; subst d.
  split; [reflexivity | split; [| split; [| exact Hstored]]].
  - rewrite resolver_calls_app.
    pose proof (getTrigger_silent env) as Hsilent.
    rewrite Ht in Hsilent. simpl in Hsilent. rewrite Hsilent. reflexivity.
  - apply in_or_app. right. simpl. auto.
Qed.

(** C2, the claim as written fails: in the run of normalizeOptions
    followed by getBumperState the resolver is called twice, the second
    time by getBumperState, after normalizeOptions has returned. *)
Lemma getBumperState_calls_resolver_again :
  exists o1 log1 s log2,
    normalizeOptions sample_schemes
      (sample_options (VObj [("path", VStr "VERSION")]) [])
    = (log1, Ok o1)
    /\ getBumperState sample_schemes sample_getSchemeRegex
         sample_getCurVersion sample_getTag sample_bumpVersion
         (sample_env "push" None no_input no_file) o1
       = (log2, Ok s)
    /\ In (Resolve o1) log2
    /\ resolver_calls log2 <> 0%nat
    /\ resolver_calls (log1 ++ log2) = 2%nat.
Proof.
  do 4 eexists.
  split; [vm_compute; reflexivity |].
  split; [vm_compute; reflexivity |].
  split; [simpl; tauto |].
  split; [vm_compute; discriminate | vm_compute; reflexivity].
Qed.

Lemma getBumperState_resolves_stored_scheme_witness :
  resolver_calls
    [Resolve (sample_options (VObj [("path", VStr "VERSION")]) [])] = 1%nat
  /\ resolver_calls
       (output (getBumperState sample_schemes sample_getSchemeRegex
                  sample_getCurVersion sample_getTag sample_bumpVersion
                  (sample_env "push" None no_input no_file)
                  (sample_options (VObj [("path", VStr "VERSION")]) [])))
     = 1%nat
  /\ In (Resolve (sample_options (VObj [("path", VStr "VERSION")]) []))
        (output (getBumperState sample_schemes sample_getSchemeRegex
                   sample_getCurVersion sample_getTag sample_bumpVersion
                   (sample_env "push" None no_input no_file)
                   (sample_options (VObj [("path", VStr "VERSION")]) [])))
  /\ member (sample_options (VObj [("path", VStr "VERSION")]) [])
            "schemeDefinition"
     = Ok (VStr "major.minor[.build]").
Proof.
  apply (@getBumperState_resolves_stored_scheme
           sample_schemes string sample_getSchemeRegex sample_getCurVersion
           sample_getTag sample_bumpVersion
           (sample_env "push" None no_input no_file)
           (sample_options (VObj [("path", VStr "VERSION")]) [])
           (sample_options (VObj [("path", VStr "VERSION")]) [])
           [Resolve (sample_options (VObj [("path", VStr "VERSION")]) [])]
           _
           {| curVersion := "2.3.9"; newVersion := "2.3.9";
              skip := VBool false;
              schemeRegExp := "major.minor[.build]";
              schemeDefinition := VStr "major.minor[.build]";
              tag := false; trigger := commit;
              branch := "release/1.x"; destBranch := "release/1.x";
              files := [{| path := "VERSION"; line := None |};
                        {| path := "README.md"; line := None |}];
              curAppVersion := "2.3.9" |}).
  - vm_compute. reflexivity.
  - vm_compute. reflexivity.
Defined.

(** ** The two reads of the current version *)

Section Unpinned.
Import JS ObjFacts.

Lemma assign_keys_indep (o : obj) (k : string) (v1 v2 : value) :
  map fst (assign o k v1) = map fst (assign o k v2).
Proof.
  unfold assign. destruct (has_own o k).
  - now rewrite !update_keys.
  - destruct (k =? "__proto__"); [reflexivity |].
    now rewrite !map_app.
Qed.

Lemma own_tabulate (f : string -> value) (ks : list string) (k : string) :
  has_own (map (fun x => (x, f x)) ks) k = true <-> In k ks.
Proof.
  rewrite own_In, map_map. simpl. now rewrite map_id.
Qed.

Lemma update_tabulate (f1 f2 : string -> value) (ks : list string)
      (k : string) (x : value) :
  NoDup ks ->
  (forall k', k' <> k -> f1 k' = f2 k') ->
  update (map (fun y => (y, f1 y)) ks) k x
  = update (map (fun y => (y, f2 y)) ks) k x.
Proof.
  intros Hnd Hagree. induction Hnd as [| k0 r Hnotin Hnd IH]; simpl;
    [reflexivity |].
  destruct (String.eqb_spec k0 k) as [-> | Hne].
  - f_equal. apply map_ext_in. intros y Hy. f_equal.
    apply Hagree. intros ->. contradiction.
  - rewrite IH, (Hagree k0 Hne). reflexivity.
Qed.

Lemma assign_tabulate (f1 f2 : string -> value) (ks : list string)
      (k : string) (x : value) :
  NoDup ks ->
  (forall k', k' <> k -> f1 k' = f2 k') ->
  assign (map (fun y => (y, f1 y)) ks) k x
  = assign (map (fun y => (y, f2 y)) ks) k x.
Proof.
  intros Hnd Hagree. unfold assign.
  destruct (has_own (map (fun y => (y, f1 y)) ks) k) eqn:H1.
  - assert (H2 : has_own (map (fun y => (y, f2 y)) ks) k = true)
      by (apply own_tabulate; now apply own_tabulate in H1).
    rewrite H2. now apply update_tabulate.
  - assert (Hnotin : ~ In k ks).
    { intros Hin. apply (own_tabulate f1) in Hin. congruence. }
    assert (H2 : has_own (map (fun y => (y, f2 y)) ks) k = false).
    { destruct (has_own (map (fun y => (y, f2 y)) ks) k) eqn:H2;
        [| reflexivity].
      apply own_tabulate in H2. contradiction. }
    rewrite H2.
    assert (Hmap : map (fun y => (y, f1 y)) ks = map (fun y => (y, f2 y)) ks).
    { apply map_ext_in. intros y Hy. f_equal. apply Hagree.
      intros ->. contradiction. }
    now rewrite Hmap.
Qed.

(** The object of the second read is the same whatever the version file
    of the options holds besides its path. *)
Lemma path_only_line_independent (props vf1 vf2 : obj) :
  NoDup (map fst props) ->
  get vf1 "path" = get vf2 "path" ->
  path_only (VObj (assign props "versionFile" (VObj vf1)))
  = path_only (VObj (assign props "versionFile" (VObj vf2))).
Proof.
  intros Hnd Hpath. unfold path_only. simpl member.
  assert (Hget : forall vf,
             get (assign props "versionFile" (VObj vf)) "versionFile"
             = VObj vf).
  { intros vf. unfold get. rewrite own_assign_same. simpl.
    now rewrite orb_true_r. }
  rewrite !Hget. simpl. rewrite Hpath. do 2 f_equal.
  unfold keys. rewrite (assign_keys_indep props "versionFile" (VObj vf1) (VObj vf2)).
  apply assign_tabulate.
  - apply keys_NoDup. now apply assign_NoDup.
  - intros k' Hk'. unfold get. now rewrite !own_assign_other.
Qed.

Lemma path_only_Ok (options unpinned : value) :
  path_only options = Ok unpinned ->
  exists p,
    (versionFile <- member options "versionFile" ;; member versionFile "path")
    = Ok p
    /\ member unpinned "versionFile" = Ok (VObj [("path", p)]).
Proof.
  unfold path_only. intros H.
  destruct (member options "versionFile") as [vf | e]; [| discriminate].
  simpl in *. destruct (member vf "path") as [p | e]; [| discriminate].
  simpl in H. inversion H; subst. exists p. split; [reflexivity |].
  simpl. unfold get. rewrite own_assign_same. simpl.
  now rewrite orb_true_r.
Qed.

End Unpinned.

(** C6: a state that was assembled holds two reads of the current version:
    curVersion is read with the options as they are, version file and line
    included; curAppVersion is read with a copy of the options whose
    version file is the path alone.  That copy is the same for every line
    the version file may carry, and the two versions read can differ. *)
Theorem current_version_read_twice :
  (forall (definedSchemes : list (string * string)) (RegExp : Type)
          (getSchemeRegex : value -> result RegExp)
          (getCurVersion : value -> result string)
          (getTag : value -> RuleTrigger -> string -> string -> result bool)
          (bumpVersion :
             value -> RuleTrigger -> string -> string -> result string)
          (env : Env) (options : value) (log : list event)
          (s : BumperState RegExp),
      getBumperState definedSchemes getSchemeRegex getCurVersion getTag
                     bumpVersion env options = (log, Ok s) ->
      exists p unpinned,
        (versionFile <- member options "versionFile" ;;
         member versionFile "path") = Ok p
        /\ path_only options = Ok unpinned
        /\ member unpinned "versionFile" = Ok (VObj [("path", p)])
        /\ getCurVersion options = Ok (curVersion s)
        /\ getCurVersion unpinned = Ok (curAppVersion s))
  /\ (forall props vf1 vf2 : obj,
         NoDup (map fst props) ->
         JS.get vf1 "path" = JS.get vf2 "path" ->
         path_only (VObj (JS.assign props "versionFile" (VObj vf1)))
         = path_only (VObj (JS.assign props "versionFile" (VObj vf2))))
  /\ (exists env options log s,
         getBumperState sample_schemes sample_getSchemeRegex
                        sample_getCurVersion sample_getTag sample_bumpVersion
                        env options = (log, Ok s)
         /\ curVersion s <> curAppVersion s).
Proof.
  split; [| split].
  - intros ds RegExp gsr gcv gt bv env options log s H.
    apply getBumperState_Ok in H.
    destruct H as [lt [u [_ [_ [_ [_ [Hcur [Hu [Happ _]]]]]]]]].
    destruct (path_only_Ok _ Hu) as [p [Hp Hvf]].
    exists p, u. auto.
  - exact path_only_line_independent.
  - exists (sample_env "push" None no_input no_file),
      (sample_options (VObj [("path", VStr "VERSION"); ("line", VNum 2)]) []).
    do 2 eexists. split; [vm_compute; reflexivity |].
    simpl. discriminate.
Qed.

Lemma current_version_read_twice_witness :
  exists p unpinned,
    (versionFile <- member (sample_options
                              (VObj [("path", VStr "VERSION"); ("line", VNum 2)])
                              []) "versionFile" ;;
     member versionFile "path") = Ok p
    /\ path_only (sample_options
                    (VObj [("path", VStr "VERSION"); ("line", VNum 2)]) [])
       = Ok unpinned
    /\ member unpinned "versionFile" = Ok (VObj [("path", p)])
    /\ sample_getCurVersion
         (sample_options (VObj [("path", VStr "VERSION"); ("line", VNum 2)]) [])
       = Ok "1.0.0"
    /\ sample_getCurVersion unpinned = Ok "2.3.9".
Proof.
  apply (proj1 current_version_read_twice
               sample_schemes string sample_getSchemeRegex
               sample_getCurVersion sample_getTag sample_bumpVersion
               (sample_env "push" None no_input no_file)
               (sample_options
                  (VObj [("path", VStr "VERSION"); ("line", VNum 2)]) [])
               (output (getBumperState sample_schemes sample_getSchemeRegex
                          sample_getCurVersion sample_getTag
                          sample_bumpVersion
                          (sample_env "push" None no_input no_file)
                          (sample_options
                             (VObj [("path", VStr "VERSION"); ("line", VNum 2)])
                             [])))
               {| curVersion := "1.0.0"; newVersion := "1.0.0";
                  skip := VBool false;
                  schemeRegExp := "major.minor[.build]";
                  schemeDefinition := VStr "major.minor[.build]";
                  tag := false; trigger := commit;
                  branch := "release/1.x"; destBranch := "release/1.x";
                  files := [{| path := "VERSION"; line := Some (VNum 2) |};
                            {| path := "README.md"; line := None |}];
                  curAppVersion := "2.3.9" |}).
  vm_compute. reflexivity.
Defined.

(** ** The skip option *)

Lemma set_member_same (o o' : value) (k : string) (v : value) :
  set_member o k v = Ok o' -> (k =? "__proto__") = false ->
  member o' k = Ok v.
Proof.
  intros H Hk.
  destruct o; simpl in H; try discriminate H; inversion H; subst; simpl;
    unfold JS.get; rewrite ObjFacts.own_assign_same, Hk, orb_true_r;
    reflexivity.
Qed.

Lemma set_member_other (o o' : value) (k k' : string) (v w : value) :
  set_member o k v = Ok o' -> k' <> k ->
  member o k' = Ok w -> w <> VUndefined ->
  member o' k' = Ok w.
Proof.
  intros H Hne Hw Hdef.
  destruct o; simpl in H; try discriminate H; inversion H; subst.
  - simpl in Hw. inversion Hw. congruence.
  - simpl in *. unfold JS.get in *.
    now rewrite ObjFacts.own_assign_other.
Qed.

Lemma store_input_sets (env : Env) (k : string) (s s' : locals)
      (l : list event) :
  store_input env k s = (l, Ok s') ->
  getInput env k <> "" -> (k =? "__proto__") = false ->
  member (bumperOptions s') k = Ok (VStr (getInput env k)).
Proof.
  unfold store_input, nonempty. intros H Hx Hk.
  apply String.eqb_neq in Hx. rewrite Hx in H. simpl in H.
  unfold store in H. m_inv H. cbn in H. inversion H; subst. simpl.
  now apply (set_member_same _ _ _ Hstep).
Qed.

Lemma store_input_keeps (env : Env) (k k' : string) (s s' : locals)
      (l : list event) (w : value) :
  store_input env k s = (l, Ok s') -> k' <> k ->
  member (bumperOptions s) k' = Ok w -> w <> VUndefined ->
  member (bumperOptions s') k' = Ok w.
Proof.
  unfold store_input. intros H Hne Hw Hdef.
  destruct (nonempty (getInput env k)).
  - unfold store in H. m_inv H. cbn in H. inversion H; subst. simpl.
    now apply (set_member_other _ _ Hstep).
  - cbn in H. inversion H; subst. exact Hw.
Qed.

(** ** Validation of the options *)

(** C4, at the options file [{"versionFile":{"path":"VERSION"}}] with no
    workflow input besides the name of that file.  Scheme, file list and
    rules are missing.  The two messages about the scheme are gathered,
    then the test of the version file calls trim on the object and the
    run ends there with a TypeError: the file list and the rules are never
    looked at, and the error thrown carries none of the messages. *)
Theorem getBumperOptions_stops_at_versionFile_object :
  getBumperOptions sample_schemes sample_parse
    (sample_env "push" None (inputs "") (options_file versionFile_object_text))
  = ([ConsoleError "Scheme is not defined in option file or workflow input.";
      Resolve (VObj [("versionFile", VObj [("path", VStr "VERSION")])]);
      ConsoleError "Error: Scheme undefined is not defined."],
     Throw (TypeError "trim is not a function")).
Proof. vm_compute. reflexivity. Qed.

(** With every required field missing and nothing to call trim on, the
    run checks all the fields and throws one error with all the
    messages. *)
Example getBumperOptions_all_missing :
  outcome (getBumperOptions sample_schemes sample_parse
             (sample_env "push" None no_input no_file))
  = Throw (Error
             ("Scheme is not defined in option file or workflow input." ++ nl
              ++ "Error: Scheme undefined is not defined." ++ nl
              ++ "Version file is not defined in option file or workflow input."
              ++ nl
              ++ "Files are not defined in option file or workflow input." ++ nl
              ++ "Rules are not defined in option file or workflow input." ++ nl)).
Proof. vm_compute. reflexivity. Qed.

(** ** One error for all the messages *)

Lemma value_ind_nested (P : value -> Prop) :
  P VUndefined -> P VNull -> (forall b, P (VBool b)) ->
  (forall n, P (VNum n)) -> (forall s, P (VStr s)) ->
  (forall elems, Forall P elems -> P (VArr elems)) ->
  (forall props, P (VObj props)) ->
  forall v, P v.
Proof.
  intros Hu Hn Hb Hz Hs Ha Ho.
  fix IH 1.
  intros [| | b | n | s | elems | props];
    [exact Hu | exact Hn | apply Hb | apply Hz | apply Hs | | apply Ho].
  apply Ha. induction elems as [| x r IHr]; constructor; [apply IH | exact IHr].
Qed.

Lemma toString_TypeError_only (v : value) : TypeError_only (JS.toString v).
Proof.
  induction v as [| | [|] | n | s | elems IH | props] using value_ind_nested;
    simpl; auto.
  - induction IH as [| x r Hx _ IHr]; simpl; auto.
    assert (Hsx : TypeError_only
                    match x with
                    | VUndefined | VNull => Ok ""
                    | _ => JS.toString x
                    end) by (destruct x; simpl; auto; exact Hx).
    destruct (match x with
              | VUndefined | VNull => Ok ""
              | _ => JS.toString x
              end) as [sx | e]; simpl; [| exact Hsx].
    destruct r as [| y r']; simpl; auto.
    simpl in IHr.
    match goal with
    | |- TypeError_only (bind ?m _) => destruct m as [sr | e]; simpl; auto
    end.
  - destruct (JS.has_own props "toString"); simpl; auto.
Qed.

Lemma append_nil_r (s : string) : (s ++ "")%string = s.
Proof. induction s as [| c s IH]; simpl; [reflexivity | now rewrite IH]. Qed.

Lemma append_assoc (a b c : string) :
  ((a ++ b) ++ c)%string = (a ++ (b ++ c))%string.
Proof. induction a as [| x a IH]; simpl; [reflexivity | now rewrite IH]. Qed.

Lemma errors_of_app (l1 l2 : list event) :
  errors_of (l1 ++ l2) = (errors_of l1 ++ errors_of l2)%string.
Proof.
  induction l1 as [| e r IH]; simpl; [reflexivity |].
  now rewrite IH, append_assoc.
Qed.

Create HintDb te.

Lemma bind_TypeError_only {A B : Type} (m : result A) (k : A -> result B) :
  TypeError_only m -> (forall a, TypeError_only (k a)) ->
  TypeError_only (bind m k).
Proof. destruct m as [a | e]; simpl; auto. Qed.

Lemma member_TypeError_only (o : value) (k : string) :
  TypeError_only (member o k).
Proof. destruct o; simpl; exact I. Qed.

Lemma set_member_TypeError_only (o : value) (k : string) (v : value) :
  TypeError_only (set_member o k v).
Proof. destruct o; simpl; exact I. Qed.

Lemma hasOwnProperty_TypeError_only (o : value) (k : string) :
  TypeError_only (hasOwnProperty o k).
Proof.
  destruct o; simpl; try exact I.
  destruct (JS.has_own props "hasOwnProperty"); exact I.
Qed.

Lemma missing_or_blank_TypeError_only (v : value) :
  TypeError_only (missing_or_blank v).
Proof.
  unfold missing_or_blank. destruct (negb (JS.truthy v)); [exact I |].
  destruct v; simpl; exact I.
Qed.

#[local] Hint Resolve bind_TypeError_only member_TypeError_only
  set_member_TypeError_only hasOwnProperty_TypeError_only
  missing_or_blank_TypeError_only toString_TypeError_only : te.

Lemma undefined_or_blank_TypeError_only (o : value) (k : string) :
  TypeError_only (undefined_or_blank o k).
Proof.
  unfold undefined_or_blank. apply bind_TypeError_only; auto with te.
  intros [|]; simpl; auto with te.
Qed.

Lemma undefined_or_no_array_TypeError_only (o : value) (k : string) :
  TypeError_only (undefined_or_no_array o k).
Proof.
  unfold undefined_or_no_array. apply bind_TypeError_only; auto with te.
  intros [|]; simpl; [| exact I].
  apply bind_TypeError_only; auto with te. intros v. try exact I.
Qed.

Lemma iterate_TypeError_only (v : value) : TypeError_only (iterate v).
Proof. destruct v; simpl; exact I. Qed.

Lemma file_assignment_TypeError_only (f : value) :
  TypeError_only (file_assignment f).
Proof.
  unfold file_assignment. destruct (JS.typeof_object f);
    repeat (apply bind_TypeError_only; auto with te; intros ?); try exact I.
Qed.

Lemma assign_files_TypeError_only (files : list value)
      (o : JS.map_object) :
  TypeError_only (assign_files o files).
Proof.
  revert o. induction files as [| f r IH]; intros o; simpl; [exact I |].
  apply bind_TypeError_only; [apply file_assignment_TypeError_only |].
  intros a. apply IH.
Qed.

Lemma normalizeFiles_TypeError_only (files : list value) :
  TypeError_only (normalizeFiles files).
Proof.
  unfold normalizeFiles.
  apply bind_TypeError_only; [apply assign_files_TypeError_only |].
  intros o. exact I.
Qed.

#[local] Hint Resolve undefined_or_blank_TypeError_only
  undefined_or_no_array_TypeError_only iterate_TypeError_only
  normalizeFiles_TypeError_only : te.

Lemma gathers_ret (s : locals) : gathers s (ret s).
Proof. simpl. now rewrite append_nil_r. Qed.

Lemma gathers_err (message : string) (s : locals) :
  gathers s (err message s).
Proof. simpl. now rewrite append_nil_r. Qed.

Lemma gathers_store (k : string) (v : value) (s : locals) :
  gathers s (store k v s).
Proof.
  unfold store, mbind, lift.
  pose proof (set_member_TypeError_only (bumperOptions s) k v) as H.
  destruct (set_member (bumperOptions s) k v) as [o | [m | m | m]];
    simpl in *; auto. now rewrite append_nil_r.
Qed.

Lemma gathers_lift_bind {A : Type} (s : locals) (r : result A)
      (k : A -> M locals) :
  TypeError_only r -> (forall a, gathers s (k a)) ->
  gathers s (a <~ lift r ;; k a).
Proof.
  intros Hr Hk. destruct r as [a | [m | m | m]]; simpl in *; try tauto.
  specialize (Hk a). destruct (k a) as [l [s' | e]]; simpl in *; exact Hk.
Qed.

Lemma gathers_bind (s : locals) (m : M locals) (k : locals -> M locals) :
  gathers s m -> (forall s', gathers s' (k s')) -> gathers s (mbind m k).
Proof.
  intros Hm Hk. destruct m as [l [s1 | e]]; simpl in *; [| exact Hm].
  specialize (Hk s1). destruct (k s1) as [l' [s2 | e]]; simpl in *;
    [| exact Hk].
  now rewrite Hk, Hm, errors_of_app, append_assoc.
Qed.

Lemma gathers_try_catch (s : locals) (m : M locals) (h : exn -> M locals) :
  tries s m -> (forall e, gathers s (h e)) -> gathers s (try_catch m h).
Proof.
  intros Hm Hh. destruct m as [l [s1 | e]]; simpl in *; [exact Hm |].
  specialize (Hh e). destruct (h e) as [l' [s2 | e']]; simpl in *;
    [| exact Hh].
  now rewrite errors_of_app, Hm.
Qed.

Lemma tries_lift_bind {A : Type} (s : locals) (r : result A)
      (k : A -> M locals) :
  (forall a, tries s (k a)) -> tries s (a <~ lift r ;; k a).
Proof.
  intros Hk. destruct r as [a | e]; simpl; [| reflexivity].
  specialize (Hk a). destruct (k a) as [l [s' | e]]; simpl in *; exact Hk.
Qed.

Lemma tries_err (message : string) (s : locals) : tries s (err message s).
Proof. simpl. now rewrite append_nil_r. Qed.

Lemma tries_store (k : string) (v : value) (s : locals) :
  tries s (store k v s).
Proof.
  unfold store, mbind, lift.
  destruct (set_member (bumperOptions s) k v) as [o | e]; simpl;
    [now rewrite append_nil_r | reflexivity].
Qed.

Section Gathering.
Variable definedSchemes : list (string * string).
Variable JSON_parse : string -> result value.
Variable env : Env.

Lemma read_options_file_returns :
  exists l o, read_options_file JSON_parse env = (l, Ok o)
              /\ errors_of l = "".
Proof.
  unfold read_options_file.
  destruct (nonempty (getInput env "options-file")
            && negb (existsSync env (getInput env "options-file")));
    [do 2 eexists; split; reflexivity |].
  destruct (nonempty (getInput env "options-file")
            && existsSync env (getInput env "options-file"));
    [| do 2 eexists; split; reflexivity].
  destruct (readFileSync env (getInput env "options-file")) as [text | e];
    [| do 2 eexists; split; reflexivity].
  destruct (JSON_parse text) as [v | e] eqn:Hparse;
    unfold try_catch, mbind, lift; rewrite Hparse;
    do 2 eexists; split; reflexivity.
Qed.

Lemma check_scheme_gathers (s : locals) : gathers s (check_scheme env s).
Proof.
  unfold check_scheme. destruct (nonempty (getInput env "scheme")).
  - apply gathers_store.
  - apply gathers_lift_bind; [auto with te |].
    intros [|]; [apply gathers_err | apply gathers_ret].
Qed.

Lemma check_customScheme_gathers (s : locals) :
  gathers s (check_customScheme env s).
Proof.
  unfold check_customScheme. destruct (nonblank (getInput env "custom-scheme")).
  - apply gathers_bind; [apply gathers_store |].
    intros s'. apply gathers_store.
  - apply gathers_ret.
Qed.

Lemma resolve_scheme_gathers (s : locals) :
  gathers s (resolve_scheme definedSchemes s).
Proof.
  unfold resolve_scheme. apply gathers_try_catch.
  - unfold resolve, mbind, tell, lift.
    destruct (getSchemeDefinition definedSchemes (bumperOptions s))
      as [d | e]; simpl; [| reflexivity].
    pose proof (tries_store "schemeDefinition" d s) as H.
    destruct (store "schemeDefinition" d s) as [l [s' | e]]; simpl in *;
      exact H.
  - intros e. apply gathers_err.
Qed.

Lemma store_files_gathers (array : result value) (s : locals) :
  TypeError_only array -> gathers s (store_files array s).
Proof.
  intros Ha. unfold store_files.
  apply gathers_lift_bind; [auto with te | intros v].
  apply gathers_lift_bind; [exact Ha | intros a].
  apply gathers_lift_bind; [auto with te | intros elems].
  apply gathers_lift_bind; [auto with te | intros fs].
  apply gathers_store.
Qed.

Lemma store_files_tries (array : result value) (s : locals) :
  tries s (store_files array s).
Proof.
  unfold store_files.
  apply tries_lift_bind; intros v.
  apply tries_lift_bind; intros a.
  apply tries_lift_bind; intros elems.
  apply tries_lift_bind; intros fs.
  apply tries_store.
Qed.

Lemma check_versionFile_gathers (s : locals) :
  gathers s (check_versionFile JSON_parse env s).
Proof.
  unfold check_versionFile. destruct (nonblank (getInput env "version-file")).
  - apply gathers_try_catch.
    + apply tries_lift_bind. intros v. apply tries_store.
    + intros e. apply gathers_store.
  - apply gathers_lift_bind; [auto with te |].
    intros [|]; [apply gathers_err |].
    apply gathers_lift_bind; [auto with te | intros v].
    apply gathers_lift_bind; [auto with te | intros fs].
    apply gathers_store.
Qed.

Lemma check_files_gathers (s : locals) :
  gathers s (check_files JSON_parse env s).
Proof.
  unfold check_files. destruct (nonblank (getInput env "files")).
  - apply gathers_try_catch.
    + apply tries_lift_bind. intros filesArray.
      destruct (negb (JS.isArray filesArray));
        [apply tries_err | apply store_files_tries].
    + intros e. apply gathers_err.
  - apply gathers_lift_bind; [auto with te |].
    intros [|]; [apply gathers_err |].
    apply store_files_gathers. auto with te.
Qed.

Lemma check_rules_gathers (s : locals) :
  gathers s (check_rules JSON_parse env s).
Proof.
  unfold check_rules. destruct (nonblank (getInput env "rules")).
  - apply gathers_try_catch.
    + apply tries_lift_bind. intros rulesArray.
      destruct (negb (JS.isArray rulesArray));
        [apply tries_err | apply tries_store].
    + intros e. apply gathers_err.
  - apply gathers_lift_bind; [auto with te |].
    intros [|]; [apply gathers_err | apply gathers_ret].
Qed.

Lemma store_input_gathers (k : string) (s : locals) :
  gathers s (store_input env k s).
Proof.
  unfold store_input. destruct (nonempty (getInput env k));
    [apply gathers_store | apply gathers_ret].
Qed.

Lemma reports_bind (s : locals) (m : M locals) (k : locals -> M value) :
  gathers s m -> (forall s', reports s' (k s')) -> reports s (mbind m k).
Proof.
  intros Hm Hk. destruct m as [l [s1 | [w | w | w]]]; simpl in *;
    try tauto.
  specialize (Hk s1). destruct (k s1) as [l' [o | [w | w | w]]];
    simpl in *; try tauto.
  destruct Hk as [Hmsg Hne]. split; [| exact Hne].
  now rewrite Hmsg, Hm, errors_of_app, append_assoc.
Qed.

(** Every run of [getBumperOptions] ends in one of three ways: it returns
    the options; it throws the one [Error] whose message is all the
    messages written, a line each; or it is cut short by a [TypeError]. *)
Lemma getBumperOptions_reports :
  reports {| bumperOptions := VUndefined; error := "" |}
          (getBumperOptions definedSchemes JSON_parse env).
Proof.
  unfold getBumperOptions.
  destruct read_options_file_returns as [l0 [o [Hread Hquiet]]].
  rewrite Hread.
  assert (Htail : forall (k : value -> M value),
             reports {| bumperOptions := o; error := "" |} (k o) ->
             reports {| bumperOptions := VUndefined; error := "" |}
                     (mbind (l0, Ok o) k)).
  { intros k Hk. simpl. destruct (k o) as [l [v | [w | w | w]]];
      simpl in *; try tauto.
    destruct Hk as [Hmsg Hne]. split; [| exact Hne].
    now rewrite errors_of_app, Hquiet. }
  apply Htail.
  apply reports_bind; [apply check_scheme_gathers | intros s1].
  apply reports_bind; [apply check_customScheme_gathers | intros s2].
  apply reports_bind; [apply resolve_scheme_gathers | intros s3].
  apply reports_bind; [apply check_versionFile_gathers | intros s4].
  apply reports_bind; [apply check_files_gathers | intros s5].
  apply reports_bind; [apply check_rules_gathers | intros s6].
  apply reports_bind; [apply store_input_gathers | intros s7].
  apply reports_bind; [apply store_input_gathers | intros s8].
  apply reports_bind; [apply store_input_gathers | intros s9].
  destruct (error s9 =? "") eqn:He; simpl; [exact I |].
  split; [now rewrite append_nil_r | now apply String.eqb_neq].
Qed.

End Gathering.

(** X11: every run of [getBumperOptions] that ends with an [Error] ends
    with the aggregate: its message is all the messages written by [err], each
    on a line, and nothing else. A run never ends with a [SyntaxError];
    what is left is the return of the options and the [TypeError]s. *)
Lemma getBumperOptions_Error_is_aggregate
      (definedSchemes : list (string * string))
      (JSON_parse : string -> result value) (env : Env)
      (log : list event) (e : exn) :
  getBumperOptions definedSchemes JSON_parse env = (log, Throw e) ->
  (exists message,
      e = Error message /\ message = errors_of log /\ message <> "")
  \/ (exists message, e = TypeError message).
Proof.
  intros H. pose proof (getBumperOptions_reports definedSchemes JSON_parse env)
    as Hr.
  rewrite H in Hr. simpl in Hr. destruct e as [m | m | m].
  - left. exists m. destruct Hr as [Hm Hne]. auto.
  - right. eauto.
  - contradiction.
Qed.

(** * Further properties *)

(** ** More on [normalizeFiles] *)

Lemma normalizeFiles_NoDup_witness :
  NoDup (map path [{| path := "a"; line := Some (VNum 10) |};
                   {| path := "b"; line := None |}]).
Proof.
  apply (@normalizeFiles_NoDup
           [file_object "a" (Some 5%Z); file_string "b"; file_string "a";
            file_object "a" (Some 10%Z)]).
  reflexivity.
Defined.

Lemma normalizeFiles_complete_witness :
  In "b" (map path [{| path := "a"; line := Some (VNum 10) |};
                    {| path := "b"; line := None |}]).
Proof.
  apply (@normalizeFiles_complete
           [file_object "a" (Some 5%Z); file_string "b"; file_string "a";
            file_object "a" (Some 10%Z)]
           _ (file_string "b") "b" VUndefined).
  - reflexivity.
  - simpl. tauto.
  - reflexivity.
  - discriminate.
Defined.

Section MoreNormalizeFiles.
Import JS ObjFacts.

Lemma put_keys_length (m : map_object) (k : string) (v : value) :
  (List.length (owned (put m k v)) <= S (List.length (owned m)))%nat.
Proof.
  unfold put. destruct (has_own (owned m) k); simpl.
  - rewrite <- (length_map fst), update_keys, length_map. lia.
  - destruct ((k =? "__proto__") && reaches_accessor (chain m)); simpl;
      [lia |].
    rewrite length_app. simpl. lia.
Qed.

(** The keys of the map come from the turns of the loop, one at most for
    each. *)
Lemma assign_files_sound (l : list value) (o o' : map_object) :
  assign_files o l = Ok o' ->
  (forall k, has_own (owned o') k = true ->
             has_own (owned o) k = true
             \/ exists f v, In f l /\ file_assignment f = Ok (k, v))
  /\ (List.length (owned o') <= List.length (owned o) + List.length l)%nat.
Proof.
  revert o. induction l as [| f r IH]; simpl; intros o H.
  - inversion H; subst. split; [auto | lia].
  - bind_inv H. destruct (IH _ H) as [Hkeys Hlen]. split.
    + intros k Hk. destruct (Hkeys k Hk) as [Hold | [f' [v [Hin Hf]]]].
      * destruct (String.eqb_spec k (fst a)) as [-> | Hne].
        -- right. exists f, (snd a). split; [now left |].
           rewrite Ha. now destruct a.
        -- left. unfold has_own in *.
           now rewrite own_put_other in Hold.
      * right. exists f', v. auto.
    + pose proof (put_keys_length o (fst a) (snd a)). lia.
Qed.

(** X3: every path in the output of normalizeFiles is the path of some
    element of the input, and the output is no longer than the input. *)
Theorem normalizeFiles_paths_from_input
        (files : list value) (out : list VersionFile) :
  normalizeFiles files = Ok out ->
  (forall e, In e out ->
             exists f v, In f files /\ file_assignment f = Ok (path e, v))
  /\ (List.length out <= List.length files)%nat.
Proof.
  intros H. apply normalizeFiles_Ok in H.
  destruct H as [filez [Hfz [_ ->]]].
  destruct (assign_files_sound _ _ Hfz) as [Hkeys Hlen]. split.
  - intros e He. apply in_map_iff in He. destruct He as [k [<- Hk]].
    rewrite path_entry. apply keys_In in Hk.
    destruct (Hkeys k Hk) as [Hold | Hnew]; [discriminate Hold | exact Hnew].
  - rewrite length_map, (Permutation_length (keys_perm (owned filez))),
      length_map.
    simpl in Hlen. exact Hlen.
Qed.

Lemma typed_file_assignment (f : value) :
  typed_file f -> exists k v, file_assignment f = Ok (k, v).
Proof.
  intros [[p ->] | [p [l ->]]].
  - exists p, VUndefined. reflexivity.
  - eexists _, _. apply file_assignment_object.
Qed.

(** X5: on its declared input type normalizeFiles always returns: a list
    of strings and of objects with a string path and an integer line or
    none never makes it throw. *)
Theorem normalizeFiles_returns_on_typed_input (files : list value) :
  Forall typed_file files -> exists out, normalizeFiles files = Ok out.
Proof.
  intros Hty. unfold normalizeFiles.
  assert (H : forall o, exists filez, assign_files o files = Ok filez).
  { induction Hty as [| f r Hf _ IH]; intros o; simpl; [eauto |].
    destruct (typed_file_assignment Hf) as [k [v ->]]. simpl. apply IH. }
  destruct (H empty_object) as [filez ->]. simpl. eauto.
Qed.

Lemma put_keeps_head (c : prototype) (o : obj) (k0 : string) (v0 : value)
      (k : string) (v : value) :
  exists c' v0' o',
    put {| chain := c; owned := (k0, v0) :: o |} k v
    = {| chain := c'; owned := (k0, v0') :: o' |}.
Proof.
  unfold put, has_own. simpl.
  destruct (k0 =? k) eqn:E; simpl; [eauto |].
  destruct (own o k); [eauto |].
  destruct ((k =? "__proto__") && reaches_accessor c); eauto.
Qed.

Lemma assign_files_keeps_head (l : list value) (c : prototype) (o : obj)
      (o' : map_object) (k0 : string) (v0 : value) :
  assign_files {| chain := c; owned := (k0, v0) :: o |} l = Ok o' ->
  exists v0' r, owned o' = (k0, v0') :: r.
Proof.
  revert c o v0. induction l as [| f r IH]; simpl; intros c o v0 H.
  - inversion H. simpl. eauto.
  - bind_inv H.
    destruct (put_keeps_head c o k0 v0 (fst a) (snd a))
      as [c' [v0' [o1 Heq]]].
    rewrite Heq in H. eapply IH. exact H.
Qed.

Lemma index_keys_none (ks : list string) :
  (forall k, In k ks -> array_index k = None) ->
  index_keys ks = [] /\ filter is_name ks = ks.
Proof.
  induction ks as [| k r IH]; intros H; simpl; [split; reflexivity |].
  destruct IH as [IH1 IH2]; [intros; apply H; now right |].
  assert (Hk : array_index k = None) by (apply H; now left).
  assert (Hn : is_name k = true) by (unfold is_name; now rewrite Hk).
  rewrite Hk, Hn, IH1, IH2. split; reflexivity.
Qed.

(** X6: when no path of the output is an array index (a canonical decimal
    number), the first element of the input comes first in the output,
    unless its path is __proto__.  So the version file, which
    getBumperOptions puts first, stays first. *)
Theorem normalizeFiles_first_stays_first
        (f : value) (rest : list value) (k : string) (v : value)
        (out : list VersionFile) :
  normalizeFiles (f :: rest) = Ok out ->
  file_assignment f = Ok (k, v) ->
  k <> "__proto__" ->
  (forall e, In e out -> array_index (path e) = None) ->
  exists e out', out = e :: out' /\ path e = k.
Proof.
  intros H Hf Hk Hnames. apply normalizeFiles_Ok in H.
  destruct H as [filez [Hfz [_ ->]]].
  simpl in Hfz. rewrite Hf in Hfz. simpl in Hfz.
  unfold put in Hfz. simpl in Hfz.
  apply String.eqb_neq in Hk. rewrite Hk in Hfz. simpl in Hfz.
  apply assign_files_keeps_head in Hfz. destruct Hfz as [v' [r Hfz]].
  rewrite Hfz.
  assert (Hall : forall k', In k' (map fst ((k, v') :: r)) ->
                            array_index k' = None).
  { intros k' Hin.
    assert (Hkeys : In k' (keys (owned filez)))
      by (rewrite Hfz; apply keys_In, own_In; exact Hin).
    specialize (Hnames (entry (owned filez) k')
                       (in_map _ _ _ Hkeys)).
    now rewrite path_entry in Hnames. }
  destruct (index_keys_none _ Hall) as [Hidx Hflt].
  unfold keys. rewrite Hidx, Hflt. simpl.
  eexists _, _. split; [reflexivity | apply path_entry].
Qed.

End MoreNormalizeFiles.

Lemma normalizeFiles_paths_from_input_witness :
  (forall e,
      In e [{| path := "a"; line := None |}] ->
      exists f v, In f [file_object "a" (Some 5%Z); file_string "a"]
                  /\ file_assignment f = Ok (path e, v))
  /\ (List.length [{| path := "a"; line := None |}]
      <= List.length [file_object "a" (Some 5%Z); file_string "a"])%nat.
Proof.
  apply (@normalizeFiles_paths_from_input
           [file_object "a" (Some 5%Z); file_string "a"]).
  reflexivity.
Defined.

Lemma normalizeFiles_returns_on_typed_input_witness :
  exists out,
    normalizeFiles [file_string "VERSION"; file_object "README.md" (Some 3%Z)]
    = Ok out.
Proof.
  apply normalizeFiles_returns_on_typed_input.
  apply Forall_cons; [left; exists "VERSION"; reflexivity |].
  apply Forall_cons; [| apply Forall_nil].
  right. exists "README.md", (Some 3%Z). reflexivity.
Defined.

Lemma normalizeFiles_first_stays_first_witness :
  exists e out',
    [{| path := "VERSION"; line := Some (VNum 2) |};
     {| path := "README.md"; line := None |}] = e :: out'
    /\ path e = "VERSION".
Proof.
  apply (@normalizeFiles_first_stays_first
           (file_object "VERSION" (Some 2%Z))
           [file_string "README.md"; file_string "VERSION";
            file_object "VERSION" (Some 2%Z)]
           "VERSION" (VNum 2)).
  - reflexivity.
  - reflexivity.
  - discriminate.
  - intros e [<- | [<- | []]]; reflexivity.
Defined.

(** ** [normalizeFiles] on its own output *)

Section Idempotence.
Import JS ObjFacts.

Lemma insert_index_HdRel (y x : N * string) (l : list (N * string)) :
  HdRel index_le y l -> index_le y x -> HdRel index_le y (insert_index x l).
Proof.
  intros Hl Hx. destruct l as [| z r]; simpl.
  - now constructor.
  - destruct (fst x <=? fst z)%N; constructor; [exact Hx |].
    now inversion Hl.
Qed.

Lemma insert_index_sorted (x : N * string) (l : list (N * string)) :
  Sorted index_le l -> Sorted index_le (insert_index x l).
Proof.
  induction l as [| y r IH]; simpl; intros Hs.
  - repeat constructor.
  - destruct (fst x <=? fst y)%N eqn:Hle.
    + constructor; [exact Hs |]. constructor. now apply N.leb_le.
    + inversion Hs; subst. constructor; [now apply IH |].
      apply insert_index_HdRel; [assumption |].
      apply N.leb_gt in Hle. unfold index_le. lia.
Qed.

Lemma sort_indices_sorted (l : list (N * string)) :
  Sorted index_le (sort_indices l).
Proof.
  induction l as [| x r IH]; simpl; [constructor |].
  now apply insert_index_sorted.
Qed.

Lemma sort_indices_of_sorted (l : list (N * string)) :
  Sorted index_le l -> sort_indices l = l.
Proof.
  induction 1 as [| x l Hs IH Hd]; simpl; [reflexivity |].
  rewrite IH. destruct Hd as [| y r Hxy]; simpl; [reflexivity |].
  apply N.leb_le in Hxy. now rewrite Hxy.
Qed.

Lemma index_keys_ok (ks : list string) : Forall index_ok (index_keys ks).
Proof.
  induction ks as [| k r IH]; simpl; [constructor |].
  destruct (array_index k) as [n |] eqn:Hk; [| exact IH].
  constructor; [exact Hk | exact IH].
Qed.

Lemma index_keys_back (I : list (N * string)) (ks : list string) :
  Forall index_ok I -> index_keys (map snd I ++ ks) = I ++ index_keys ks.
Proof.
  induction 1 as [| [n k] r Hp _ IH]; simpl; [reflexivity |].
  unfold index_ok in Hp. simpl in Hp. rewrite Hp, IH. reflexivity.
Qed.

Lemma filter_name_indices (I : list (N * string)) :
  Forall index_ok I -> filter is_name (map snd I) = [].
Proof.
  induction 1 as [| [n k] r Hp _ IH]; simpl; [reflexivity |].
  unfold index_ok in Hp. simpl in Hp. unfold is_name at 1.
  now rewrite Hp.
Qed.

Lemma assign_files_fresh (g : string -> value) (val : string -> value)
      (K : list string) (m : map_object) :
  (forall k, file_assignment (g k) = Ok (k, val k)) ->
  NoDup K -> ~ In "__proto__" K ->
  (forall k, In k K -> has_own (owned m) k = false) ->
  assign_files m (map g K)
  = Ok {| chain := chain m;
          owned := owned m ++ map (fun k => (k, val k)) K |}.
Proof.
  intros Hg Hnd. revert m.
  induction Hnd as [| k r Hnotin Hnd IH]; intros m Hp Hfresh; simpl.
  - rewrite app_nil_r. now destruct m.
  - rewrite Hg. simpl. unfold put.
    rewrite (Hfresh k (or_introl eq_refl)).
    destruct (String.eqb_spec k "__proto__") as [-> | Hne];
      [exfalso; apply Hp; now left |].
    simpl. rewrite IH; simpl.
    + now rewrite <- app_assoc.
    + intros Hin. apply Hp. now right.
    + intros k' Hk'. unfold has_own. rewrite own_app.
      specialize (Hfresh k' (or_intror Hk')). unfold has_own in Hfresh.
      destruct (own (owned m) k'); [discriminate |]. simpl.
      destruct (String.eqb_spec k k'); [subst; contradiction | reflexivity].
Qed.

Lemma filter_other_key_notin (K : list string) :
  ~ In "__proto__" K -> filter other_key K = K.
Proof.
  induction K as [| k r IH]; simpl; intros H; [reflexivity |].
  unfold other_key at 1.
  destruct (String.eqb_spec k "__proto__") as [-> | Hne]; simpl.
  - exfalso. apply H. now left.
  - rewrite IH; [reflexivity |]. intros Hin. apply H. now right.
Qed.

(** Entries whose paths differ, given to a map that has none of them
    and still has the accessor above it: each is created in its turn
    but the one of [__proto__], which goes to the accessor. *)
Lemma assign_files_entries (g : string -> value) (val : string -> value)
      (K : list string) (m : map_object) :
  (forall k, file_assignment (g k) = Ok (k, val k)) ->
  NoDup K ->
  (forall k, In k K -> has_own (owned m) k = false) ->
  reaches_accessor (chain m) = true ->
  exists c,
    assign_files m (map g K)
    = Ok {| chain := c;
            owned := owned m
                       ++ map (fun k => (k, val k)) (filter other_key K) |}.
Proof.
  intros Hg Hnd. revert m.
  induction Hnd as [| k r Hnotin Hnd IH]; intros m Hfresh Hacc; simpl.
  - exists (chain m). rewrite app_nil_r. now destruct m.
  - rewrite Hg. simpl. unfold put at 1.
    rewrite (Hfresh k (or_introl eq_refl)). unfold other_key at 1.
    destruct (String.eqb_spec k "__proto__") as [-> | Hne]; simpl.
    + rewrite Hacc. simpl.
      rewrite (@filter_other_key_notin _ Hnotin).
      eexists. apply (@assign_files_fresh g val r
                        {| chain := _; owned := owned m |} Hg Hnd Hnotin).
      intros k' Hk'. apply Hfresh. now right.
    + destruct (IH {| chain := chain m; owned := owned m ++ [(k, val k)] |})
        as [c Hc].
      * intros k' Hk'. simpl. unfold has_own. rewrite own_app.
        specialize (Hfresh k' (or_intror Hk')). unfold has_own in Hfresh.
        destruct (own (owned m) k'); [discriminate |]. simpl.
        destruct (String.eqb_spec k k'); [subst; contradiction | reflexivity].
      * exact Hacc.
      * exists c. rewrite Hc. simpl. now rewrite <- app_assoc.
Qed.

Lemma own_tabulate_value (f : string -> value) (ks : list string)
      (k : string) :
  In k ks -> own (map (fun x => (x, f x)) ks) k = Some (f k).
Proof.
  induction ks as [| k0 r IH]; simpl; [tauto |].
  destruct (String.eqb_spec k0 k) as [-> | Hne]; [reflexivity |].
  intros [H | H]; [contradiction | now apply IH].
Qed.

Lemma file_assignment_entry (filez : obj) (k : string) :
  file_assignment (value_of_VersionFile (entry filez k))
  = Ok (k, kept_line filez k).
Proof.
  unfold entry, kept_line.
  destruct (truthy (get filez k)); reflexivity.
Qed.

Lemma filter_other_key_indices (I : list (N * string)) :
  Forall index_ok I -> filter other_key (map snd I) = map snd I.
Proof.
  intros HI. apply filter_other_key_notin. intros Hin.
  apply in_map_iff in Hin. destruct Hin as [[n k] [Hk Hin]].
  simpl in Hk. subst k.
  rewrite Forall_forall in HI. specialize (HI _ Hin).
  unfold index_ok in HI. simpl in HI. vm_compute in HI. discriminate HI.
Qed.

(** The keys of an object without [__proto__], created again in the
    order of [Object.keys], come out of [Object.keys] in that order. *)
Lemma keys_of_other_keys (o o' : obj) :
  map fst o' = filter other_key (keys o) ->
  keys o' = filter other_key (keys o).
Proof.
  intros Hfst. unfold keys at 1. rewrite Hfst. unfold keys.
  set (I := sort_indices (index_keys (map fst o))).
  assert (HI : Forall index_ok I).
  { apply (Permutation_Forall (Permutation_sym (sort_indices_perm _))).
    apply index_keys_ok. }
  rewrite filter_app, (@filter_other_key_indices _ HI).
  set (names := filter other_key (filter is_name (map fst o))).
  assert (Hnames : index_keys names = [] /\ filter is_name names = names).
  { apply index_keys_none. intros k Hk. unfold names in Hk.
    apply filter_In in Hk. destruct Hk as [Hk _].
    apply filter_In in Hk. destruct Hk as [_ Hk]. unfold is_name in Hk.
    destruct (array_index k); [discriminate | reflexivity]. }
  destruct Hnames as [Hidx Hflt].
  rewrite (index_keys_back _ HI), Hidx, app_nil_r.
  assert (Hs : sort_indices I = I)
    by (apply sort_indices_of_sorted, sort_indices_sorted).
  rewrite Hs.
  rewrite filter_app, (filter_name_indices HI), Hflt. reflexivity.
Qed.

Lemma filter_other_path_entries (filez : obj) (K : list string) :
  filter other_path (map (entry filez) K)
  = map (entry filez) (filter other_key K).
Proof.
  induction K as [| k r IH]; simpl; [reflexivity |].
  unfold other_path at 1. rewrite path_entry. fold (other_key k).
  destruct (other_key k); simpl; now rewrite IH.
Qed.

Lemma filter_other_path_id (l : list VersionFile) :
  filter other_path l = l <-> ~ In "__proto__" (map path l).
Proof.
  induction l as [| e r IH]; simpl; [tauto |].
  unfold other_path at 1. unfold other_key.
  destruct (String.eqb_spec (path e) "__proto__") as [He | He]; simpl.
  - split; [| tauto]. intros H. exfalso.
    assert (Hlen : (List.length (filter other_path r) <= List.length r)%nat)
      by apply filter_length_le.
    rewrite H in Hlen. simpl in Hlen. lia.
  - split.
    + intros H. inversion H as [Hr]. rewrite Hr. apply IH in Hr. tauto.
    + intros H. f_equal. apply IH. tauto.
Qed.

(** The entries made from a map, normalised again: the entry of
    [__proto__] goes, the others come out as they are, in their order. *)
Lemma normalizeFiles_entries_again (filez : obj) :
  NoDup (map fst filez) ->
  normalizeFiles (map value_of_VersionFile (map (entry filez) (keys filez)))
  = Ok (filter other_path (map (entry filez) (keys filez))).
Proof.
  intros Hnd.
  unfold normalizeFiles. rewrite map_map.
  destruct (@assign_files_entries
              (fun k => value_of_VersionFile (entry filez k))
              (kept_line filez) (keys filez) empty_object
              (file_assignment_entry filez)
              (@keys_NoDup filez Hnd)
              (fun k _ => eq_refl) eq_refl) as [c Hc].
  rewrite Hc. simpl. rewrite reduce_entries. simpl.
  set (filez' := map (fun k => (k, kept_line filez k))
                     (filter other_key (keys filez))).
  assert (Hkeys : keys filez' = filter other_key (keys filez)).
  { apply keys_of_other_keys. unfold filez'. rewrite map_map. simpl.
    apply map_id. }
  rewrite Hkeys, filter_other_path_entries. f_equal.
  apply map_ext_in. intros k Hk.
  unfold entry at 1. unfold get at 1 2. unfold filez'.
  rewrite (own_tabulate_value _ _ _ Hk).
  unfold kept_line, entry.
  destruct (truthy (get filez k)) eqn:Ht; [now rewrite Ht | reflexivity].
Qed.

(** X4: normalizeFiles, run on its own output, returns it without the
    entry of the path __proto__ and otherwise as it is, in the same
    order; so it is idempotent exactly on the outputs that have no path
    __proto__. *)
Theorem normalizeFiles_idempotent
        (files : list value) (out : list VersionFile) :
  normalizeFiles files = Ok out ->
  normalizeFiles (map value_of_VersionFile out)
  = Ok (filter other_path out)
  /\ (normalizeFiles (map value_of_VersionFile out) = Ok out
      <-> ~ In "__proto__" (map path out)).
Proof.
  intros H. apply normalizeFiles_Ok in H.
  destruct H as [filez [_ [Hnd ->]]].
  pose proof (@normalizeFiles_entries_again _ Hnd) as Hagain.
  split; [exact Hagain |].
  rewrite Hagain, <- filter_other_path_id.
  split; intros Heq; congruence.
Qed.

End Idempotence.

Lemma normalizeFiles_idempotent_witness :
  (normalizeFiles
     (map value_of_VersionFile
          [{| path := "2"; line := None |};
           {| path := "10"; line := Some (VNum 3) |};
           {| path := "b"; line := None |}])
   = Ok [{| path := "2"; line := None |};
         {| path := "10"; line := Some (VNum 3) |};
         {| path := "b"; line := None |}])
  /\ normalizeFiles
       (map value_of_VersionFile
            [{| path := "a"; line := None |};
             {| path := "__proto__"; line := None |}])
     = Ok [{| path := "a"; line := None |}].
Proof.
  split.
  - refine (proj2 (proj2 (@normalizeFiles_idempotent
                            [file_string "b"; file_object "10" (Some 3%Z);
                             file_string "2"; file_string "b"] _ _)) _).
    + vm_compute. reflexivity.
    + simpl. intros [H | [H | [H | []]]]; discriminate H.
  - refine (proj1 (@normalizeFiles_idempotent
                     [file_string "a";
                      VObj [("path", VStr "__proto__"); ("line", VNull)];
                      file_string "__proto__"]
                     [{| path := "a"; line := None |};
                      {| path := "__proto__"; line := None |}] _)).
    vm_compute. reflexivity.
Defined.

(** ** More on [getSchemeDefinition] and [normalizeOptions] *)

Section MoreSchemeDefinition.
Variable definedSchemes : list (string * string).

Lemma missing_or_blank_false (v : value) :
  missing_or_blank v = Ok false ->
  exists def, v = VStr def /\ JS.trim def <> "".
Proof.
  unfold missing_or_blank. destruct (negb (JS.truthy v)); [discriminate |].
  destruct v; simpl; try discriminate.
  intros H. inversion H as [Ht]. exists s. split; [reflexivity |].
  now apply String.eqb_neq.
Qed.

Lemma indexOf_found_lookup (v : value) :
  indexOf_found (map fst definedSchemes) v = true ->
  exists s def, v = VStr s /\ lookup s definedSchemes = Some def.
Proof.
  destruct v; simpl; try discriminate. intros H. exists s.
  induction definedSchemes as [| [k d] r IH]; simpl in *; [discriminate |].
  rewrite (String.eqb_sym k s). destruct (s =? k); simpl in H.
  - exists d. auto.
  - destruct (IH H) as [def [_ Hdef]]. exists def. auto.
Qed.

Lemma is_custom_true (v : value) : is_custom v = true -> v = VStr "custom".
Proof.
  destruct v; simpl; try discriminate. intros H.
  apply String.eqb_eq in H. now subst.
Qed.

(** X7: whenever getSchemeDefinition returns, the result is a string: for
    a scheme other than "custom" found in the preset table it is the
    table's definition, whatever schemeDefinition the options hold; for
    the scheme "custom" it is options.schemeDefinition itself, not
    trimmed, and that is a string which is not blank. *)
Theorem getSchemeDefinition_returns (options d : value) :
  getSchemeDefinition definedSchemes options = Ok d ->
  exists s def,
    member options "scheme" = Ok (VStr s)
    /\ d = VStr def
    /\ ((s <> "custom" /\ lookup s definedSchemes = Some def)
        \/ (s = "custom"
            /\ member options "schemeDefinition" = Ok (VStr def)
            /\ JS.trim def <> "")).
Proof.
  unfold getSchemeDefinition. intros H. bind_inv H. rename a into scheme.
  destruct (is_custom scheme) eqn:Hc; simpl in H.
  - apply is_custom_true in Hc. subst scheme.
    bind_inv H. rename a into sd. bind_inv H.
    destruct a; [discriminate |]. bind_inv H.
    destruct a; [discriminate |]. inversion H; subst d.
    destruct (missing_or_blank_false _ Ha1) as [def [-> Hdef]].
    exists "custom", def. repeat split; auto.
  - destruct (indexOf_found (map fst definedSchemes) scheme) eqn:Hf;
      simpl in H.
    + destruct (indexOf_found_lookup _ Hf) as [s [def [-> Hdef]]].
      inversion H; subst d. simpl. rewrite Hdef.
      exists s, def. repeat split; auto. left. split; [| exact Hdef].
      intros ->. simpl in Hc. discriminate.
    + bind_inv H. discriminate.
Qed.

(** X8: on options whose scheme and schemeDefinition are strings or
    missing, getSchemeDefinition throws one of two errors and nothing
    else: "Scheme ... is not defined." for a scheme that is missing or is
    neither "custom" nor in the preset table, and the missing-definition
    error for the scheme "custom". *)
Theorem getSchemeDefinition_throws (props : obj) (e : exn) :
  (JS.get props "scheme" = VUndefined
   \/ exists s, JS.get props "scheme" = VStr s) ->
  (JS.get props "schemeDefinition" = VUndefined
   \/ exists def, JS.get props "schemeDefinition" = VStr def) ->
  getSchemeDefinition definedSchemes (VObj props) = Throw e ->
  (exists s,
      JS.toString (JS.get props "scheme") = Ok s
      /\ JS.get props "scheme" <> VStr "custom"
      /\ indexOf_found (map fst definedSchemes) (JS.get props "scheme") = false
      /\ e = Error ("Scheme " ++ s ++ " is not defined."))
  \/ (JS.get props "scheme" = VStr "custom"
      /\ e = Error no_custom_definition).
Proof.
  intros Hs Hd. unfold getSchemeDefinition. simpl member. simpl bind.
  destruct (is_custom (JS.get props "scheme")) eqn:Hc; simpl.
  - apply is_custom_true in Hc. intros H. right. split; [exact Hc |].
    destruct Hd as [Hd | [def Hd]]; rewrite Hd in H; simpl in H.
    + now inversion H.
    + unfold missing_or_blank in H. simpl in H.
      destruct (def =? ""); simpl in H; [now inversion H |].
      destruct (JS.trim def =? ""); simpl in H; [now inversion H |].
      discriminate H.
  - destruct (indexOf_found (map fst definedSchemes) (JS.get props "scheme"))
      eqn:Hf; simpl; [discriminate |].
    intros H. left.
    destruct Hs as [Hu | [s Hstr]].
    + rewrite Hu in *. simpl in H. exists "undefined".
      inversion H. repeat split; auto. discriminate.
    + rewrite Hstr in *. simpl in H. exists s.
      inversion H. repeat split; auto.
      intros Heq. inversion Heq; subst. simpl in Hc.
      discriminate.
Qed.

(** The resolver looks at the scheme and at the schemeDefinition of the
    options, and at nothing else. *)
Lemma getSchemeDefinition_ext (o1 o2 : value) :
  member o1 "scheme" = member o2 "scheme" ->
  member o1 "schemeDefinition" = member o2 "schemeDefinition" ->
  getSchemeDefinition definedSchemes o1
  = getSchemeDefinition definedSchemes o2.
Proof.
  intros Hs Hd. unfold getSchemeDefinition. now rewrite Hs, Hd.
Qed.

Lemma getSchemeDefinition_string (options d : value) :
  getSchemeDefinition definedSchemes options = Ok d ->
  exists def, d = VStr def.
Proof.
  unfold getSchemeDefinition. intros H. bind_inv H. rename a into scheme.
  destruct (is_custom scheme) eqn:Hc; simpl in H.
  - bind_inv H. bind_inv H. destruct a0; [discriminate |]. bind_inv H.
    destruct a0; [discriminate |]. inversion H; subst d.
    destruct (missing_or_blank_false _ Ha1) as [def [-> _]]. eauto.
  - destruct (indexOf_found (map fst definedSchemes) scheme) eqn:Hf;
      simpl in H.
    + destruct (indexOf_found_lookup _ Hf) as [s [def [-> Hdef]]].
      inversion H; subst d. simpl. rewrite Hdef. eauto.
    + bind_inv H. discriminate.
Qed.

Lemma update_same (o : obj) (k : string) (v : value) :
  JS.own o k = Some v -> JS.update o k v = o.
Proof.
  induction o as [| [k' v'] r IH]; simpl; [reflexivity |].
  destruct (String.eqb_spec k' k) as [-> | Hne].
  - intros H. now inversion H.
  - intros H. now rewrite IH.
Qed.

Lemma assign_same (o : obj) (k : string) (v : value) :
  JS.own o k = Some v -> JS.assign o k v = o.
Proof.
  intros H. unfold JS.assign, JS.has_own. rewrite H.
  now apply update_same.
Qed.

(** Options that hold the definition their scheme resolves to are left
    as they are. *)
Lemma normalizeOptions_fixed (p : obj) (d : value) :
  getSchemeDefinition definedSchemes (VObj p) = Ok d ->
  JS.own p "schemeDefinition" = Some d ->
  normalizeOptions definedSchemes (VObj p)
  = ([Resolve (VObj p)], Ok (VObj p)).
Proof.
  intros Hd Hown.
  unfold normalizeOptions, resolve, try_catch, mbind, tell, lift.
  rewrite Hd. simpl. now rewrite (assign_same _ _ Hown).
Qed.

(** X9: normalizeOptions is idempotent and changes nothing but
    schemeDefinition: after it has returned, every other property of the
    options reads as before, and a second call returns the same options
    again. *)
Theorem normalizeOptions_idempotent
        (options o1 : value) (log : list event) :
  normalizeOptions definedSchemes options = (log, Ok o1) ->
  (forall k, k <> "schemeDefinition" -> member o1 k = member options k)
  /\ normalizeOptions definedSchemes o1 = ([Resolve o1], Ok o1).
Proof.
  intros H. apply normalizeOptions_Ok in H. destruct H as [_ [d [Hd Hset]]].
  destruct (@getSchemeDefinition_stored _ _ _ _ Hd Hset) as [Hagain Hstored].
  destruct options as [| | b | n | s | elems | props];
    try (unfold getSchemeDefinition in Hd; simpl in Hd; discriminate Hd).
  simpl in Hset. inversion Hset; subst o1. split.
  - intros k Hk. simpl. unfold JS.get.
    now rewrite ObjFacts.own_assign_other.
  - apply (normalizeOptions_fixed _ Hagain).
    rewrite ObjFacts.own_assign_same. simpl. now rewrite orb_true_r.
Qed.

End MoreSchemeDefinition.

Lemma getSchemeDefinition_returns_witness :
  exists s def,
    member (VObj [("scheme", VStr "semantic");
                  ("schemeDefinition", VStr "stale")]) "scheme"
    = Ok (VStr s)
    /\ VStr "major.minor[.build]" = VStr def
    /\ ((s <> "custom" /\ lookup s sample_schemes = Some def)
        \/ (s = "custom"
            /\ member (VObj [("scheme", VStr "semantic");
                             ("schemeDefinition", VStr "stale")])
                      "schemeDefinition" = Ok (VStr def)
            /\ JS.trim def <> "")).
Proof.
  apply (@getSchemeDefinition_returns sample_schemes).
  reflexivity.
Defined.

Lemma getSchemeDefinition_throws_witness :
  (exists s,
      JS.toString (JS.get [("schemeDefinition", VStr "major.minor")] "scheme")
      = Ok s
      /\ JS.get [("schemeDefinition", VStr "major.minor")] "scheme"
         <> VStr "custom"
      /\ indexOf_found (map fst sample_schemes)
           (JS.get [("schemeDefinition", VStr "major.minor")] "scheme")
         = false
      /\ Error "Scheme undefined is not defined."
         = Error ("Scheme " ++ s ++ " is not defined."))
  \/ (JS.get [("schemeDefinition", VStr "major.minor")] "scheme"
      = VStr "custom"
      /\ Error "Scheme undefined is not defined."
         = Error no_custom_definition).
Proof.
  apply (@getSchemeDefinition_throws sample_schemes
           [("schemeDefinition", VStr "major.minor")]).
  - left. reflexivity.
  - right. exists "major.minor". reflexivity.
  - reflexivity.
Defined.

Lemma normalizeOptions_idempotent_witness :
  (forall k, k <> "schemeDefinition" ->
             member (VObj [("scheme", VStr "semantic");
                           ("schemeDefinition", VStr "major.minor[.build]")]) k
             = member (VObj [("scheme", VStr "semantic")]) k)
  /\ normalizeOptions sample_schemes
       (VObj [("scheme", VStr "semantic");
              ("schemeDefinition", VStr "major.minor[.build]")])
     = ([Resolve (VObj [("scheme", VStr "semantic");
                        ("schemeDefinition", VStr "major.minor[.build]")])],
        Ok (VObj [("scheme", VStr "semantic");
                  ("schemeDefinition", VStr "major.minor[.build]")])).
Proof.
  apply (@normalizeOptions_idempotent sample_schemes
           (VObj [("scheme", VStr "semantic")]) _
           [Resolve (VObj [("scheme", VStr "semantic")])]).
  reflexivity.
Defined.

(** ** More on the branches *)

Lemma substring_short (n : nat) (s : string) :
  (String.length s <= n)%nat -> JS.substring n s = "".
Proof.
  revert s. induction n as [| n IH]; intros [| c s]; simpl; intros H;
    try reflexivity; try lia.
  apply IH. lia.
Qed.

Lemma substring_any_prefix (p b : string) :
  JS.substring (String.length p) (p ++ b) = b.
Proof. induction p as [| c p IH]; simpl; [reflexivity | exact IH]. Qed.

(** X10: outside the pull-request trigger the two branch functions do not
    look at what the first eleven characters of GITHUB_REF are: they drop
    them, whatever they are, and a ref of eleven characters or fewer
    gives the empty branch name. *)
Theorem branch_drops_eleven_characters
        (env : Env) (trigger : RuleTrigger) (ref : string) :
  trigger <> pull_request ->
  process_env env "GITHUB_REF" = Some ref ->
  (forall prefix b,
      ref = (prefix ++ b)%string -> String.length prefix = 11%nat ->
      outcome (getBranchFromTrigger env trigger) = Ok b
      /\ outcome (getDestBranchFromTrigger env trigger) = Ok b)
  /\ ((String.length ref <= 11)%nat ->
      outcome (getBranchFromTrigger env trigger) = Ok ""
      /\ outcome (getDestBranchFromTrigger env trigger) = Ok "").
Proof.
  intros Hne Href.
  unfold getBranchFromTrigger, getDestBranchFromTrigger.
  rewrite !outcome_tell_bind.
  assert (Hb : forall b,
             JS.substring (String.length "refs/heads/") ref = b ->
             outcome (ret match trigger with
                          | pull_request =>
                              or_empty (process_env env "GITHUB_HEAD_REF")
                          | _ => or_empty
                                   (option_map
                                      (JS.substring (String.length "refs/heads/"))
                                      (process_env env "GITHUB_REF"))
                          end) = Ok b
             /\ outcome (ret match trigger with
                             | pull_request =>
                                 or_empty (process_env env "GITHUB_BASE_REF")
                             | _ => or_empty
                                      (option_map
                                         (JS.substring
                                            (String.length "refs/heads/"))
                                         (process_env env "GITHUB_REF"))
                             end) = Ok b).
  { intros b <-. rewrite Href.
    destruct trigger; try congruence; split; reflexivity. }
  split.
  - intros prefix b -> Hlen. apply Hb.
    change (String.length "refs/heads/") with 11%nat. rewrite <- Hlen.
    apply substring_any_prefix.
  - intros Hlen. apply Hb. now apply substring_short.
Qed.

Lemma branch_drops_eleven_characters_witness :
  (outcome (getBranchFromTrigger
              (with_ref "refs/tags/v1.2.3"
                 (sample_env "push" None no_input no_file)) commit)
   = Ok "1.2.3"
   /\ outcome (getDestBranchFromTrigger
                 (with_ref "refs/tags/v1.2.3"
                    (sample_env "push" None no_input no_file)) commit)
      = Ok "1.2.3")
  /\ (outcome (getBranchFromTrigger
                 (with_ref "refs/heads"
                    (sample_env "push" None no_input no_file)) manual)
      = Ok ""
      /\ outcome (getDestBranchFromTrigger
                    (with_ref "refs/heads"
                       (sample_env "push" None no_input no_file)) manual)
         = Ok "").
Proof.
  split.
  - refine (proj1 (@branch_drops_eleven_characters
                     _ commit "refs/tags/v1.2.3" _ _)
                  "refs/tags/v" "1.2.3" _ _);
      [discriminate | reflexivity | reflexivity | reflexivity].
  - refine (proj2 (@branch_drops_eleven_characters
                     _ manual "refs/heads" _ _) _);
      [discriminate | reflexivity | simpl; lia].
Defined.

(** ** A returning run of [getBumperOptions], step by step *)

Lemma append_eq_empty (a b : string) :
  (a ++ b)%string = "" -> a = "" /\ b = "".
Proof. destruct a; simpl; [auto | discriminate]. Qed.

Lemma errors_quiet (l : list event) (message : string) :
  errors_of l = "" -> ~ In (ConsoleError message) l.
Proof.
  induction l as [| e r IH]; simpl; [tauto |].
  intros H [-> | Hin].
  - simpl in H. apply append_eq_empty in H. destruct H as [H _].
    apply append_eq_empty in H. destruct H as [_ H]. discriminate H.
  - apply append_eq_empty in H. destruct H as [_ H]. now apply IH.
Qed.

Lemma gathers_clean (s : locals) (m : M locals) (l : list event)
      (s' : locals) :
  gathers s m -> m = (l, Ok s') -> error s' = "" ->
  error s = "" /\ errors_of l = "".
Proof.
  intros Hg -> He. simpl in Hg. rewrite He in Hg. symmetry in Hg.
  now apply append_eq_empty in Hg.
Qed.

Ltac gathers_fact m :=
  lazymatch m with
  | check_scheme ?e ?s => constr:(@check_scheme_gathers e s)
  | check_customScheme ?e ?s => constr:(@check_customScheme_gathers e s)
  | resolve_scheme ?d ?s => constr:(@resolve_scheme_gathers d s)
  | check_versionFile ?p ?e ?s => constr:(@check_versionFile_gathers p e s)
  | check_files ?p ?e ?s => constr:(@check_files_gathers p e s)
  | check_rules ?p ?e ?s => constr:(@check_rules_gathers p e s)
  | store_input ?e ?k ?s => constr:(@store_input_gathers e k s)
  end.

Ltac clean_back :=
  repeat
    match goal with
    | Hs : ?m = (?l, Ok ?s'), Hc : error ?s' = "" |- _ =>
        lazymatch goal with
        | _ : errors_of l = "" |- _ => fail
        | _ => idtac
        end;
        let g := gathers_fact m in
        let H1 := fresh "Hclean" in
        let H2 := fresh "Hquiet" in
        destruct (@gathers_clean _ _ _ _ g Hs Hc) as [H1 H2]
    end.

Lemma getBumperOptions_Ok_inv
      (definedSchemes : list (string * string))
      (JSON_parse : string -> result value) (env : Env)
      (log : list event) (o : value) :
  getBumperOptions definedSchemes JSON_parse env = (log, Ok o) ->
  returning_run definedSchemes JSON_parse env log o.
Proof.
  unfold getBumperOptions. intros H. m_inv H.
  match type of H with
  | context [error ?s =? ""] => destruct (error s =? "") eqn:He
  end; [| discriminate H].
  apply String.eqb_eq in He. cbn in H. inversion H; subst. clear H.
  clean_back.
  match goal with
  | Hread : read_options_file JSON_parse env = _ |- _ =>
      destruct (read_options_file_returns JSON_parse env)
        as [l0 [o0 [Hr Hq0]]];
      rewrite Hread in Hr; inversion Hr; subst l0 o0
  end.
  econstructor; try eassumption; try reflexivity;
    repeat split; assumption.
Qed.

(** ** What the steps of [getBumperOptions] leave untouched *)

Lemma same_member_refl (k : string) (s : locals) : same_member k s s.
Proof. intros p Hp. eauto. Qed.

Lemma same_member_trans (k : string) (s1 s2 s3 : locals) :
  same_member k s1 s2 -> same_member k s2 s3 -> same_member k s1 s3.
Proof.
  intros H12 H23 p Hp. destruct (H12 p Hp) as [p2 [Hp2 Ho2]].
  destruct (H23 p2 Hp2) as [p3 [Hp3 Ho3]].
  exists p3. split; [exact Hp3 | congruence].
Qed.

Lemma keeps_ret (k : string) (s : locals) : keeps k s (ret s).
Proof. apply same_member_refl. Qed.

Lemma keeps_err (k : string) (message : string) (s : locals) :
  keeps k s (err message s).
Proof. intros p Hp. simpl. eauto. Qed.

Lemma keeps_store (k k' : string) (v : value) (s : locals) :
  k <> k' -> keeps k s (store k' v s).
Proof.
  intros Hne. unfold store, mbind, lift.
  destruct (set_member (bumperOptions s) k' v) as [o | e] eqn:Hset;
    simpl; [| exact I].
  intros p Hp. rewrite Hp in Hset. simpl in Hset. inversion Hset; subst o.
  eexists. split; [reflexivity |].
  now apply ObjFacts.own_assign_other.
Qed.

Lemma keeps_lift_bind {A : Type} (k : string) (s : locals) (r : result A)
      (f : A -> M locals) :
  (forall a, keeps k s (f a)) -> keeps k s (a <~ lift r ;; f a).
Proof.
  intros Hf. destruct r as [a | e]; simpl; [| exact I].
  specialize (Hf a). destruct (f a) as [l [s' | e]]; simpl in *; auto.
Qed.

Lemma keeps_bind (k : string) (s : locals) (m : M locals)
      (f : locals -> M locals) :
  keeps k s m -> (forall s', keeps k s' (f s')) -> keeps k s (mbind m f).
Proof.
  intros Hm Hf. destruct m as [l [s1 | e]]; simpl in *; [| exact I].
  specialize (Hf s1). destruct (f s1) as [l' [s2 | e]]; simpl in *;
    [| exact I].
  eapply same_member_trans; eassumption.
Qed.

Lemma keeps_try_catch (k : string) (s : locals) (m : M locals)
      (h : exn -> M locals) :
  keeps k s m -> (forall e, keeps k s (h e)) -> keeps k s (try_catch m h).
Proof.
  intros Hm Hh. destruct m as [l [s1 | e]]; simpl in *; [exact Hm |].
  specialize (Hh e). destruct (h e) as [l' [s2 | e']]; simpl in *; auto.
Qed.

Section Keeping.
Variable definedSchemes : list (string * string).
Variable JSON_parse : string -> result value.
Variable env : Env.
Variable k : string.

Lemma check_scheme_keeps (s : locals) :
  k <> "scheme" -> keeps k s (check_scheme env s).
Proof.
  intros Hk. unfold check_scheme. destruct (nonempty (getInput env "scheme")).
  - now apply keeps_store.
  - apply keeps_lift_bind. intros [|]; [apply keeps_err | apply keeps_ret].
Qed.

Lemma check_customScheme_keeps (s : locals) :
  k <> "scheme" -> k <> "schemeDefinition" ->
  keeps k s (check_customScheme env s).
Proof.
  intros Hk1 Hk2. unfold check_customScheme.
  destruct (nonblank (getInput env "custom-scheme")); [| apply keeps_ret].
  apply keeps_bind; [now apply keeps_store |].
  intros s'. now apply keeps_store.
Qed.

Lemma resolve_scheme_keeps (s : locals) :
  k <> "schemeDefinition" -> keeps k s (resolve_scheme definedSchemes s).
Proof.
  intros Hk. unfold resolve_scheme. apply keeps_try_catch.
  - unfold resolve, mbind, tell, lift.
    destruct (getSchemeDefinition definedSchemes (bumperOptions s))
      as [d | e]; simpl; [| exact I].
    pose proof (@keeps_store k "schemeDefinition" d s Hk) as H.
    destruct (store "schemeDefinition" d s) as [l [s' | e]]; simpl in *;
      auto.
  - intros e. apply keeps_err.
Qed.

Lemma store_files_keeps (array : result value) (s : locals) :
  k <> "files" -> keeps k s (store_files array s).
Proof.
  intros Hk. unfold store_files.
  do 4 (apply keeps_lift_bind; intros ?). now apply keeps_store.
Qed.

Lemma check_versionFile_keeps (s : locals) :
  k <> "versionFile" -> keeps k s (check_versionFile JSON_parse env s).
Proof.
  intros Hk. unfold check_versionFile.
  destruct (nonblank (getInput env "version-file")).
  - apply keeps_try_catch.
    + apply keeps_lift_bind. intros v. now apply keeps_store.
    + intros e. now apply keeps_store.
  - apply keeps_lift_bind. intros [|]; [apply keeps_err |].
    do 2 (apply keeps_lift_bind; intros ?). now apply keeps_store.
Qed.

Lemma check_files_keeps (s : locals) :
  k <> "files" -> keeps k s (check_files JSON_parse env s).
Proof.
  intros Hk. unfold check_files. destruct (nonblank (getInput env "files")).
  - apply keeps_try_catch.
    + apply keeps_lift_bind. intros filesArray.
      destruct (negb (JS.isArray filesArray));
        [apply keeps_err | now apply store_files_keeps].
    + intros e. apply keeps_err.
  - apply keeps_lift_bind. intros [|]; [apply keeps_err |].
    now apply store_files_keeps.
Qed.

Lemma check_rules_keeps (s : locals) :
  k <> "rules" -> keeps k s (check_rules JSON_parse env s).
Proof.
  intros Hk. unfold check_rules. destruct (nonblank (getInput env "rules")).
  - apply keeps_try_catch.
    + apply keeps_lift_bind. intros rulesArray.
      destruct (negb (JS.isArray rulesArray));
        [apply keeps_err | now apply keeps_store].
    + intros e. apply keeps_err.
  - apply keeps_lift_bind. intros [|]; [apply keeps_err | apply keeps_ret].
Qed.

Lemma store_input_keeps_member (k' : string) (s : locals) :
  k <> k' \/ getInput env k' = "" -> keeps k s (store_input env k' s).
Proof.
  intros Hk. unfold store_input, nonempty.
  destruct (String.eqb_spec (getInput env k') "") as [He | Hne]; simpl.
  - apply keeps_ret.
  - destruct Hk as [Hk | Hk]; [now apply keeps_store | contradiction].
Qed.

End Keeping.

Lemma keeps_Ok (k : string) (s s' : locals) (m : M locals)
      (l : list event) :
  keeps k s m -> m = (l, Ok s') -> same_member k s s'.
Proof. intros H ->. exact H. Qed.

(** From the scheme resolution to the end of a returning run, the scheme
    and its definition are not touched; from the file list on, neither
    are the version file and the file list. *)
Lemma returning_run_keeps
      (JSON_parse : string -> result value) (env : Env)
      (s3 s4 s5 s6 s7 s8 s9 : locals) (l4 l5 l6 l7 l8 l9 : list event) :
  check_versionFile JSON_parse env s3 = (l4, Ok s4) ->
  check_files JSON_parse env s4 = (l5, Ok s5) ->
  check_rules JSON_parse env s5 = (l6, Ok s6) ->
  store_input env "skip" s6 = (l7, Ok s7) ->
  store_input env "username" s7 = (l8, Ok s8) ->
  store_input env "email" s8 = (l9, Ok s9) ->
  (forall k, k = "scheme" \/ k = "schemeDefinition" -> same_member k s3 s9)
  /\ (forall k, k = "scheme" \/ k = "schemeDefinition" -> same_member k s3 s4)
  /\ (forall k, k = "versionFile" \/ k = "files" -> same_member k s5 s9).
Proof.
  intros H4 H5 H6 H7 H8 H9.
  assert (Hlate : forall k,
             k <> "rules" -> k <> "skip" -> k <> "username" ->
             k <> "email" -> same_member k s5 s9).
  { intros k Hr Hs Hu He.
    eapply same_member_trans;
      [exact (@keeps_Ok _ _ _ _ _ (@check_rules_keeps JSON_parse env k s5 Hr) H6) |].
    eapply same_member_trans;
      [exact (@keeps_Ok _ _ _ _ _ (@store_input_keeps_member env k "skip" s6
                          (or_introl Hs)) H7) |].
    eapply same_member_trans;
      [exact (@keeps_Ok _ _ _ _ _ (@store_input_keeps_member env k "username" s7
                          (or_introl Hu)) H8) |].
    exact (@keeps_Ok _ _ _ _ _ (@store_input_keeps_member env k "email" s8
                       (or_introl He)) H9). }
  assert (H34 : forall k, k <> "versionFile" -> same_member k s3 s4).
  { intros k Hk.
    exact (@keeps_Ok _ _ _ _ _ (@check_versionFile_keeps JSON_parse env k s3 Hk) H4). }
  assert (H45 : forall k, k <> "files" -> same_member k s4 s5).
  { intros k Hk.
    exact (@keeps_Ok _ _ _ _ _ (@check_files_keeps JSON_parse env k s4 Hk) H5). }
  split; [| split].
  - intros k [-> | ->];
      (eapply same_member_trans; [apply H34; discriminate |];
       eapply same_member_trans; [apply H45; discriminate |];
       apply Hlate; discriminate).
  - intros k [-> | ->]; apply H34; discriminate.
  - intros k [-> | ->]; apply Hlate; discriminate.
Qed.

(** ** What a returning run of [getBumperOptions] has stored *)

Lemma try_catch_Ok_inv {A : Type} (m : M A) (h : exn -> M A)
      (l : list event) (a : A) :
  try_catch m h = (l, Ok a) ->
  m = (l, Ok a)
  \/ exists l1 e l2, m = (l1, Throw e) /\ h e = (l2, Ok a) /\ l = l1 ++ l2.
Proof.
  destruct m as [l1 [a1 | e]]; simpl.
  - intros H. left. exact H.
  - destruct (h e) as [l2 r] eqn:Hh. intros H. inversion H; subst.
    right. exists l1, e, l2. auto.
Qed.

(** A piece of output that holds a console error is not quiet. *)
Ltac noisy Hq :=
  exfalso; eapply errors_quiet; [exact Hq |]; subst; simpl;
  first [ solve [repeat first [left; reflexivity | right]]
        | solve [apply in_or_app; right; simpl;
                 repeat first [left; reflexivity | right]] ].

Lemma set_member_own (o o' : value) (k : string) (v : value) :
  set_member o k v = Ok o' -> (k =? "__proto__") = false ->
  exists p', o' = VObj p' /\ JS.own p' k = Some v.
Proof.
  intros H Hk.
  destruct o; simpl in H; try discriminate H; inversion H; subst;
    eexists; (split; [reflexivity |]);
    rewrite ObjFacts.own_assign_same, Hk, orb_true_r; reflexivity.
Qed.

Lemma store_Ok (k : string) (v : value) (s s' : locals) (l : list event) :
  store k v s = (l, Ok s') ->
  set_member (bumperOptions s) k v = Ok (bumperOptions s')
  /\ error s' = error s /\ l = [].
Proof.
  unfold store, mbind, lift.
  destruct (set_member (bumperOptions s) k v) as [o | e]; simpl;
    [| discriminate].
  intros H. inversion H; subst. auto.
Qed.

Section Stored.
Import JS ObjFacts.
Variable definedSchemes : list (string * string).
Variable JSON_parse : string -> result value.
Variable env : Env.

Lemma resolve_scheme_Ok (s s' : locals) (l : list event) :
  resolve_scheme definedSchemes s = (l, Ok s') -> errors_of l = "" ->
  exists d,
    getSchemeDefinition definedSchemes (bumperOptions s) = Ok d
    /\ set_member (bumperOptions s) "schemeDefinition" d
       = Ok (bumperOptions s').
Proof.
  unfold resolve_scheme. intros H Hq.
  apply try_catch_Ok_inv in H.
  destruct H as [H | [l1 [e [l2 [_ [Herr ->]]]]]].
  - m_inv H. unfold resolve, mbind, tell, lift in Hstep.
    destruct (getSchemeDefinition definedSchemes (bumperOptions s))
      as [d | e0]; [| discriminate Hstep].
    inversion Hstep; subst. exists a. split; [reflexivity |].
    now apply store_Ok in H.
  - cbn in Herr. inversion Herr; subst. noisy Hq.
Qed.

Lemma store_files_Ok (array : result value) (s s' : locals)
      (l : list event) :
  store_files array s = (l, Ok s') ->
  exists vf a elems fs,
    member (bumperOptions s) "versionFile" = Ok vf
    /\ array = Ok a
    /\ iterate a = Ok elems
    /\ normalizeFiles (vf :: elems) = Ok fs
    /\ set_member (bumperOptions s) "files"
                  (VArr (map value_of_VersionFile fs))
       = Ok (bumperOptions s').
Proof.
  unfold store_files. intros H. m_inv H. apply store_Ok in H.
  destruct H as [H _]. eauto 10.
Qed.

Lemma check_files_Ok (s s' : locals) (l : list event) :
  check_files JSON_parse env s = (l, Ok s') -> errors_of l = "" ->
  exists given l',
    (if nonblank (getInput env "files")
     then JSON_parse (getInput env "files")
     else member (bumperOptions s) "files") = Ok (VArr given)
    /\ store_files (Ok (VArr given)) s = (l', Ok s').
Proof.
  unfold check_files. intros H Hq.
  destruct (nonblank (getInput env "files")).
  - apply try_catch_Ok_inv in H.
    destruct H as [H | [l1 [e [l2 [_ [Herr ->]]]]]].
    + m_inv H. destruct a; simpl in H;
        try (cbn in H; inversion H; subst; noisy Hq).
      eauto.
    + cbn in Herr. inversion Herr; subst. noisy Hq.
  - m_inv H. destruct a; [cbn in H; inversion H; subst; noisy Hq |].
    unfold undefined_or_no_array in Hstep. bind_inv Hstep.
    destruct (negb a); [discriminate Hstep |]. bind_inv Hstep.
    rewrite Ha0 in *. inversion Hstep as [Hv].
    apply orb_false_elim in Hv. destruct Hv as [_ Hv].
    apply negb_false_iff in Hv.
    destruct a0; try discriminate Hv. eauto.
Qed.

Lemma own_indexed_files (elems : list value) (i : N) :
  own (indexed i elems) "files" = None.
Proof.
  revert i. induction elems as [| x r IH]; intros i; simpl; [reflexivity |].
  rewrite IH. destruct (N.to_uint i); reflexivity.
Qed.

(** In a returning run the files that the file list is made of, when
    they are not those of the input, are those of the options file: no
    step before line 160 has touched them. *)
Lemma file_options_files (file_options : value) (s1 s2 s3 s4 : locals)
      (l1 l2 l3 l4 : list event) (given : list value) :
  check_scheme env {| bumperOptions := file_options; error := "" |}
  = (l1, Ok s1) ->
  errors_of l1 = "" ->
  check_customScheme env s1 = (l2, Ok s2) ->
  resolve_scheme definedSchemes s2 = (l3, Ok s3) ->
  check_versionFile JSON_parse env s3 = (l4, Ok s4) ->
  member (bumperOptions s4) "files" = Ok (VArr given) ->
  member file_options "files" = Ok (VArr given).
Proof.
  intros H1 Hq H2 H3 H4 Hm.
  assert (H14 : same_member "files" s1 s4).
  { eapply same_member_trans;
      [exact (@keeps_Ok _ _ _ _ _
                (@check_customScheme_keeps env "files" s1
                   ltac:(discriminate) ltac:(discriminate)) H2) |].
    eapply same_member_trans;
      [exact (@keeps_Ok _ _ _ _ _
                (@resolve_scheme_keeps definedSchemes "files" s2
                   ltac:(discriminate)) H3) |].
    exact (@keeps_Ok _ _ _ _ _
             (@check_versionFile_keeps JSON_parse env "files" s3
                ltac:(discriminate)) H4). }
  pose proof (@keeps_Ok _ _ _ _ _
                (@check_scheme_keeps env "files"
                   {| bumperOptions := file_options; error := "" |}
                   ltac:(discriminate)) H1) as H01.
  unfold check_scheme, store in H1.
  destruct file_options as [| | b | n | str | elems | props].
  - destruct (nonempty (getInput env "scheme")); discriminate H1.
  - destruct (nonempty (getInput env "scheme")); discriminate H1.
  - destruct (nonempty (getInput env "scheme")); [discriminate H1 |].
    cbn in H1. inversion H1; subst. noisy Hq.
  - destruct (nonempty (getInput env "scheme")); [discriminate H1 |].
    cbn in H1. inversion H1; subst. noisy Hq.
  - destruct (nonempty (getInput env "scheme")); [discriminate H1 |].
    cbn in H1. inversion H1; subst. noisy Hq.
  - destruct (nonempty (getInput env "scheme")).
    + cbn in H1. inversion H1; subst s1.
      destruct (H14 _ eq_refl) as [p4 [Hp4 Hown]].
      rewrite Hp4 in Hm. simpl in Hm. unfold get in Hm.
      rewrite Hown, own_assign_other, own_indexed_files in Hm
        by discriminate.
      discriminate Hm.
    + cbn in H1. inversion H1; subst. noisy Hq.
  - destruct (same_member_trans H01 H14 eq_refl) as [p4 [Hp4 Hown]].
    rewrite Hp4 in Hm. simpl in *. unfold get in *.
    now rewrite <- Hown.
Qed.

(** What [normalizeFiles] has returned, stored and normalised again. *)
Lemma normalizeFiles_stored (files : list value) (fs : list VersionFile) :
  normalizeFiles files = Ok fs ->
  normalizeFiles (map value_of_VersionFile fs) = Ok (filter other_path fs).
Proof.
  intros H. apply normalizeFiles_Ok in H.
  destruct H as [filez [_ [Hnd ->]]].
  exact (@normalizeFiles_entries_again _ Hnd).
Qed.

(** The scheme definition of the options that a run has returned. *)
Lemma getBumperOptions_Ok_resolved (log : list event) (o : value) :
  getBumperOptions definedSchemes JSON_parse env = (log, Ok o) ->
  exists def,
    member o "schemeDefinition" = Ok (VStr def)
    /\ getSchemeDefinition definedSchemes o = Ok (VStr def).
Proof.
  intros H. apply getBumperOptions_Ok_inv in H.
  destruct H as [fo s1 s2 s3 s4 s5 s6 s7 s8 s9 l0 l1 l2 l3 l4 l5 l6 l7 l8 l9
                    H0 H1 H2 H3 H4 H5 H6 H7 H8 H9 Ho Hq Hc Hlog].
  destruct Hq as [_ [_ [_ [Hq3 _]]]].
  destruct (@resolve_scheme_Ok _ _ _ H3 Hq3) as [d [Hd Hset]].
  destruct (@getSchemeDefinition_stored _ _ _ _ Hd Hset) as [Hagain _].
  destruct (@set_member_own _ _ _ _ Hset eq_refl) as [p3 [Hp3 Hown3]].
  destruct (@getSchemeDefinition_string _ _ _ Hagain) as [def ->].
  destruct (@returning_run_keeps _ _ _ _ _ _ _ _ _ _ _ _ _ _ _
              H4 H5 H6 H7 H8 H9)
    as [Hkeep _].
  destruct (Hkeep "scheme" (or_introl eq_refl) p3 Hp3) as [p9 [Hp9 Hs]].
  destruct (Hkeep "schemeDefinition" (or_intror eq_refl) p3 Hp3)
    as [p9' [Hp9' Hsd]].
  rewrite Hp9 in Hp9'. inversion Hp9'; subst p9'.
  rewrite Ho, Hp9. rewrite Hp3 in Hagain.
  exists def. split.
  - simpl. unfold get. now rewrite Hsd, Hown3.
  - rewrite <- Hagain.
    apply getSchemeDefinition_ext; simpl; unfold get;
      [now rewrite Hs | now rewrite Hsd].
Qed.

(** The file list of the options that a run has returned. *)
Lemma getBumperOptions_Ok_files (log : list event) (o : value) :
  getBumperOptions definedSchemes JSON_parse env = (log, Ok o) ->
  exists vf given fs,
    member o "versionFile" = Ok vf
    /\ given_files JSON_parse env = Ok (VArr given)
    /\ normalizeFiles (vf :: given) = Ok fs
    /\ member o "files" = Ok (VArr (map value_of_VersionFile fs))
    /\ getFiles o = Ok (filter other_path fs).
Proof.
  intros H. apply getBumperOptions_Ok_inv in H.
  destruct H as [fo s1 s2 s3 s4 s5 s6 s7 s8 s9 l0 l1 l2 l3 l4 l5 l6 l7 l8 l9
                    H0 H1 H2 H3 H4 H5 H6 H7 H8 H9 Ho Hq Hc Hlog].
  destruct Hq as [_ [Hq1 [_ [Hq3 [_ [Hq5 _]]]]]].
  destruct (@resolve_scheme_Ok _ _ _ H3 Hq3) as [d [_ Hset]].
  destruct (@set_member_own _ _ _ _ Hset eq_refl) as [p3 [Hp3 _]].
  destruct (@returning_run_keeps _ _ _ _ _ _ _ _ _ _ _ _ _ _ _
              H4 H5 H6 H7 H8 H9)
    as [_ [Hkeep34 Hkeep59]].
  destruct (Hkeep34 "scheme" (or_introl eq_refl) p3 Hp3) as [p4 [Hp4 _]].
  destruct (@check_files_Ok _ _ _ H5 Hq5) as [given [l' [Hgiven Hstore]]].
  destruct (@store_files_Ok _ _ _ _ Hstore)
    as [vf [a [elems [fs [Hvf [Ha [Hit [Hnorm Hsetf]]]]]]]].
  inversion Ha; subst a. simpl in Hit. inversion Hit; subst elems.
  assert (Hfiles : given_files JSON_parse env = Ok (VArr given)).
  { unfold given_files. rewrite H0. unfold outcome. simpl.
    destruct (nonblank (getInput env "files")); [exact Hgiven |].
    exact (@file_options_files _ _ _ _ _ _ _ _ _ _ H1 Hq1 H2 H3 H4 Hgiven). }
  rewrite Hp4 in Hvf, Hsetf. simpl in Hvf, Hsetf.
  inversion Hvf as [Hvf']. inversion Hsetf as [Hp5]. symmetry in Hp5.
  destruct (Hkeep59 "versionFile" (or_introl eq_refl) _ Hp5)
    as [p9 [Hp9 Hv9]].
  destruct (Hkeep59 "files" (or_intror eq_refl) _ Hp5) as [p9' [Hp9' Hf9]].
  rewrite Hp9 in Hp9'. inversion Hp9'; subst p9'.
  rewrite own_assign_other in Hv9 by discriminate.
  rewrite own_assign_same in Hf9. simpl in Hf9. rewrite orb_true_r in Hf9.
  exists vf, given, fs. rewrite Ho, Hp9.
  split; [| split; [| split; [| split]]].
  - simpl. unfold get in *. now rewrite Hv9.
  - exact Hfiles.
  - exact Hnorm.
  - simpl. unfold get. now rewrite Hf9.
  - unfold getFiles. simpl. unfold get. rewrite Hf9. simpl.
    exact (@normalizeFiles_stored _ _ Hnorm).
Qed.

(** X13: the options that getBumperOptions returns are already
    normalised: their schemeDefinition is a string, resolving their
    scheme again gives that string, and normalizeOptions leaves them as
    they are. *)
Theorem getBumperOptions_returns_normalized
        (log : list event) (o : value) :
  getBumperOptions definedSchemes JSON_parse env = (log, Ok o) ->
  exists def,
    member o "schemeDefinition" = Ok (VStr def)
    /\ getSchemeDefinition definedSchemes o = Ok (VStr def)
    /\ normalizeOptions definedSchemes o = ([Resolve o], Ok o).
Proof.
  intros H. apply getBumperOptions_Ok_inv in H.
  destruct H as [fo s1 s2 s3 s4 s5 s6 s7 s8 s9 l0 l1 l2 l3 l4 l5 l6 l7 l8 l9
                    H0 H1 H2 H3 H4 H5 H6 H7 H8 H9 Ho Hq Hc Hlog].
  destruct Hq as [_ [_ [_ [Hq3 _]]]].
  destruct (@resolve_scheme_Ok _ _ _ H3 Hq3) as [d [Hd Hset]].
  destruct (@getSchemeDefinition_stored _ _ _ _ Hd Hset) as [Hagain _].
  destruct (@set_member_own _ _ _ _ Hset eq_refl) as [p3 [Hp3 Hown3]].
  destruct (@getSchemeDefinition_string _ _ _ Hagain) as [def ->].
  destruct (@returning_run_keeps _ _ _ _ _ _ _ _ _ _ _ _ _ _ _
              H4 H5 H6 H7 H8 H9)
    as [Hkeep _].
  destruct (Hkeep "scheme" (or_introl eq_refl) p3 Hp3) as [p9 [Hp9 Hs]].
  destruct (Hkeep "schemeDefinition" (or_intror eq_refl) p3 Hp3)
    as [p9' [Hp9' Hsd]].
  rewrite Hp9 in Hp9'. inversion Hp9'; subst p9'.
  rewrite Ho, Hp9. rewrite Hp3 in Hagain.
  assert (Hres : getSchemeDefinition definedSchemes (VObj p9)
                 = Ok (VStr def)).
  { rewrite <- Hagain.
    apply getSchemeDefinition_ext; simpl; unfold get;
      [now rewrite Hs | now rewrite Hsd]. }
  exists def. split; [| split].
  - simpl. unfold get. now rewrite Hsd, Hown3.
  - exact Hres.
  - apply (@normalizeOptions_fixed _ _ _ Hres). congruence.
Qed.

(** X14: in the options that getBumperOptions returns, files is the
    list that normalizeFiles makes of the version file of these options
    followed by the files given (those of the files input, or of the
    options file when that input is blank).  getFiles returns that list
    without the entry of the path __proto__, so exactly that list when
    __proto__ is not among its paths, and only then. *)
Theorem getBumperOptions_returns_files
        (log : list event) (o : value) :
  getBumperOptions definedSchemes JSON_parse env = (log, Ok o) ->
  exists vf given fs,
    member o "versionFile" = Ok vf
    /\ given_files JSON_parse env = Ok (VArr given)
    /\ normalizeFiles (vf :: given) = Ok fs
    /\ member o "files" = Ok (VArr (map value_of_VersionFile fs))
    /\ getFiles o = Ok (filter other_path fs)
    /\ (getFiles o = Ok fs <-> ~ In "__proto__" (map path fs)).
Proof.
  intros H. apply getBumperOptions_Ok_files in H.
  destruct H as [vf [given [fs [Hvf [Hgiven [Hnorm [Hfiles Hget]]]]]]].
  exists vf, given, fs. repeat (split; [assumption |]).
  rewrite Hget, <- filter_other_path_id.
  split; intros Heq; congruence.
Qed.

End Stored.

Lemma getBumperOptions_returns_normalized_witness :
  exists def,
    member (outcome_value
              (getBumperOptions sample_schemes sample_parse
                 (sample_env "push" None (inputs "false")
                             (options_file options_text))))
           "schemeDefinition" = Ok (VStr def)
    /\ getSchemeDefinition sample_schemes
         (outcome_value
            (getBumperOptions sample_schemes sample_parse
               (sample_env "push" None (inputs "false")
                           (options_file options_text))))
       = Ok (VStr def)
    /\ normalizeOptions sample_schemes
         (outcome_value
            (getBumperOptions sample_schemes sample_parse
               (sample_env "push" None (inputs "false")
                           (options_file options_text))))
       = ([Resolve
             (outcome_value
                (getBumperOptions sample_schemes sample_parse
                   (sample_env "push" None (inputs "false")
                               (options_file options_text))))],
          Ok (outcome_value
                (getBumperOptions sample_schemes sample_parse
                   (sample_env "push" None (inputs "false")
                               (options_file options_text))))).
Proof.
  apply (@getBumperOptions_returns_normalized
           sample_schemes sample_parse
           (sample_env "push" None (inputs "false")
                       (options_file options_text))
           (output (getBumperOptions sample_schemes sample_parse
                      (sample_env "push" None (inputs "false")
                                  (options_file options_text))))).
  vm_compute. reflexivity.
Defined.

Lemma getBumperOptions_returns_files_witness :
  exists vf given fs,
    member (outcome_value
              (getBumperOptions sample_schemes sample_parse
                 (sample_env "push" None (inputs "false")
                             (options_file options_text))))
           "versionFile" = Ok vf
    /\ given_files sample_parse
         (sample_env "push" None (inputs "false")
                     (options_file options_text))
       = Ok (VArr given)
    /\ normalizeFiles (vf :: given) = Ok fs
    /\ member (outcome_value
                 (getBumperOptions sample_schemes sample_parse
                    (sample_env "push" None (inputs "false")
                                (options_file options_text))))
              "files" = Ok (VArr (map value_of_VersionFile fs))
    /\ getFiles (outcome_value
                   (getBumperOptions sample_schemes sample_parse
                      (sample_env "push" None (inputs "false")
                                  (options_file options_text))))
       = Ok (filter other_path fs)
    /\ (getFiles (outcome_value
                    (getBumperOptions sample_schemes sample_parse
                       (sample_env "push" None (inputs "false")
                                   (options_file options_text))))
        = Ok fs
        <-> ~ In "__proto__" (map path fs)).
Proof.
  apply (@getBumperOptions_returns_files
           sample_schemes sample_parse
           (sample_env "push" None (inputs "false")
                       (options_file options_text))
           (output (getBumperOptions sample_schemes sample_parse
                      (sample_env "push" None (inputs "false")
                                  (options_file options_text))))).
  vm_compute. reflexivity.
Defined.

(** ** The skip input, from the workflow to the state *)

Section SkipInput.
Variable definedSchemes : list (string * string).
Variable RegExp : Type.
Variable getSchemeRegex : value -> result RegExp.
Variable getCurVersion : value -> result string.
Variable getTag : value -> RuleTrigger -> string -> string -> result bool.
Variable bumpVersion :
  value -> RuleTrigger -> string -> string -> result string.

(** When every step of the assembly returns, the state is returned, made
    of what the steps have returned. *)
Lemma getBumperState_returns (env : Env) (options : value)
      (t : RuleTrigger) (b d : string) (sk : value) (r : RegExp)
      (def : value) (v : string) (unpinned : value) (v' : string)
      (tg : bool) (nv : string) (fs : list VersionFile) :
  outcome (getTrigger env) = Ok t ->
  outcome (getBranchFromTrigger env t) = Ok b ->
  outcome (getDestBranchFromTrigger env t) = Ok d ->
  getSkipOption options = Ok sk ->
  getSchemeRegex options = Ok r ->
  getSchemeDefinition definedSchemes options = Ok def ->
  getCurVersion options = Ok v ->
  path_only options = Ok unpinned ->
  getCurVersion unpinned = Ok v' ->
  getTag options t b d = Ok tg ->
  bumpVersion options t b d = Ok nv ->
  getFiles options = Ok fs ->
  exists log,
    getBumperState definedSchemes getSchemeRegex getCurVersion getTag
                   bumpVersion env options
    = (log, Ok {| curVersion := v; newVersion := nv; skip := sk;
                  schemeRegExp := r; schemeDefinition := def; tag := tg;
                  trigger := t; branch := b; destBranch := d;
                  files := fs; curAppVersion := v' |}).
Proof.
  intros Ht Hb Hd Hsk Hr Hdef Hv Hu Hv' Htg Hnv Hfs.
  unfold getBumperState, resolve, outcome in *.
  destruct (getTrigger env) as [lt rt]. simpl in Ht. subst rt.
  cbn [mbind].
  destruct (getBranchFromTrigger env t) as [lb rb]. simpl in Hb. subst rb.
  cbn [mbind].
  destruct (getDestBranchFromTrigger env t) as [ld rd]. simpl in Hd.
  subst rd.
  rewrite Hsk, Hr. cbn [mbind lift tell]. rewrite Hdef. cbn [mbind lift].
  rewrite Hv, Hu. cbn [mbind lift]. rewrite Hv', Htg, Hnv, Hfs.
  cbn. eexists. reflexivity.
Qed.

End SkipInput.

(** C10: getSkipOption returns options.skip when that is truthy and false
    otherwise, so also when it is unset.  getBumperOptions stores the skip
    input as the string it is, so after every non-empty skip input, the
    string "false" among them, the options hold that string, and the
    state assembled from them has that string, a truthy value, as its
    skip.  The state is assembled: when getBumperOptions has returned
    the options with a non-empty skip input, the event is one that
    getTrigger knows, the version file of the options can be read for its
    path and the functions of ./utils return, getBumperState returns a
    state, and its skip is the input string. *)
Theorem skip_input_string_is_truthy :
  (forall options v,
      member options "skip" = Ok v ->
      getSkipOption options = Ok (if JS.truthy v then v else VBool false))
  /\ (forall options,
         member options "skip" = Ok VUndefined ->
         getSkipOption options = Ok (VBool false))
  /\ (forall definedSchemes JSON_parse env log options,
         getBumperOptions definedSchemes JSON_parse env = (log, Ok options) ->
         getInput env "skip" <> "" ->
         member options "skip" = Ok (VStr (getInput env "skip")))
  /\ (forall (definedSchemes : list (string * string)) (RegExp : Type)
             (getSchemeRegex : value -> result RegExp)
             (getCurVersion : value -> result string)
             (getTag : value -> RuleTrigger -> string -> string -> result bool)
             (bumpVersion :
                value -> RuleTrigger -> string -> string -> result string)
             (env : Env) (options : value) (log : list event)
             (s : BumperState RegExp) (input : string),
         getBumperState definedSchemes getSchemeRegex getCurVersion getTag
                        bumpVersion env options = (log, Ok s) ->
         member options "skip" = Ok (VStr input) ->
         input <> "" ->
         skip s = VStr input /\ JS.truthy (skip s) = true)
  /\ (forall (definedSchemes : list (string * string))
             (JSON_parse : string -> result value) (RegExp : Type)
             (getSchemeRegex : value -> result RegExp)
             (getCurVersion : value -> result string)
             (getTag : value -> RuleTrigger -> string -> string -> result bool)
             (bumpVersion :
                value -> RuleTrigger -> string -> string -> result string)
             (env : Env) (log : list event) (options : value)
             (t : RuleTrigger) (b d : string) (r : RegExp)
             (v : string) (unpinned : value) (v' : string)
             (tg : bool) (nv : string),
         getBumperOptions definedSchemes JSON_parse env = (log, Ok options) ->
         getInput env "skip" <> "" ->
         outcome (getTrigger env) = Ok t ->
         outcome (getBranchFromTrigger env t) = Ok b ->
         outcome (getDestBranchFromTrigger env t) = Ok d ->
         getSchemeRegex options = Ok r ->
         getCurVersion options = Ok v ->
         path_only options = Ok unpinned ->
         getCurVersion unpinned = Ok v' ->
         getTag options t b d = Ok tg ->
         bumpVersion options t b d = Ok nv ->
         exists log' s,
           getBumperState definedSchemes getSchemeRegex getCurVersion getTag
                          bumpVersion env options = (log', Ok s)
           /\ skip s = VStr (getInput env "skip")
           /\ JS.truthy (skip s) = true).
Proof.
  assert (Hstored :
            forall definedSchemes JSON_parse env log options,
              getBumperOptions definedSchemes JSON_parse env
              = (log, Ok options) ->
              getInput env "skip" <> "" ->
              member options "skip" = Ok (VStr (getInput env "skip"))).
  { intros ds parse env log options H Hskip.
    unfold getBumperOptions in H. m_inv H.
    destruct (negb (error a8 =? "")); [discriminate H |].
    cbn in H. inversion H; subst.
    assert (Hdef : VStr (getInput env "skip") <> VUndefined) by discriminate.
    match goal with
    | Hsk : store_input env "skip" _ = _,
      Hun : store_input env "username" _ = _,
      Hem : store_input env "email" _ = _ |- _ =>
        apply (@store_input_keeps _ _ "skip" _ _ _ _ Hem);
        [discriminate | | exact Hdef];
        apply (@store_input_keeps _ _ "skip" _ _ _ _ Hun);
        [discriminate | | exact Hdef];
        exact (@store_input_sets _ _ _ _ _ Hsk Hskip eq_refl)
    end. }
  split; [| split; [| split; [| split]]].
  - intros options v Hv. unfold getSkipOption. rewrite Hv. reflexivity.
  - intros options Hv. unfold getSkipOption. rewrite Hv. reflexivity.
  - exact Hstored.
  - intros ds RegExp gsr gcv gt bv env options log s input H Hskip Hin.
    apply getBumperState_Ok in H.
    destruct H as [lt [u [_ [Hsk _]]]].
    unfold getSkipOption in Hsk. rewrite Hskip in Hsk. simpl in Hsk.
    apply String.eqb_neq in Hin. rewrite Hin in Hsk. simpl in Hsk.
    inversion Hsk. simpl. rewrite Hin. auto.
  - intros ds parse RegExp gsr gcv gt bv env log options t b d r v u v' tg nv
           Hrun Hskip Ht Hb Hd Hr Hv Hu Hv' Htg Hnv.
    pose proof (Hstored _ _ _ _ _ Hrun Hskip) as Hmember.
    destruct (@getBumperOptions_Ok_resolved _ _ _ _ _ Hrun)
      as [def [_ Hdef]].
    destruct (@getBumperOptions_Ok_files _ _ _ _ _ Hrun)
      as [vf [given [fs [_ [_ [_ [_ Hfiles]]]]]]].
    assert (Hsk : getSkipOption options = Ok (VStr (getInput env "skip"))).
    { unfold getSkipOption. rewrite Hmember. simpl.
      apply String.eqb_neq in Hskip. now rewrite Hskip. }
    destruct (@getBumperState_returns
                ds RegExp gsr gcv gt bv env options t b d _ r _ v u v' tg nv
                _ Ht Hb Hd Hsk Hr Hdef Hv Hu Hv' Htg Hnv Hfiles)
      as [log' Hstate].
    eexists _, _. split; [exact Hstate |]. simpl.
    apply String.eqb_neq in Hskip. rewrite Hskip. auto.
Qed.

Lemma skip_input_string_is_truthy_witness :
  exists log options log' s,
    getBumperOptions sample_schemes sample_parse
      (sample_env "push" None (inputs "false") (options_file options_text))
    = (log, Ok options)
    /\ getBumperState sample_schemes sample_getSchemeRegex
         sample_getCurVersion sample_getTag sample_bumpVersion
         (sample_env "push" None (inputs "false") (options_file options_text))
         options
       = (log', Ok s)
    /\ skip s = VStr "false"
    /\ JS.truthy (skip s) = true.
Proof.
  destruct (proj2 (proj2 (proj2 (proj2 skip_input_string_is_truthy)))
              sample_schemes sample_parse string
              sample_getSchemeRegex sample_getCurVersion sample_getTag
              sample_bumpVersion
              (sample_env "push" None (inputs "false")
                          (options_file options_text))
              (output (getBumperOptions sample_schemes sample_parse
                         (sample_env "push" None (inputs "false")
                                     (options_file options_text))))
              (outcome_value
                 (getBumperOptions sample_schemes sample_parse
                    (sample_env "push" None (inputs "false")
                                (options_file options_text))))
              commit "release/1.x" "release/1.x" "major.minor[.build]"
              "2.3.9"
              (VObj [("scheme", VStr "semantic");
                     ("versionFile", VObj [("path", VStr "VERSION")]);
                     ("files", VArr [VObj [("path", VStr "VERSION")];
                                     VObj [("path", VStr "README.md")]]);
                     ("rules", VArr []);
                     ("schemeDefinition", VStr "major.minor[.build]");
                     ("skip", VStr "false")])
              "2.3.9" false "2.3.9"
              ltac:(vm_compute; reflexivity)
              ltac:(simpl; discriminate)
              eq_refl eq_refl eq_refl eq_refl eq_refl eq_refl eq_refl
              eq_refl eq_refl)
    as [log' [s [Hstate [Hskip Htruthy]]]].
  exists (output (getBumperOptions sample_schemes sample_parse
                    (sample_env "push" None (inputs "false")
                                (options_file options_text)))),
         (outcome_value
            (getBumperOptions sample_schemes sample_parse
               (sample_env "push" None (inputs "false")
                           (options_file options_text)))),
         log', s.
  split; [vm_compute; reflexivity |].
  split; [exact Hstate |].
  split; [exact Hskip | exact Htruthy].
Defined.

Lemma getBumperOptions_Error_is_aggregate_witness :
  (exists message,
      Error (errors_of
               (output (getBumperOptions sample_schemes sample_parse
                          (sample_env "push" None no_input no_file))))
      = Error message
      /\ message
         = errors_of (output (getBumperOptions sample_schemes sample_parse
                                (sample_env "push" None no_input no_file)))
      /\ message <> "")
  \/ (exists message,
         Error (errors_of
                  (output (getBumperOptions sample_schemes sample_parse
                             (sample_env "push" None no_input no_file))))
         = TypeError message).
Proof.
  apply (@getBumperOptions_Error_is_aggregate
           sample_schemes sample_parse
           (sample_env "push" None no_input no_file)).
  vm_compute. reflexivity.
Defined.

(** ** More on [getBumperOptions] *)

Lemma mbind_Ok_step {A B : Type} (l : list event) (a : A) (k : A -> M B) :
  mbind (l, Ok a) k = (l ++ output (k a), outcome (k a)).
Proof. simpl. destruct (k a); reflexivity. Qed.

Section MoreBumperOptions.
Import JS ObjFacts.
Variable definedSchemes : list (string * string).
Variable JSON_parse : string -> result value.
Variable env : Env.

(** X12: getBumperOptions returns only when no message has been passed
    to err: the output of a returning run holds no console error, and
    its last line is the JSON of the options returned. *)
Theorem getBumperOptions_returns_quietly (log : list event) (o : value) :
  getBumperOptions definedSchemes JSON_parse env = (log, Ok o) ->
  (forall message, ~ In (ConsoleError message) log)
  /\ exists l, log = l ++ [ConsoleLogJSON o].
Proof.
  intros H. apply getBumperOptions_Ok_inv in H.
  destruct H as [fo s1 s2 s3 s4 s5 s6 s7 s8 s9 l0 l1 l2 l3 l4 l5 l6 l7 l8 l9
                    H0 H1 H2 H3 H4 H5 H6 H7 H8 H9 Ho Hq Hc Hlog].
  destruct Hq as [Q0 [Q1 [Q2 [Q3 [Q4 [Q5 [Q6 [Q7 [Q8 Q9]]]]]]]]].
  split.
  - intros message. apply errors_quiet. rewrite Hlog.
    rewrite !errors_of_app, Q0, Q1, Q2, Q3, Q4, Q5, Q6, Q7, Q8, Q9.
    reflexivity.
  - exists (l0 ++ l1 ++ l2 ++ l3 ++ l4 ++ l5 ++ l6 ++ l7 ++ l8 ++ l9).
    rewrite Hlog. now rewrite <- !app_assoc.
Qed.

Lemma getSchemeDefinition_custom_Ok (o d : value) :
  member o "scheme" = Ok (VStr "custom") ->
  getSchemeDefinition definedSchemes o = Ok d ->
  member o "schemeDefinition" = Ok d.
Proof.
  intros Hs. unfold getSchemeDefinition. rewrite Hs. simpl.
  intros H. bind_inv H. bind_inv H. destruct a0; [discriminate |].
  bind_inv H. destruct a0; [discriminate |]. now inversion H; subst.
Qed.

(** X15: a custom-scheme input that is not blank decides the scheme:
    the options returned have the scheme "custom" and the input text,
    as it is, as their schemeDefinition, whatever the scheme input and
    the options file say. *)
Theorem custom_scheme_input_wins (log : list event) (o : value) :
  nonblank (getInput env "custom-scheme") = true ->
  getBumperOptions definedSchemes JSON_parse env = (log, Ok o) ->
  member o "scheme" = Ok (VStr "custom")
  /\ member o "schemeDefinition"
     = Ok (VStr (getInput env "custom-scheme")).
Proof.
  intros Hcustom H. apply getBumperOptions_Ok_inv in H.
  destruct H as [fo s1 s2 s3 s4 s5 s6 s7 s8 s9 l0 l1 l2 l3 l4 l5 l6 l7 l8 l9
                    H0 H1 H2 H3 H4 H5 H6 H7 H8 H9 Ho Hq Hc Hlog].
  destruct Hq as [_ [_ [_ [Hq3 _]]]].
  unfold check_customScheme in H2. rewrite Hcustom in H2. m_inv H2.
  apply store_Ok in Hstep, H2.
  destruct Hstep as [Hset1 _]. destruct H2 as [Hset2 _].
  destruct (@set_member_own _ _ _ _ Hset1 eq_refl) as [pa [Hpa Hsa]].
  rewrite Hpa in Hset2. simpl in Hset2. inversion Hset2 as [Hp2].
  symmetry in Hp2.
  assert (Hscheme2 : member (bumperOptions s2) "scheme"
                     = Ok (VStr "custom")).
  { rewrite Hp2. simpl. unfold get.
    rewrite own_assign_other by discriminate. now rewrite Hsa. }
  assert (Hdef2 : member (bumperOptions s2) "schemeDefinition"
                  = Ok (VStr (getInput env "custom-scheme"))).
  { rewrite Hp2. simpl. unfold get. rewrite own_assign_same. simpl.
    now rewrite orb_true_r. }
  destruct (@resolve_scheme_Ok _ _ _ _ H3 Hq3) as [d [Hd Hset3]].
  pose proof (getSchemeDefinition_custom_Ok _ Hscheme2 Hd) as Hd2.
  rewrite Hdef2 in Hd2. inversion Hd2; subst d.
  rewrite Hp2 in Hset3. simpl in Hset3. inversion Hset3 as [Hp3].
  symmetry in Hp3.
  destruct (@returning_run_keeps _ _ _ _ _ _ _ _ _ _ _ _ _ _ _
              H4 H5 H6 H7 H8 H9) as [Hkeep _].
  destruct (Hkeep "scheme" (or_introl eq_refl) _ Hp3) as [p9 [Hp9 Hs9]].
  destruct (Hkeep "schemeDefinition" (or_intror eq_refl) _ Hp3)
    as [p9' [Hp9' Hsd9]].
  rewrite Hp9 in Hp9'. inversion Hp9'; subst p9'.
  rewrite own_assign_other in Hs9 by discriminate.
  rewrite own_assign_other in Hs9 by discriminate.
  rewrite own_assign_same in Hsd9. simpl in Hsd9.
  rewrite orb_true_r in Hsd9.
  rewrite Ho, Hp9. simpl. unfold get. now rewrite Hs9, Hsa, Hsd9.
Qed.

(** X16: with no options file and no scheme input, getBumperOptions
    never returns, not even when a custom-scheme input gives the scheme:
    the scheme is tested before the custom scheme is looked at, the
    message "Scheme is not defined ..." is written, and the run ends in
    an exception. *)
Theorem scheme_input_needed_without_options_file :
  getInput env "options-file" = "" ->
  getInput env "scheme" = "" ->
  In (ConsoleError "Scheme is not defined in option file or workflow input.")
     (output (getBumperOptions definedSchemes JSON_parse env))
  /\ exists e,
      outcome (getBumperOptions definedSchemes JSON_parse env) = Throw e.
Proof.
  intros Hfile Hscheme.
  assert (Hread : read_options_file JSON_parse env = ([], Ok (VObj []))).
  { unfold read_options_file. rewrite Hfile. reflexivity. }
  assert (Hcheck : check_scheme env {| bumperOptions := VObj []; error := "" |}
                   = ([ConsoleError
                         "Scheme is not defined in option file or workflow input."],
                      Ok {| bumperOptions := VObj [];
                            error := "Scheme is not defined in option file or workflow input."
                                       ++ nl |})).
  { unfold check_scheme. rewrite Hscheme. reflexivity. }
  split.
  - unfold getBumperOptions. rewrite Hread, mbind_Ok_step. cbv beta.
    rewrite Hcheck, mbind_Ok_step. simpl. now left.
  - destruct (getBumperOptions definedSchemes JSON_parse env)
      as [log [o | e]] eqn:Hrun; [| simpl; eauto].
    exfalso. apply getBumperOptions_Ok_inv in Hrun.
    destruct Hrun as [fo s1 s2 s3 s4 s5 s6 s7 s8 s9
                         l0 l1 l2 l3 l4 l5 l6 l7 l8 l9
                         H0 H1 H2 H3 H4 H5 H6 H7 H8 H9 Ho Hq Hc Hlog].
    rewrite Hread in H0. inversion H0; subst fo l0.
    rewrite Hcheck in H1. inversion H1; subst.
    destruct Hc as [Hc _]. discriminate Hc.
Qed.

End MoreBumperOptions.

Section MoreBumperOptions2.
Import JS ObjFacts.
Variable definedSchemes : list (string * string).
Variable JSON_parse : string -> result value.
Variable env : Env.

Lemma read_options_file_warns :
  getInput env "options-file" <> "" ->
  existsSync env (getInput env "options-file") = false
  \/ (exists e, readFileSync env (getInput env "options-file") = Throw e)
  \/ (exists text e,
         readFileSync env (getInput env "options-file") = Ok text
         /\ JSON_parse text = Throw e) ->
  exists w,
    read_options_file JSON_parse env = ([ConsoleWarn w], Ok (VObj [])).
Proof.
  intros Hname Hcase. unfold read_options_file, nonempty.
  apply String.eqb_neq in Hname. rewrite Hname. simpl.
  destruct (existsSync env (getInput env "options-file")); simpl.
  - destruct Hcase as [Hno | [[e He] | [text [e [Ht He]]]]].
    + discriminate Hno.
    + rewrite He. simpl. eauto.
    + rewrite Ht. simpl. rewrite He. simpl. eauto.
  - eauto.
Qed.

(** X17: an options file that does not exist, cannot be read or does
    not parse is no error: the run writes one warning and goes on as the
    run without the options-file input does, with the same outcome and
    the same output after the warning. *)
Theorem unusable_options_file_only_warns :
  getInput env "options-file" <> "" ->
  existsSync env (getInput env "options-file") = false
  \/ (exists e, readFileSync env (getInput env "options-file") = Throw e)
  \/ (exists text e,
         readFileSync env (getInput env "options-file") = Ok text
         /\ JSON_parse text = Throw e) ->
  exists w,
    getBumperOptions definedSchemes JSON_parse env
    = (ConsoleWarn w
         :: output (getBumperOptions definedSchemes JSON_parse
                                     (without_options_file env)),
       outcome (getBumperOptions definedSchemes JSON_parse
                                 (without_options_file env))).
Proof.
  intros Hname Hcase.
  destruct (read_options_file_warns Hname Hcase) as [w Hread].
  exists w. unfold getBumperOptions. rewrite Hread.
  assert (Hread' : read_options_file JSON_parse (without_options_file env)
                   = ([], Ok (VObj []))) by reflexivity.
  rewrite Hread'. rewrite !mbind_Ok_step. reflexivity.
Qed.

(** X18: for skip, username and email, an input that is not empty is
    stored as the string it is and replaces what the options file says;
    with an empty input the value of the options file is kept as it
    is. *)
Theorem input_replaces_file_value (log : list event) (o : value) :
  getBumperOptions definedSchemes JSON_parse env = (log, Ok o) ->
  forall k,
    k = "skip" \/ k = "username" \/ k = "email" ->
    (getInput env k <> "" -> member o k = Ok (VStr (getInput env k)))
    /\ (getInput env k = "" ->
        forall l p,
          read_options_file JSON_parse env = (l, Ok (VObj p)) ->
          member o k = Ok (get p k)).
Proof.
  intros H. apply getBumperOptions_Ok_inv in H.
  destruct H as [fo s1 s2 s3 s4 s5 s6 s7 s8 s9 l0 l1 l2 l3 l4 l5 l6 l7 l8 l9
                    H0 H1 H2 H3 H4 H5 H6 H7 H8 H9 Ho Hq Hc Hlog].
  intros k Hk. split.
  - intros Hin.
    assert (Hdef : VStr (getInput env k) <> VUndefined) by discriminate.
    rewrite Ho. destruct Hk as [-> | [-> | ->]].
    + apply (@store_input_keeps _ _ "skip" _ _ _ _ H9);
        [discriminate | | exact Hdef].
      apply (@store_input_keeps _ _ "skip" _ _ _ _ H8);
        [discriminate | | exact Hdef].
      exact (@store_input_sets _ _ _ _ _ H7 Hin eq_refl).
    + apply (@store_input_keeps _ _ "username" _ _ _ _ H9);
        [discriminate | | exact Hdef].
      exact (@store_input_sets _ _ _ _ _ H8 Hin eq_refl).
    + exact (@store_input_sets _ _ _ _ _ H9 Hin eq_refl).
  - intros Hempty l p Hread. rewrite Hread in H0. inversion H0; subst fo l0.
    assert (Hkeep : same_member k {| bumperOptions := VObj p; error := "" |}
                                s9).
    { assert (Hne : k <> "scheme" /\ k <> "schemeDefinition"
                    /\ k <> "versionFile" /\ k <> "files" /\ k <> "rules")
        by (destruct Hk as [-> | [-> | ->]]; repeat split; discriminate).
      destruct Hne as [N1 [N2 [N3 [N4 N5]]]].
      assert (Hin : forall k', k <> k' \/ getInput env k' = "").
      { intros k'. destruct (String.eqb_spec k k') as [<- | Hd]; auto. }
      eapply same_member_trans;
        [exact (@keeps_Ok _ _ _ _ _ (@check_scheme_keeps env k _ N1) H1) |].
      eapply same_member_trans;
        [exact (@keeps_Ok _ _ _ _ _
                  (@check_customScheme_keeps env k _ N1 N2) H2) |].
      eapply same_member_trans;
        [exact (@keeps_Ok _ _ _ _ _
                  (@resolve_scheme_keeps definedSchemes k _ N2) H3) |].
      eapply same_member_trans;
        [exact (@keeps_Ok _ _ _ _ _
                  (@check_versionFile_keeps JSON_parse env k _ N3) H4) |].
      eapply same_member_trans;
        [exact (@keeps_Ok _ _ _ _ _
                  (@check_files_keeps JSON_parse env k _ N4) H5) |].
      eapply same_member_trans;
        [exact (@keeps_Ok _ _ _ _ _
                  (@check_rules_keeps JSON_parse env k _ N5) H6) |].
      eapply same_member_trans;
        [exact (@keeps_Ok _ _ _ _ _
                  (@store_input_keeps_member env k "skip" _ (Hin _)) H7) |].
      eapply same_member_trans;
        [exact (@keeps_Ok _ _ _ _ _
                  (@store_input_keeps_member env k "username" _ (Hin _))
                  H8) |].
      exact (@keeps_Ok _ _ _ _ _
               (@store_input_keeps_member env k "email" _ (Hin _)) H9). }
    destruct (Hkeep p eq_refl) as [p9 [Hp9 Hown]].
    rewrite Ho, Hp9. simpl. unfold get. now rewrite Hown.
Qed.

End MoreBumperOptions2.

Lemma getBumperOptions_returns_quietly_witness :
  (forall message,
      ~ In (ConsoleError message)
           (output (getBumperOptions sample_schemes sample_parse
                      (sample_env "push" None (inputs "false")
                                  (options_file options_text)))))
  /\ exists l,
      output (getBumperOptions sample_schemes sample_parse
                (sample_env "push" None (inputs "false")
                            (options_file options_text)))
      = l ++ [ConsoleLogJSON
                (outcome_value
                   (getBumperOptions sample_schemes sample_parse
                      (sample_env "push" None (inputs "false")
                                  (options_file options_text))))].
Proof.
  apply (@getBumperOptions_returns_quietly sample_schemes sample_parse
           (sample_env "push" None (inputs "false")
                       (options_file options_text))).
  vm_compute. reflexivity.
Defined.

Lemma custom_scheme_input_wins_witness :
  member (outcome_value
            (getBumperOptions sample_schemes sample_parse
               (sample_env "push" None custom_over_file
                           (options_file options_text))))
         "scheme" = Ok (VStr "custom")
  /\ member (outcome_value
               (getBumperOptions sample_schemes sample_parse
                  (sample_env "push" None custom_over_file
                              (options_file options_text))))
            "schemeDefinition"
     = Ok (VStr (getInput (sample_env "push" None custom_over_file
                                      (options_file options_text))
                          "custom-scheme")).
Proof.
  apply (@custom_scheme_input_wins sample_schemes sample_parse
           (sample_env "push" None custom_over_file
                       (options_file options_text))
           (output (getBumperOptions sample_schemes sample_parse
                      (sample_env "push" None custom_over_file
                                  (options_file options_text))))).
  - reflexivity.
  - vm_compute. reflexivity.
Defined.

Lemma scheme_input_needed_without_options_file_witness :
  In (ConsoleError "Scheme is not defined in option file or workflow input.")
     (output (getBumperOptions sample_schemes sample_parse
                (sample_env "push" None custom_scheme_input no_file)))
  /\ exists e,
      outcome (getBumperOptions sample_schemes sample_parse
                 (sample_env "push" None custom_scheme_input no_file))
      = Throw e.
Proof.
  apply scheme_input_needed_without_options_file; reflexivity.
Defined.

Lemma unusable_options_file_only_warns_witness :
  exists w,
    getBumperOptions sample_schemes sample_parse
      (sample_env "push" None (inputs "") no_file)
    = (ConsoleWarn w
         :: output (getBumperOptions sample_schemes sample_parse
                      (without_options_file
                         (sample_env "push" None (inputs "") no_file))),
       outcome (getBumperOptions sample_schemes sample_parse
                  (without_options_file
                     (sample_env "push" None (inputs "") no_file)))).
Proof.
  apply unusable_options_file_only_warns.
  - simpl. discriminate.
  - left. reflexivity.
Defined.

Lemma input_replaces_file_value_witness :
  member (outcome_value
            (getBumperOptions sample_schemes named_parse
               (sample_env "push" None (inputs "false")
                           (options_file named_options_text))))
         "skip" = Ok (VStr "false")
  /\ member (outcome_value
               (getBumperOptions sample_schemes named_parse
                  (sample_env "push" None (inputs "false")
                              (options_file named_options_text))))
            "username" = Ok (VStr "bot").
Proof.
  split.
  - refine (proj1 (@input_replaces_file_value sample_schemes named_parse
                     (sample_env "push" None (inputs "false")
                                 (options_file named_options_text))
                     _ _ _ "skip" _) _);
      [vm_compute; reflexivity | left; reflexivity | discriminate].
  - refine (proj2 (@input_replaces_file_value sample_schemes named_parse
                     (sample_env "push" None (inputs "false")
                                 (options_file named_options_text))
                     _ _ _ "username" _) _ _
                  [("scheme", VStr "semantic");
                   ("versionFile", VStr "VERSION");
                   ("files", VArr [VStr "README.md"]);
                   ("rules", VArr []);
                   ("username", VStr "bot")] _);
      [vm_compute; reflexivity | right; left; reflexivity
       | reflexivity | vm_compute; reflexivity].
Defined.

(** ** More on [getBumperState] *)

Lemma own_spread (props : obj) (k : string) :
  JS.get (map (fun x => (x, JS.get props x)) (JS.keys props)) k
  = JS.get props k.
Proof.
  unfold JS.get at 1.
  destruct (JS.has_own props k) eqn:Hk.
  - apply ObjFacts.keys_In in Hk.
    now rewrite (own_tabulate_value (JS.get props) _ _ Hk).
  - assert (Hnone : JS.own (map (fun x => (x, JS.get props x))
                                (JS.keys props)) k = None).
    { destruct (JS.own (map (fun x => (x, JS.get props x)) (JS.keys props)) k)
        eqn:Ho; [| reflexivity].
      assert (Hin : JS.has_own (map (fun x => (x, JS.get props x))
                                    (JS.keys props)) k = true)
        by (unfold JS.has_own; now rewrite Ho).
      apply own_tabulate, ObjFacts.keys_In in Hin. congruence. }
    rewrite Hnone. unfold JS.get, JS.has_own in *.
    destruct (JS.own props k); [discriminate | reflexivity].
Qed.

(** X21: the copy of the options that the second read of the version
    gets differs from the options in versionFile only: every other
    property reads in the copy as in the options. *)
Theorem path_only_keeps_other_members (props : obj) (unpinned : value) :
  path_only (VObj props) = Ok unpinned ->
  forall k, k <> "versionFile" -> member unpinned k = Ok (JS.get props k).
Proof.
  unfold path_only. intros H. bind_inv H. bind_inv H.
  inversion H; subst. intros k Hk. simpl. f_equal.
  unfold JS.get at 1. rewrite ObjFacts.own_assign_other by exact Hk.
  apply own_spread.
Qed.

Section MoreStateAssembly.
Variable definedSchemes : list (string * string).
Variable RegExp : Type.
Variable getSchemeRegex : value -> result RegExp.
Variable getCurVersion : value -> result string.
Variable getTag : value -> RuleTrigger -> string -> string -> result bool.
Variable bumpVersion :
  value -> RuleTrigger -> string -> string -> result string.

(** X19: on an event that getTrigger does not know, getBumperState stops
    at once with the invalid-trigger error: the output is the two lines
    of getTrigger, the scheme is not resolved and none of the functions
    that read or bump the version is consulted, whatever they and the
    options are. *)
Theorem getBumperState_invalid_trigger (env : Env) (options : value) :
  eventName env <> "push" -> eventName env <> "pull_request" ->
  eventName env <> "workflow_dispatch" ->
  getBumperState definedSchemes getSchemeRegex getCurVersion getTag
                 bumpVersion env options
  = ([ConsoleInfo ("Trigger -> " ++ eventName env ++ " - "
                     ++ match payload_action env with
                        | Some a => a
                        | None => "undefined"
                        end);
      ConsoleWarn "Event trigger not of type: commit, pull request or manual."],
     Throw (Error "Invalid trigger event")).
Proof.
  intros H1 H2 H3. unfold getBumperState, getTrigger.
  apply String.eqb_neq in H1, H2, H3. rewrite H1, H2, H3. reflexivity.
Qed.

(** X20: the trigger, the branch and the destination branch of an
    assembled state are what getTrigger, getBranchFromTrigger and
    getDestBranchFromTrigger return in the surroundings of the run, so
    the two branches of the state are equal whenever its trigger is not
    pull-request. *)
Theorem getBumperState_branches
        (env : Env) (options : value) (log : list event)
        (s : BumperState RegExp) :
  getBumperState definedSchemes getSchemeRegex getCurVersion getTag
                 bumpVersion env options = (log, Ok s) ->
  outcome (getTrigger env) = Ok (trigger s)
  /\ outcome (getBranchFromTrigger env (trigger s)) = Ok (branch s)
  /\ outcome (getDestBranchFromTrigger env (trigger s)) = Ok (destBranch s)
  /\ (trigger s <> pull_request -> branch s = destBranch s).
Proof.
  unfold getBumperState. intros H. m_inv H.
  cbn in H. inversion H; subst. cbn [trigger branch destBranch].
  rewrite Hstep, Hstep0, Hstep1. unfold outcome, snd.
  split; [reflexivity | split; [reflexivity | split; [reflexivity |]]].
  intros Hne. unfold getBranchFromTrigger in Hstep0.
  unfold getDestBranchFromTrigger in Hstep1.
  cbn in Hstep0, Hstep1. inversion Hstep0. inversion Hstep1.
  destruct a; congruence.
Qed.

(** X22: options without a version file give no state: when
    options.versionFile is undefined or null, getBumperState throws,
    at the latest when it builds the options of the second read. *)
Theorem getBumperState_needs_versionFile
        (env : Env) (options : value) :
  member options "versionFile" = Ok VUndefined
  \/ member options "versionFile" = Ok VNull ->
  exists e,
    outcome (getBumperState definedSchemes getSchemeRegex getCurVersion
                            getTag bumpVersion env options) = Throw e.
Proof.
  intros Hvf.
  destruct (getBumperState definedSchemes getSchemeRegex getCurVersion
                           getTag bumpVersion env options)
    as [log [s | e]] eqn:Hrun; [| simpl; eauto].
  exfalso. apply getBumperState_Ok in Hrun.
  destruct Hrun as [lt [u [_ [_ [_ [_ [_ [Hu _]]]]]]]].
  unfold path_only in Hu.
  destruct Hvf as [Hvf | Hvf]; rewrite Hvf in Hu; discriminate Hu.
Qed.

(** X23: the skip of an assembled state is a truthy value or the boolean
    false: a skip option that is falsy in another way (missing, null, 0,
    the empty string) is replaced by false. *)
Theorem getBumperState_skip_truthy_or_false
        (env : Env) (options : value) (log : list event)
        (s : BumperState RegExp) :
  getBumperState definedSchemes getSchemeRegex getCurVersion getTag
                 bumpVersion env options = (log, Ok s) ->
  exists v,
    member options "skip" = Ok v
    /\ ((JS.truthy v = true /\ skip s = v)
        \/ (JS.truthy v = false /\ skip s = VBool false)).
Proof.
  intros H. apply getBumperState_Ok in H.
  destruct H as [lt [u [_ [Hskip _]]]].
  unfold getSkipOption in Hskip. bind_inv Hskip. exists a.
  split; [exact Ha |].
  destruct (JS.truthy a); inversion Hskip; auto.
Qed.

End MoreStateAssembly.

Lemma path_only_keeps_other_members_witness :
  member (VObj [("scheme", VStr "semantic");
                ("versionFile", VObj [("path", VStr "VERSION")])]) "scheme"
  = Ok (JS.get [("scheme", VStr "semantic");
                ("versionFile",
                 VObj [("path", VStr "VERSION"); ("line", VNum 2)])]
               "scheme").
Proof.
  apply (@path_only_keeps_other_members
           [("scheme", VStr "semantic");
            ("versionFile",
             VObj [("path", VStr "VERSION"); ("line", VNum 2)])]).
  - reflexivity.
  - discriminate.
Defined.

Lemma getBumperState_invalid_trigger_witness :
  getBumperState sample_schemes sample_getSchemeRegex sample_getCurVersion
                 sample_getTag sample_bumpVersion
                 (sample_env "release" (Some "published") no_input no_file)
                 (sample_options (VObj [("path", VStr "VERSION")]) [])
  = ([ConsoleInfo "Trigger -> release - published";
      ConsoleWarn "Event trigger not of type: commit, pull request or manual."],
     Throw (Error "Invalid trigger event")).
Proof.
  apply (@getBumperState_invalid_trigger
           sample_schemes string sample_getSchemeRegex sample_getCurVersion
           sample_getTag sample_bumpVersion
           (sample_env "release" (Some "published") no_input no_file));
    simpl; discriminate.
Defined.

Lemma getBumperState_branches_witness :
  outcome (getTrigger (sample_env "push" None no_input no_file))
  = Ok (trigger sample_state)
  /\ outcome (getBranchFromTrigger (sample_env "push" None no_input no_file)
                                   (trigger sample_state))
     = Ok (branch sample_state)
  /\ outcome (getDestBranchFromTrigger
                (sample_env "push" None no_input no_file)
                (trigger sample_state))
     = Ok (destBranch sample_state)
  /\ (trigger sample_state <> pull_request ->
      branch sample_state = destBranch sample_state).
Proof.
  apply (@getBumperState_branches
           sample_schemes string sample_getSchemeRegex sample_getCurVersion
           sample_getTag sample_bumpVersion
           (sample_env "push" None no_input no_file)
           (sample_options (VObj [("path", VStr "VERSION")]) [])
           (output (getBumperState sample_schemes sample_getSchemeRegex
                      sample_getCurVersion sample_getTag sample_bumpVersion
                      (sample_env "push" None no_input no_file)
                      (sample_options (VObj [("path", VStr "VERSION")]) [])))).
  vm_compute. reflexivity.
Defined.

Lemma getBumperState_needs_versionFile_witness :
  exists e,
    outcome (getBumperState sample_schemes sample_getSchemeRegex
               sample_getCurVersion sample_getTag sample_bumpVersion
               (sample_env "push" None no_input no_file)
               (VObj [("scheme", VStr "semantic")]))
    = Throw e.
Proof.
  apply getBumperState_needs_versionFile. left. reflexivity.
Defined.

Lemma getBumperState_skip_truthy_or_false_witness :
  exists v,
    member (sample_options (VObj [("path", VStr "VERSION")])
                           [("skip", VNum 0)]) "skip" = Ok v
    /\ ((JS.truthy v = true /\ skip sample_state = v)
        \/ (JS.truthy v = false
            /\ skip sample_state = VBool false)).
Proof.
  apply (@getBumperState_skip_truthy_or_false
           sample_schemes string sample_getSchemeRegex sample_getCurVersion
           sample_getTag sample_bumpVersion
           (sample_env "push" None no_input no_file)
           (sample_options (VObj [("path", VStr "VERSION")])
                           [("skip", VNum 0)])
           (output (getBumperState sample_schemes sample_getSchemeRegex
                      sample_getCurVersion sample_getTag sample_bumpVersion
                      (sample_env "push" None no_input no_file)
                      (sample_options (VObj [("path", VStr "VERSION")])
                                      [("skip", VNum 0)])))).
  vm_compute. reflexivity.
Defined.
